(** * SOCI index builder Lambda: a model of [handler.go]

    This development embeds the invocation pipeline of
    [functions/source/soci-index-generator-lambda/handler.go]:
    event validation ([validateEvent]), the registry/build/push pipeline
    ([HandleRequest], [buildIndex]) and the deadline goroutine
    ([setDeadline], [cleanUp]).

    Conventions.
    - Go strings are [string]; the regular expressions only mention ASCII
      classes, so matching byte by byte agrees with Go's rune by rune search.
    - A Go [error] is kept as the tree that built it ([errors.New],
      [fmt.Errorf] with [%w]); [Error] renders its message.
    - Calls that leave the process (registry, file system, logger, builder
      library) are answered by a [World] of oracles and recorded in a trace.
    - The main path and the goroutine of [setDeadline] meet at the unbuffered
      [quitChannel]: which case the goroutine's [select] runs follows from
      the instants at which the timer is ready and the main path reaches its
      deferred send; the send completes only when the goroutine receives.
      The value of [HandleRequest] is the pair its [return] statement sets;
      [returns] and [never_returns] say whether the caller gets it. *)

From Stdlib Require Import List String Ascii ZArith NArith Bool Lia.
From Stdlib Require Import Permutation Sorted DecimalString.
Import ListNotations.

Local Open Scope string_scope.
Local Open Scope list_scope.

(* ================================================================== *)
(** ** Regular expressions (the fragment of Go's [regexp] the handler uses) *)
(* ================================================================== *)

Module Regexp.

(** A character class is a list of inclusive ranges, as written between
    brackets: [[A-Za-z0-9]] is [[("A","Z"); ("a","z"); ("0","9")]]. *)
Definition class := list (ascii * ascii).

Definition in_range (c : ascii) (r : ascii * ascii) : bool :=
  (N_of_ascii (fst r) <=? N_of_ascii c)%N && (N_of_ascii c <=? N_of_ascii (snd r))%N.

Definition in_class (cl : class) (c : ascii) : bool := existsb (in_range c) cl.

Inductive regex : Type :=
| Void : regex                      (* matches nothing; only arises from derivatives *)
| Eps  : regex                      (* empty string *)
| Cls  : class -> regex             (* [...] *)
| Cat  : regex -> regex -> regex    (* r1 r2 *)
| Alt  : regex -> regex -> regex    (* r1 | r2 *)
| Star : regex -> regex.            (* r* *)

(** [r{n}] *)
Fixpoint rep_exact (n : nat) (r : regex) : regex :=
  match n with
  | O => Eps
  | S n' => Cat r (rep_exact n' r)
  end.

(** [r{n,}] *)
Definition rep_at_least (n : nat) (r : regex) : regex :=
  Cat (rep_exact n r) (Star r).

(** [r{0,n}] *)
Fixpoint rep_at_most (n : nat) (r : regex) : regex :=
  match n with
  | O => Eps
  | S n' => Alt Eps (Cat r (rep_at_most n' r))
  end.

(** Denotation: the words a regex matches in full. *)
Inductive matches : regex -> list ascii -> Prop :=
| MEps : matches Eps []
| MCls cl c : in_class cl c = true -> matches (Cls cl) [c]
| MCat r1 r2 s1 s2 : matches r1 s1 -> matches r2 s2 -> matches (Cat r1 r2) (s1 ++ s2)
| MAltL r1 r2 s : matches r1 s -> matches (Alt r1 r2) s
| MAltR r1 r2 s : matches r2 s -> matches (Alt r1 r2) s
| MStar0 r : matches (Star r) []
| MStarS r s1 s2 : matches r s1 -> matches (Star r) s2 -> matches (Star r) (s1 ++ s2).

(** The matcher: Brzozowski derivatives with the usual clean-up of
    [Void] and [Eps] so that derivatives stay small. *)
Fixpoint nullable (r : regex) : bool :=
  match r with
  | Void => false
  | Eps => true
  | Cls _ => false
  | Cat r1 r2 => nullable r1 && nullable r2
  | Alt r1 r2 => nullable r1 || nullable r2
  | Star _ => true
  end.

Definition cat' (r1 r2 : regex) : regex :=
  match r1, r2 with
  | Void, _ => Void
  | _, Void => Void
  | Eps, _ => r2
  | _, _ => Cat r1 r2
  end.

Definition alt' (r1 r2 : regex) : regex :=
  match r1, r2 with
  | Void, _ => r2
  | _, Void => r1
  | _, _ => Alt r1 r2
  end.

Fixpoint deriv (c : ascii) (r : regex) : regex :=
  match r with
  | Void => Void
  | Eps => Void
  | Cls cl => if in_class cl c then Eps else Void
  | Cat r1 r2 =>
      if nullable r1
      then alt' (cat' (deriv c r1) r2) (deriv c r2)
      else cat' (deriv c r1) r2
  | Alt r1 r2 => alt' (deriv c r1) (deriv c r2)
  | Star r1 => cat' (deriv c r1) (Star r1)
  end.

(** Does some prefix of [s] match [r]? *)
Fixpoint match_prefix (r : regex) (s : list ascii) : bool :=
  nullable r ||
  match s with
  | [] => false
  | c :: s' => match_prefix (deriv c r) s'
  end.

(** Does some substring of [s] match [r]?  (an unanchored search: try every
    start position) *)
Fixpoint search (r : regex) (s : list ascii) : bool :=
  match_prefix r s ||
  match s with
  | [] => false
  | _ :: s' => search r s'
  end.

(** [regexp.MatchString(pattern, s)] for a pattern that compiles: it reports
    whether [s] _contains_ a match of the pattern. *)
Definition MatchString (r : regex) (s : string) : bool :=
  search r (list_ascii_of_string s).

End Regexp.

(* ================================================================== *)
(** ** Data model *)
(* ================================================================== *)

(** A non-nil Go [error], as it was built. *)
Inductive errval : Type :=
| errors_New (msg : string)                       (* errors.New(msg) *)
| fmt_Errorf (msg : string)                       (* fmt.Errorf(msg), no verb *)
| fmt_Errorf_w (prefix : string) (cause : errval). (* fmt.Errorf(prefix + "%w", cause) *)

(** The Go interface value [error]: [None] is [nil]. *)
Definition error : Type := option errval.

(** [err.Error()] *)
Fixpoint Error (e : errval) : string :=
  match e with
  | errors_New msg => msg
  | fmt_Errorf msg => msg
  | fmt_Errorf_w prefix cause => prefix ++ Error cause
  end.

(** A Go function returning [(T, error)] with exactly one of them set. *)
Inductive res (A : Type) : Type :=
| Ok (a : A)
| Fail (e : errval).
Arguments Ok {A} a.
Arguments Fail {A} e.

(** [events.ECRImageActionEvent] (package [events]); the fields the handler
    reads. *)
Record ECRImageActionEventDetail : Type := {
  ActionType : string;
  Result : string;
  RepositoryName : string;
  ImageDigest : string;
  ImageTag : string
}.

Record ECRImageActionEvent : Type := {
  Source : string;
  Account : string;
  DetailType : string;
  Region : string;
  Detail : ECRImageActionEventDetail
}.

(** [type contextKey string] and its constants. *)
Inductive contextKey : Type :=
| RegistryURLKey
| RepositoryNameKey
| ImageDigestKey
| ImageTagKey
| SOCIIndexDigestKey.

Definition contextKey_eqb (a b : contextKey) : bool :=
  match a, b with
  | RegistryURLKey, RegistryURLKey
  | RepositoryNameKey, RepositoryNameKey
  | ImageDigestKey, ImageDigestKey
  | ImageTagKey, ImageTagKey
  | SOCIIndexDigestKey, SOCIIndexDigestKey => true
  | _, _ => false
  end.

Definition SociIndexVersion : string := "soci_index_version".

(** Instants are nanoseconds since the Unix epoch; durations are [int64]
    nanoseconds. *)
Definition Time : Type := Z.
Definition Duration : Type := Z.

(** [context.Context]: the chain of [WithValue] bindings under the handler's
    own key type (innermost first), the deadline, and the Lambda request id
    that [lambdacontext.FromContext] reads. *)
Record Context : Type := {
  ctx_values : list (contextKey * string);
  ctx_deadline : option Time;
  ctx_AwsRequestID : string
}.

Definition WithValue (ctx : Context) (k : contextKey) (v : string) : Context :=
  {| ctx_values := (k, v) :: ctx_values ctx;
     ctx_deadline := ctx_deadline ctx;
     ctx_AwsRequestID := ctx_AwsRequestID ctx |}.

Fixpoint lookup_value (k : contextKey) (l : list (contextKey * string)) : option string :=
  match l with
  | [] => None
  | (k', v) :: l' => if contextKey_eqb k k' then Some v else lookup_value k l'
  end.

(** [ctx.Value(k).(string)] *)
Definition Value (ctx : Context) (k : contextKey) : option string :=
  lookup_value k (ctx_values ctx).

(** [ocispec.Descriptor] *)
Record ocispec_Descriptor : Type := {
  MediaType : string;
  Digest : string;
  Size : Z
}.

(** [images.Image] *)
Record Image : Type := {
  Name : string;
  Target : ocispec_Descriptor
}.

(** [soci.IndexDescriptorInfo] *)
Record IndexDescriptorInfo : Type := {
  Descriptor : ocispec_Descriptor;
  CreatedAt : Time
}.

Definition Platform : Type := string.

(* ================================================================== *)
(** ** Effects: the outside world and the trace of calls *)
(* ================================================================== *)

Inductive Level : Type := LInfo | LWarn | LError.

(** One record per call that leaves the handler. *)
Inductive Call : Type :=
| CLog (lvl : Level) (msg : string) (err : error)
| CPrintf (s : string)
| CGetenv (name : string)
| CRegistryInit (url : string)
| CValidateImageDigest (repo digest version : string)
| CCalculateFreeSpace (path : string)
| CMkdirTemp (dir pattern : string)
| CRemoveAll (path : string)
| CGoDeadline (timer : Duration) (dataDir : string)   (* the goroutine of setDeadline *)
| CQuitSend                    (* quitChannel <- 1 is reached: the value is offered *)
| CBlockedOnQuit               (* nobody will receive it: the main path stays at the send *)
| COciNew (path : string)
| CPull (repo storePath digest : string)
| CNewDB (path : string)
| CNewStore (path : string)
| CNewIndexBuilder
| CConvert (image : Image)
| CBuild (image : Image) (platform : Platform)
| CGetIndexDescriptorCollection (image : Image) (platform : Platform)
| CPush (storePath : string) (desc : ocispec_Descriptor) (repo tag : string).

(** The two cases of the [select] in the goroutine of [setDeadline]. *)
Inductive select_case : Type :=
| case_timeoutChannel
| case_quitChannel.

(** What the collaborators answer, and what the Go runtime decides:
    [w_QuitAt] is the instant at which the main path reaches its deferred
    send on [quitChannel], [w_Select] the case a [select] runs when both of
    its channels are ready, and [w_SortOrder] the order in which
    [sort.Slice] leaves what it does not promise to order. *)
Record World : Type := {
  w_Getenv : string -> string;
  w_RegistryInit : string -> error;
  w_ValidateImageDigest : string -> string -> string -> error;
  w_CalculateFreeSpace : string -> Z;
  w_MkdirTemp : string -> string -> string * error;
  w_RemoveAll : string -> error;
  w_Now : Time;
  w_OciNew : string -> error;
  w_Pull : string -> string -> string -> res ocispec_Descriptor;
  w_NewDB : string -> error;
  w_NewStore : string -> error;
  w_NewIndexBuilder : error;
  w_DefaultSpec : Platform;
  w_Convert : Image -> res ocispec_Descriptor;
  w_Build : Image -> Platform -> res ocispec_Descriptor;
  w_GetIndexDescriptorCollection : Image -> Platform -> res (list IndexDescriptorInfo);
  w_Push : string -> ocispec_Descriptor -> string -> string -> error;
  w_QuitAt : Time;
  w_Select : select_case;
  w_SortOrder : list nat
}.

(** A computation: its value and the calls it made, in order. *)
Definition M (A : Type) : Type := (A * list Call)%type.

Definition ret {A : Type} (a : A) : M A := (a, []).

Definition bind {A B : Type} (m : M A) (k : A -> M B) : M B :=
  let (a, t1) := m in
  let (b, t2) := k a in
  (b, t1 ++ t2).

Definition call {A : Type} (c : Call) (answer : A) : M A := (answer, [c]).

Declare Scope go_scope.
Delimit Scope go_scope with go.
Notation "x <- m ;; k" := (bind m (fun x => k))
  (at level 61, m at next level, right associativity) : go_scope.
Notation "' p <- m ;; k" := (bind m (fun x => match x with p => k end))
  (at level 61, p pattern, m at next level, right associativity) : go_scope.
Notation "m ;;; k" := (bind m (fun _ => k))
  (at level 61, right associativity) : go_scope.
Local Open Scope go_scope.

(* ================================================================== *)
(** ** Constants of the handler *)
(* ================================================================== *)

(** [ErrEmptyIndex = errors.New("no ztocs created, ...")] *)
Definition ErrEmptyIndex : errval :=
  errors_New "no ztocs created, all layers either skipped or produced errors".

Definition BuildFailedMessage : string := "SOCI index build error".
Definition TagFailedMessage : string := "SOCI V2 OCI Image tag error".
Definition PushFailedMessage : string := "SOCI index push error".
Definition SkipPushOnEmptyIndexMessage : string :=
  "Skipping pushing SOCI index as it does not contain any zTOCs".
Definition BuildAndPushSuccessMessage : string :=
  "Successfully built and pushed SOCI index".

Definition artifactsStoreName : string := "store".
Definition artifactsDbName : string := "artifacts.db".

(* ================================================================== *)
(** ** The four patterns of [validateEvent] *)
(* ================================================================== *)

Module Patterns.
Import Regexp.

Definition one (c : ascii) : ascii * ascii := (c, c).

Definition digit : class := [("0", "9")]%char.
Definition lower_alnum : class := [("a", "z"); ("0", "9")]%char.
Definition alpha : class := [("A", "Z"); ("a", "z")]%char.
Definition alnum : class := [("A", "Z"); ("a", "z"); ("0", "9")]%char.
Definition hex : class := [("A", "F"); ("a", "f"); ("0", "9")]%char.

(** [r+] *)
Definition plus (r : regex) : regex := Cat r (Star r).

(** The pattern "[0-9]{12}". *)
Definition account_re : regex := rep_exact 12 (Cls digit).

(** The sub-pattern "[a-z0-9]+(?:[._-][a-z0-9]+)*". *)
Definition repo_component : regex :=
  Cat (plus (Cls lower_alnum))
      (Star (Cat (Cls [one "."; one "_"; one "-"]%char) (plus (Cls lower_alnum)))).

(** The pattern "(?:[a-z0-9]+(?:[._-][a-z0-9]+)*/)*[a-z0-9]+(?:[._-][a-z0-9]+)*". *)
Definition repository_re : regex :=
  Cat (Star (Cat repo_component (Cls [one "/"]%char))) repo_component.

(** The digest pattern, written here with a blank between its pieces:
      [[A-Za-z]  [A-Za-z0-9]*  (?: [-_+.] [A-Za-z] [A-Za-z0-9]* )*  [:]  [A-Fa-f0-9]{32,}
    Its first class opens with two brackets: it holds the opening bracket
    and the letters. *)
Definition digest_re : regex :=
  Cat (Cls [one "["; ("A", "Z"); ("a", "z")]%char)
 (Cat (Star (Cls alnum))
 (Cat (Star (Cat (Cls [one "-"; one "_"; one "+"; one "."]%char)
                 (Cat (Cls alpha) (Star (Cls alnum)))))
 (Cat (Cls [one ":"]%char)
      (rep_at_least 32 (Cls hex))))).

(** The pattern "[A-Za-z0-9_][A-Za-z0-9_.-]{0,127}". *)
Definition tag_re : regex :=
  Cat (Cls [("A", "Z"); ("a", "z"); ("0", "9"); one "_"]%char)
      (rep_at_most 127
         (Cls [("A", "Z"); ("a", "z"); ("0", "9"); one "_"; one "."; one "-"]%char)).

End Patterns.

(** [regexp.MatchString(pattern, s)]: the four patterns are constants that
    compile, so the error result is always [nil]. *)
Definition regexp_MatchString (pattern : Regexp.regex) (s : string) : bool * error :=
  (Regexp.MatchString pattern s, None).

(* ================================================================== *)
(** ** [validateEvent] *)
(* ================================================================== *)

(** [errors = append(errors, e)] *)
Definition append (errors : list errval) (e : errval) : list errval := errors ++ [e].

Definition append_if_err (errors : list errval) (err : error) : list errval :=
  match err with
  | Some e => append errors e
  | None => errors
  end.

(** The body of [validateEvent] up to its final [if]: the context and the
    [errors] slice. *)
Definition validateEvent_collect (ctx : Context) (event : ECRImageActionEvent)
  : Context * list errval :=
  let errors : list errval := [] in
  let errors := if negb (Source event =? "aws.ecr")
    then append errors (fmt_Errorf "the event's 'source' must be 'aws.ecr'") else errors in
  let errors := if Account event =? ""
    then append errors (fmt_Errorf "the event's 'account' must not be empty") else errors in
  let errors := if negb (DetailType event =? "ECR Image Action")
    then append errors (fmt_Errorf "the event's 'detail-type' must be 'ECR Image Action'") else errors in
  let errors := if negb (ActionType (Detail event) =? "PUSH")
    then append errors (fmt_Errorf "the event's 'detail.action-type' must be 'PUSH'") else errors in
  let errors := if negb (Result (Detail event) =? "SUCCESS")
    then append errors (fmt_Errorf "the event's 'detail.result' must be 'SUCCESS'") else errors in
  let errors := if RepositoryName (Detail event) =? ""
    then append errors (fmt_Errorf "the event's 'detail.repository-name' must not be empty") else errors in
  let errors := if ImageDigest (Detail event) =? ""
    then append errors (fmt_Errorf "the event's 'detail.image-digest' must not be empty") else errors in

  let '(validAccountId, err) := regexp_MatchString Patterns.account_re (Account event) in
  let errors := append_if_err errors err in
  let errors := if negb validAccountId
    then append errors (fmt_Errorf "the event's 'account' must be a valid AWS account ID") else errors in

  let '(validRepositoryName, err) :=
    regexp_MatchString Patterns.repository_re (RepositoryName (Detail event)) in
  let errors := append_if_err errors err in
  let '(ctx, errors) :=
    if validRepositoryName
    then (WithValue ctx RepositoryNameKey (RepositoryName (Detail event)), errors)
    else (ctx, append errors
            (fmt_Errorf "the event's 'detail.repository-name' must be a valid repository name")) in

  let '(validImageDigest, err) :=
    regexp_MatchString Patterns.digest_re (ImageDigest (Detail event)) in
  let errors := append_if_err errors err in
  let '(ctx, errors) :=
    if validImageDigest
    then (WithValue ctx ImageDigestKey (ImageDigest (Detail event)), errors)
    else (ctx, append errors
            (fmt_Errorf "the event's 'detail.image-digest' must be a valid image digest")) in

  (* missing/empty tag is OK *)
  let '(ctx, errors) :=
    if negb (ImageTag (Detail event) =? "")
    then
      let '(validImageTag, err) :=
        regexp_MatchString Patterns.tag_re (ImageTag (Detail event)) in
      let errors := append_if_err errors err in
      if validImageTag
      then (WithValue ctx ImageTagKey (ImageTag (Detail event)), errors)
      else (ctx, append errors
              (fmt_Errorf "the event's 'detail.image-tag' must be empty or a valid image tag"))
    else (ctx, errors) in
  (ctx, errors).

(** Validate the given event, populating the context with relevant valid
    event properties. *)
Definition validateEvent (ctx : Context) (event : ECRImageActionEvent) : Context * error :=
  let '(ctx, errors) := validateEvent_collect ctx event in
  match errors with
  | [] => (ctx, None)
  | e0 :: _ => (ctx, Some e0)
  end.

(** [strings.HasPrefix(s, p)] *)
Definition strings_HasPrefix (s p : string) : bool := String.prefix p s.

(** Returns ecr registry url from an image action event. *)
Definition buildEcrRegistryUrl (event : ECRImageActionEvent) : string :=
  let awsDomain := ".amazonaws.com" in
  let awsDomain := if strings_HasPrefix (Region event) "cn" then ".amazonaws.com.cn" else awsDomain in
  Account event ++ ".dkr.ecr." ++ Region event ++ awsDomain.

(* ================================================================== *)
(** ** The deadline goroutine and the race it waits on *)
(* ================================================================== *)

(** The two instants of the race: when the timer channel becomes ready, and
    when (if ever) the main path offers its value on [quitChannel]. *)
Record Race : Type := {
  timer_ready_at : Time;
  quit_sent_at : option Time
}.

(** Is the channel of case [c] ready at instant [t]? *)
Definition ready_at (r : Race) (t : Time) (c : select_case) : bool :=
  match c with
  | case_timeoutChannel => (timer_ready_at r <=? t)%Z
  | case_quitChannel =>
      match quit_sent_at r with
      | Some q => (q <=? t)%Z
      | None => false
      end
  end.

(** The goroutine reaches its [select] before either channel is ready and
    blocks there; it wakes at the first instant at which a case is ready. *)
Definition wake_up (r : Race) : Time :=
  match quit_sent_at r with
  | Some q => Z.min (timer_ready_at r) q
  | None => timer_ready_at r
  end.

(** A [select] runs a case that is ready when it wakes; with both ready at
    that instant either may run. *)
Definition may_select (r : Race) (c : select_case) : bool :=
  ready_at r (wake_up r) c.

(* ================================================================== *)
(** ** Library calls, answered by the world and recorded *)
(* ================================================================== *)

(** [fmt.Sprintf("%d", n)] *)
Definition fmt_d (n : Z) : string := NilZero.string_of_int (Z.to_int n).

(** [path.Join(dir, name)] for a clean [dir] and a plain file name. *)
Definition path_Join (dir name : string) : string := dir ++ "/" ++ name.

Definition Second : Duration := 1000000000%Z.
Definition minDuration : Duration := (- 2 ^ 63)%Z.
Definition maxDuration : Duration := (2 ^ 63 - 1)%Z.

(** The zero [time.Time] that [ctx.Deadline()] returns beside [ok = false]:
    January 1, year 1, 00:00:00 UTC. *)
Definition zero_Time : Time := (-62135596800 * Second)%Z.

(** [t.Add(d)] *)
Definition Time_Add (t : Time) (d : Duration) : Time := (t + d)%Z.

(** [t.Sub(u)]: saturates at the ends of [int64]. *)
Definition Time_Sub (t u : Time) : Duration :=
  Z.max minDuration (Z.min maxDuration (t - u)%Z).

(** The instant at which the channel of [time.After(d)], made at [now],
    becomes ready: a timer with [d <= 0] fires at once. *)
Definition time_After_ready (now : Time) (d : Duration) : Time := (now + Z.max 0 d)%Z.

Section Handler.

Variable w : World.

Definition log_Info (ctx : Context) (msg : string) : M unit :=
  call (CLog LInfo msg None) tt.

Definition log_Warn (ctx : Context) (msg : string) : M unit :=
  call (CLog LWarn msg None) tt.

Definition log_Error (ctx : Context) (msg : string) (err : error) : M unit :=
  call (CLog LError msg err) tt.

Definition fmt_Printf (s : string) : M unit := call (CPrintf s) tt.

Definition os_Getenv (name : string) : M string :=
  call (CGetenv name) (w_Getenv w name).

Definition registryutils_Init (ctx : Context) (url : string) : M error :=
  call (CRegistryInit url) (w_RegistryInit w url).

Definition registry_ValidateImageDigest (ctx : Context) (repo digest version : string) : M error :=
  call (CValidateImageDigest repo digest version) (w_ValidateImageDigest w repo digest version).

Definition registry_Pull (ctx : Context) (repo sociStore digest : string) : M (res ocispec_Descriptor) :=
  call (CPull repo sociStore digest) (w_Pull w repo sociStore digest).

Definition registry_Push (ctx : Context) (sociStore : string) (desc : ocispec_Descriptor)
  (repo tag : string) : M error :=
  call (CPush sociStore desc repo tag) (w_Push w sociStore desc repo tag).

Definition fs_CalculateFreeSpace (path : string) : M Z :=
  call (CCalculateFreeSpace path) (w_CalculateFreeSpace w path).

Definition os_MkdirTemp (dir pattern : string) : M (string * error) :=
  call (CMkdirTemp dir pattern) (w_MkdirTemp w dir pattern).

Definition os_RemoveAll (path : string) : M error :=
  call (CRemoveAll path) (w_RemoveAll w path).

(** Log and return the lambda handler error. *)
Definition lambdaError (ctx : Context) (msg : string) (err : error) : M (string * error) :=
  log_Error ctx msg err ;;;
  ret (msg, err).

(** Create a temp directory in /tmp, prefixed by the Lambda's request id. *)
Definition createTempDir (ctx : Context) : M (string * error) :=
  freeSpace <- fs_CalculateFreeSpace "/tmp" ;;
  log_Info ctx ("There are " ++ fmt_d freeSpace ++ " bytes of free space in /tmp directory") ;;;
  (if (freeSpace <? 6000000000)%Z
   then log_Warn ctx ("Free space in /tmp is only " ++ fmt_d freeSpace
                      ++ " bytes, which is less than 6GB")
   else ret tt) ;;;
  log_Info ctx "Creating a directory to store images and SOCI artifacts" ;;;
  os_MkdirTemp "/tmp" (ctx_AwsRequestID ctx).

(** Clean up the data written by the Lambda. *)
Definition cleanUp (ctx : Context) (dataDir : string) : M unit :=
  log_Info ctx ("Removing all files in " ++ dataDir) ;;;
  err <- os_RemoveAll dataDir ;;
  match err with
  | Some _ => log_Error ctx "Clean up error" err
  | None => ret tt
  end.

(** [ctx.Deadline()], its [ok] dropped as the handler drops it. *)
Definition ctx_Deadline (ctx : Context) : Time :=
  match ctx_deadline ctx with
  | Some t => t
  | None => zero_Time
  end.

(** The duration [setDeadline] arms its timer with:
    [time.Until(deadline.Add(-10 * time.Second))]. *)
Definition deadline_timer (ctx : Context) : Duration :=
  let deadline := ctx_Deadline ctx in
  let deadline := Time_Add deadline (-10 * Second)%Z in
  Time_Sub deadline (w_Now w).

(** [setDeadline], seen from the main path: it arms the timer and starts the
    goroutine. *)
Definition setDeadline (ctx : Context) (dataDir : string) : M unit :=
  call (CGoDeadline (deadline_timer ctx) dataDir) tt.

(** The goroutine of [setDeadline]: the two cases of its [select].  Both
    return, so the enclosing [for] runs its body once. *)
Definition deadline_goroutine (ctx : Context) (dataDir : string) (c : select_case) : M unit :=
  match c with
  | case_timeoutChannel =>
      cleanUp ctx dataDir ;;;
      log_Error ctx "Invocation timeout error"
        (Some (fmt_Errorf "invocation timeout after 14 minutes and 50 seconds"))
  | case_quitChannel => ret tt
  end.

(** The race of one invocation: the timer is the one [setDeadline] arms at
    [w_Now]. *)
Definition invocation_race (ctx : Context) (quit : option Time) : Race :=
  {| timer_ready_at := time_After_ready (w_Now w) (deadline_timer ctx);
     quit_sent_at := quit |}.

(** The calls the goroutine makes in a run allowed by the race. *)
Inductive goroutine_run (ctx : Context) (dataDir : string) (r : Race)
  : list Call -> Prop :=
| run_selected (c : select_case) :
    may_select r c = true ->
    goroutine_run ctx dataDir r (snd (deadline_goroutine ctx dataDir c)).

(** The case the goroutine runs in this invocation, whose main path
    reaches its deferred send at [w_QuitAt]: the one that is ready when the
    goroutine wakes, and the runtime's choice when both are. *)
Definition selected (ctx : Context) : select_case :=
  let r := invocation_race ctx (Some (w_QuitAt w)) in
  match may_select r case_timeoutChannel, may_select r case_quitChannel with
  | true, false => case_timeoutChannel
  | false, true => case_quitChannel
  | _, _ => w_Select w
  end.

(** Init containerd store. *)
Definition initContainerdStore (dataDir : string) : M (string * error) :=
  let p := path_Join dataDir artifactsStoreName in
  err <- call (CNewStore p) (w_NewStore w p) ;;
  ret (p, err).

(** Init SOCI artifact store. *)
Definition initSociStore (ctx : Context) (dataDir : string) : M (string * error) :=
  let p := path_Join dataDir artifactsStoreName in
  err <- call (COciNew p) (w_OciNew w p) ;;
  ret (p, err).

(** Init a new instance of SOCI artifacts DB. *)
Definition initSociArtifactsDb (dataDir : string) : M (string * error) :=
  let artifactsDbPath := path_Join dataDir artifactsDbName in
  err <- call (CNewDB artifactsDbPath) (w_NewDB w artifactsDbPath) ;;
  ret (artifactsDbPath, err).

(** [insertionSortLessFunc] of package [sort]: every element moves left
    while it is [less] than its left neighbour.  [sorted_rev] is the sorted
    prefix, last element first. *)
Fixpoint insert_left {A : Type} (less : A -> A -> bool) (x : A) (sorted_rev : list A) : list A :=
  match sorted_rev with
  | [] => [x]
  | y :: rest => if less x y then y :: insert_left less x rest else x :: sorted_rev
  end.

Definition insertionSortLessFunc {A : Type} (less : A -> A -> bool) (s : list A) : list A :=
  rev (fold_left (fun sorted_rev x => insert_left less x sorted_rev) s []).

(** The elements of [s] in another order: each pick takes out the element
    at that position of what is left (counted modulo its length); what is
    left when the picks run out follows as it is. *)
Fixpoint picked {A : Type} (picks : list nat) (s : list A) : list A :=
  match picks with
  | [] => s
  | pick :: picks =>
      match s with
      | [] => []
      | x :: _ =>
          let i := (pick mod List.length s)%nat in
          nth i s x :: picked picks (firstn i s ++ skipn (S i) s)
      end
  end.

(** [sort.Slice(s, less)].  Go promises that the slice ends up ordered by
    [less], with the elements it had, and that "the sort is not guaranteed
    to be stable".  Since Go 1.19 (the repository builds with Go 1.24) a
    slice of up to twelve elements is sorted by [insertionSortLessFunc] as
    it stands; a longer one goes through pattern-defeating quicksort, which
    leaves elements that [less] does not order in an order of its own: here
    the order in which the world hands them to the insertion sort, so that
    every ordering by [less] can come out ([SortFacts.sort_Slice_covers]). *)
Definition sort_Slice {A : Type} (less : A -> A -> bool) (s : list A) : list A :=
  if (List.length s <=? 12)%nat
  then insertionSortLessFunc less s
  else insertionSortLessFunc less (picked (w_SortOrder w) s).

(** [a.CreatedAt.Before(b.CreatedAt)] *)
Definition created_before (a b : IndexDescriptorInfo) : bool :=
  (CreatedAt a <? CreatedAt b)%Z.

(** Build soci index for an image and returns its ocispec.Descriptor. *)
Definition buildIndex (ctx : Context) (dataDir sociStore : string) (image : Image)
  (sociIndexVersion : string) : M (res ocispec_Descriptor) :=
  log_Info ctx "Building SOCI index" ;;;
  let platform := w_DefaultSpec w in
  '(artifactsDb, err) <- initSociArtifactsDb dataDir ;;
  match err with
  | Some e => ret (Fail e)
  | None =>
  '(containerdStore, err) <- initContainerdStore dataDir ;;
  match err with
  | Some e => ret (Fail e)
  | None =>
  err <- call CNewIndexBuilder (w_NewIndexBuilder w) ;;
  match err with
  | Some e => ret (Fail e)
  | None =>
  if sociIndexVersion =? "V2" then
    (* Use Convert() for V2 index generation *)
    r <- call (CConvert image) (w_Convert w image) ;;
    match r with
    | Fail e => ret (Fail (fmt_Errorf_w "failed to convert OCI index: " e))
    | Ok convertedOCIIndex =>
        fmt_Printf ("Generated OCI Index Digest: " ++ Digest convertedOCIIndex ++ String "010" "") ;;;
        ret (Ok convertedOCIIndex)
    end
  else
    (* Default to Build() for V1 index generation *)
    r <- call (CBuild image platform) (w_Build w image platform) ;;
    match r with
    | Fail e => ret (Fail (fmt_Errorf_w "failed to build SOCI index: " e))
    | Ok generatedImageDesc =>
        fmt_Printf ("Generated SOCI Index Digest: " ++ Digest generatedImageDesc ++ String "010" "") ;;;
        r <- call (CGetIndexDescriptorCollection image platform)
                  (w_GetIndexDescriptorCollection w image platform) ;;
        match r with
        | Fail e => ret (Fail e)
        | Ok indexDescriptorInfos =>
            match indexDescriptorInfos with
            | [] => ret (Fail (errors_New "no SOCI indices found in OCI store"))
            | first :: _ =>
                let indexDescriptorInfos := sort_Slice created_before indexDescriptorInfos in
                ret (Ok (Descriptor (last indexDescriptorInfos first)))
            end
        end
    end
  end end end.

(** [HandleRequest] from [defer cleanUp] on, without the deferred calls. *)
Definition HandleRequest_work (ctx : Context) (dataDir repo digest sociIndexVersion tag : string)
  : M (string * error) :=
  setDeadline ctx dataDir ;;;
  '(sociStore, err) <- initSociStore ctx dataDir ;;
  match err with
  | Some _ => lambdaError ctx "OCI storage initialization error" err
  | None =>
  r <- registry_Pull ctx repo sociStore digest ;;
  match r with
  | Fail e => lambdaError ctx "Image pull error" (Some e)
  | Ok desc =>
  let image := {| Name := (repo ++ "@" ++ digest)%string; Target := desc |} in
  r <- buildIndex ctx dataDir sociStore image sociIndexVersion ;;
  match r with
  | Fail e =>
      if Error e =? Error ErrEmptyIndex then
        log_Warn ctx SkipPushOnEmptyIndexMessage ;;;
        ret (SkipPushOnEmptyIndexMessage, None)
      else lambdaError ctx BuildFailedMessage (Some e)
  | Ok indexDescriptor =>
  let ctx := WithValue ctx SOCIIndexDigestKey (Digest indexDescriptor) in
  err <- registry_Push ctx sociStore indexDescriptor repo tag ;;
  match err with
  | Some _ => lambdaError ctx PushFailedMessage err
  | None =>
  log_Info ctx BuildAndPushSuccessMessage ;;;
  ret (BuildAndPushSuccessMessage, None)
  end end end end.

(** The deferred calls of [HandleRequest], last registered first: the send
    on [quitChannel], then [cleanUp].  The channel is unbuffered: the send
    completes when the goroutine receives the value in its [select]; once
    the goroutine has returned through its timeout case nobody receives,
    and the main path stays at the send.  [result] is the pair that the
    [return] statement has set. *)
Definition HandleRequest_deferred (ctx : Context) (dataDir : string)
  (result : string * error) : M (string * error) :=
  call CQuitSend tt ;;;
  match selected ctx with
  | case_quitChannel =>
      cleanUp ctx dataDir ;;;
      ret result
  | case_timeoutChannel =>
      call CBlockedOnQuit result
  end.

(** The value is the pair that the [return] statement sets.  The deferred
    calls run after it: the caller gets the pair when they complete, which
    they do unless the trace ends in [CBlockedOnQuit]. *)
Definition HandleRequest (ctx : Context) (event : ECRImageActionEvent) : M (string * error) :=
  let '(ctx, err) := validateEvent ctx event in
  match err with
  | Some _ => lambdaError ctx "ECRImageActionEvent validation error" err
  | None =>
  (* Get the SOCI index version from environment variable *)
  sociIndexVersion <- os_Getenv SociIndexVersion ;;
  log_Info ctx ("Using SOCI index version: " ++ sociIndexVersion) ;;;
  let repo := RepositoryName (Detail event) in
  let digest := ImageDigest (Detail event) in
  let registryUrl := buildEcrRegistryUrl event in
  let ctx := WithValue ctx RegistryURLKey registryUrl in
  err <- registryutils_Init ctx registryUrl ;;
  match err with
  | Some _ => lambdaError ctx "Remote registry initialization error" err
  | None =>
  err <- registry_ValidateImageDigest ctx repo digest sociIndexVersion ;;
  match err with
  | Some e =>
      log_Warn ctx ("Image manifest validation error: " ++ Error e) ;;;
      (* Returning a non error to skip retries *)
      ret ("Exited early due to manifest validation error", None)
  | None =>
  (* For V2, only convert images that have a tag and tag the newly
     generated image index; [None] stands for the early return. *)
  tag <- (if sociIndexVersion =? "V2" then
            match Value ctx ImageTagKey with
            | Some originalTag =>
                if originalTag =? "" then
                  log_Info ctx "Skipping SOCI index generation for V2 as image has no tag" ;;;
                  ret None
                else
                  let tag := (originalTag ++ "-soci")%string in
                  log_Info ctx ("Using original image tag with suffix: " ++ tag) ;;;
                  ret (Some tag)
            | None =>
                log_Info ctx "Skipping SOCI index generation for V2 as image has no tag" ;;;
                ret None
            end
          else ret (Some "")) ;;
  match tag with
  | None => ret ("Skipped SOCI index generation for V2 as image has no tag", None)
  | Some tag =>
  (* Directory in lambda storage to store images and SOCI artifacts *)
  '(dataDir, err) <- createTempDir ctx ;;
  match err with
  | Some _ => lambdaError ctx "Directory create error" err
  | None =>
  result <- HandleRequest_work ctx dataDir repo digest sociIndexVersion tag ;;
  HandleRequest_deferred ctx dataDir result
  end end end end end.

End Handler.

(* ================================================================== *)
(** ** The idempotency check of the registry session *)
(* ================================================================== *)

Definition triple_eqb (a b : string * string * string) : bool :=
  let '(a1, a2, a3) := a in
  let '(b1, b2, b3) := b in
  (a1 =? b1) && (a2 =? b2) && (a3 =? b3).

Definition ErrAlreadyProcessed : errval :=
  errors_New "already processed".

(** Modelled from the spec: [registry.ValidateImageDigest] of package
    [utils/registry], which is not part of the handler's file.  The spec
    (section 4.4): it "checks whether an index for this exact (repository,
    digest, version) combination already exists in the registry; if so,
    returns a benign already-processed signal".  [published] lists the
    combinations that have an index in the registry. *)
Definition ValidateImageDigest_spec (published : list (string * string * string))
  (repo digest version : string) : error :=
  if existsb (triple_eqb (repo, digest, version)) published
  then Some ErrAlreadyProcessed
  else None.

(* ================================================================== *)
(** ** Observations on traces *)
(* ================================================================== *)

Definition is_registry_init (c : Call) : bool :=
  match c with CRegistryInit _ => true | _ => false end.

Definition is_pull (c : Call) : bool :=
  match c with CPull _ _ _ => true | _ => false end.

Definition is_build (c : Call) : bool :=
  match c with CBuild _ _ | CConvert _ => true | _ => false end.

Definition is_push (c : Call) : bool :=
  match c with CPush _ _ _ _ => true | _ => false end.

Definition is_pull_build_push (c : Call) : bool :=
  is_pull c || is_build c || is_push c.

(** No call of the trace satisfies [p]. *)
Definition none_of (p : Call -> bool) (t : list Call) : bool :=
  forallb (fun c => negb (p c)) t.

(* ================================================================== *)
(** ** The validation rules as the specification words them *)
(* ================================================================== *)

Definition is_digit (c : ascii) : bool := Regexp.in_class Patterns.digit c.
Definition is_hex (c : ascii) : bool := Regexp.in_class Patterns.hex c.

(** "account id is exactly 12 digits" *)
Definition spec_account_ok (s : string) : bool :=
  (String.length s =? 12)%nat && forallb is_digit (list_ascii_of_string s).

(** The algorithm part of a digest. *)
Definition algorithm_re : Regexp.regex :=
  Regexp.Cat (Regexp.Cls Patterns.alpha)
 (Regexp.Cat (Regexp.Star (Regexp.Cls Patterns.alnum))
             (Regexp.Star (Regexp.Cat
                (Regexp.Cls [Patterns.one "-"; Patterns.one "_"; Patterns.one "+"; Patterns.one "."]%char)
                (Regexp.Cat (Regexp.Cls Patterns.alpha) (Regexp.Star (Regexp.Cls Patterns.alnum)))))).

(** "image digest matches <algorithm>:<hex> with the hex portion at least
    32 characters": the whole string has that shape. *)
Definition spec_digest_ok (s : string) : Prop :=
  exists alg h : list ascii,
    list_ascii_of_string s = alg ++ [":"%char] ++ h /\
    Regexp.matches algorithm_re alg /\
    forallb is_hex h = true /\
    (32 <= List.length h)%nat.

(** The violations [validateEvent] records for the account and the digest. *)
Definition account_violation : errval :=
  fmt_Errorf "the event's 'account' must be a valid AWS account ID".

Definition digest_violation : errval :=
  fmt_Errorf "the event's 'detail.image-digest' must be a valid image digest".

Definition source_violation : errval :=
  fmt_Errorf "the event's 'source' must be 'aws.ecr'".

(* ================================================================== *)
(** ** Auxiliary notions used to state the results *)
(* ================================================================== *)

(** The slice holding [e] when [b] holds, the empty slice otherwise. *)
Definition when (b : bool) (e : errval) : list errval :=
  if b then [e] else [].

(** Every character class of [r] lies within [P]. *)
Fixpoint within (P : ascii -> Prop) (r : Regexp.regex) : Prop :=
  match r with
  | Regexp.Void | Regexp.Eps => True
  | Regexp.Cls cl => forall c, Regexp.in_class cl c = true -> P c
  | Regexp.Cat r1 r2 | Regexp.Alt r1 r2 => within P r1 /\ within P r2
  | Regexp.Star r1 => within P r1
  end.

(** [s] holds a run of [n] characters of the class [p]. *)
Definition has_run (p : ascii -> bool) (n : nat) (s : string) : Prop :=
  exists pre run post : list ascii,
    list_ascii_of_string s = pre ++ run ++ post /\
    List.length run = n /\ forallb p run = true.

(** Orders by a key, to speak of [sort.Slice] with a [less] that compares
    keys. *)
Definition key_less {A : Type} (key : A -> Z) (a b : A) : bool := (key a <? key b)%Z.
Definition key_descending {A : Type} (key : A -> Z) (a b : A) : Prop := (key b <= key a)%Z.
Definition key_ascending {A : Type} (key : A -> Z) (a b : A) : Prop := (key a <= key b)%Z.

Definition is_alpha (c : ascii) : bool := Regexp.in_class Patterns.alpha c.
Definition is_alnum (c : ascii) : bool := Regexp.in_class Patterns.alnum c.

(** [s] holds, somewhere, an opening bracket or a letter, then letters and
    digits, a colon and 32 hex characters. *)
Definition holds_digest_match (s : string) : Prop :=
  exists (pre : list ascii) (c : ascii) (run h post : list ascii),
    list_ascii_of_string s = pre ++ [c] ++ run ++ [":"%char] ++ h ++ post /\
    (c = "["%char \/ is_alpha c = true) /\ forallb is_alnum run = true /\
    List.length h = 32%nat /\ forallb is_hex h = true.

(** [s] is [d] with something before and after it. *)
Definition surrounds (s d : string) : Prop :=
  exists pre post : string, s = (pre ++ d ++ post)%string.

(** [s] holds, somewhere, an algorithm, a colon and at least 32 hex
    characters. *)
Definition holds_digest (s : string) : Prop :=
  exists pre alg h post : list ascii,
    list_ascii_of_string s = pre ++ alg ++ [":"%char] ++ h ++ post /\
    Regexp.matches algorithm_re alg /\
    forallb is_hex h = true /\ (32 <= List.length h)%nat.

(** The calls of the goroutine's timeout case. *)
Definition timeout_calls (w : World) (dataDir : string) : list Call :=
  [CLog LInfo ("Removing all files in " ++ dataDir) None; CRemoveAll dataDir]
  ++ match w_RemoveAll w dataDir with
     | Some e => [CLog LError "Clean up error" (Some e)]
     | None => []
     end
  ++ [CLog LError "Invocation timeout error"
        (Some (fmt_Errorf "invocation timeout after 14 minutes and 50 seconds"))].

(* ================================================================== *)
(** ** Further observations on traces and inputs *)
(* ================================================================== *)

Definition is_remove_all (c : Call) : bool :=
  match c with CRemoveAll _ => true | _ => false end.

Definition is_quit_send (c : Call) : bool :=
  match c with CQuitSend => true | _ => false end.

Definition is_go_deadline (c : Call) : bool :=
  match c with CGoDeadline _ _ => true | _ => false end.

Definition is_mkdir_temp (c : Call) : bool :=
  match c with CMkdirTemp _ _ => true | _ => false end.

Definition is_check (c : Call) : bool :=
  match c with CValidateImageDigest _ _ _ => true | _ => false end.

Definition is_convert (c : Call) : bool :=
  match c with CConvert _ => true | _ => false end.

Definition is_legacy_build (c : Call) : bool :=
  match c with CBuild _ _ => true | _ => false end.

Definition is_database_query (c : Call) : bool :=
  match c with CGetIndexDescriptorCollection _ _ => true | _ => false end.

Definition is_warning (c : Call) : bool :=
  match c with CLog LWarn _ _ => true | _ => false end.

(** How many calls of the trace satisfy [p]. *)
Definition count_calls (p : Call -> bool) (t : list Call) : nat :=
  List.length (filter p t).

Definition is_lower_alnum (c : ascii) : bool := Regexp.in_class Patterns.lower_alnum c.

(** The first class of the tag pattern: a letter, a digit or an underscore. *)
Definition is_tag_start (c : ascii) : bool :=
  Regexp.in_class [("A", "Z"); ("a", "z"); ("0", "9"); Patterns.one "_"]%char c.

Definition is_blocked (c : Call) : bool :=
  match c with CBlockedOnQuit => true | _ => false end.

(** What the main path does once it has reached the deferred send. *)
Definition after_send (w : World) (ctx : Context) (dataDir : string) : list Call :=
  match selected w ctx with
  | case_quitChannel => snd (cleanUp w ctx dataDir)
  | case_timeoutChannel => [CBlockedOnQuit]
  end.

(** The invocation returns [r] to its caller: the [return] statement sets
    [r] and no deferred call blocks. *)
Definition returns (run : M (string * error)) (r : string * error) : Prop :=
  fst run = r /\ forall c, In c (snd run) -> is_blocked c = false.

(** The invocation never returns: its main path stays at the deferred
    send. *)
Definition never_returns (run : M (string * error)) : Prop :=
  In CBlockedOnQuit (snd run).

(** How an invocation that has reached its deferred calls ends: it returns
    [r] when the goroutine takes its quit case, and never returns when the
    goroutine has taken its timeout case. *)
Definition ends_with (w : World) (ctx : Context) (run : M (string * error))
  (r : string * error) : Prop :=
  (selected w ctx = case_quitChannel -> returns run r)
  /\ (selected w ctx = case_timeoutChannel -> never_returns run).

(** The same world with the deferred send reached at another instant. *)
Definition with_QuitAt (w : World) (t : Time) : World :=
  {| w_Getenv := w_Getenv w;
     w_RegistryInit := w_RegistryInit w;
     w_ValidateImageDigest := w_ValidateImageDigest w;
     w_CalculateFreeSpace := w_CalculateFreeSpace w;
     w_MkdirTemp := w_MkdirTemp w;
     w_RemoveAll := w_RemoveAll w;
     w_Now := w_Now w;
     w_OciNew := w_OciNew w;
     w_Pull := w_Pull w;
     w_NewDB := w_NewDB w;
     w_NewStore := w_NewStore w;
     w_NewIndexBuilder := w_NewIndexBuilder w;
     w_DefaultSpec := w_DefaultSpec w;
     w_Convert := w_Convert w;
     w_Build := w_Build w;
     w_GetIndexDescriptorCollection := w_GetIndexDescriptorCollection w;
     w_Push := w_Push w;
     w_QuitAt := t;
     w_Select := w_Select w;
     w_SortOrder := w_SortOrder w |}.

(** The same world with another order for [sort.Slice]. *)
Definition with_SortOrder (w : World) (order : list nat) : World :=
  {| w_Getenv := w_Getenv w;
     w_RegistryInit := w_RegistryInit w;
     w_ValidateImageDigest := w_ValidateImageDigest w;
     w_CalculateFreeSpace := w_CalculateFreeSpace w;
     w_MkdirTemp := w_MkdirTemp w;
     w_RemoveAll := w_RemoveAll w;
     w_Now := w_Now w;
     w_OciNew := w_OciNew w;
     w_Pull := w_Pull w;
     w_NewDB := w_NewDB w;
     w_NewStore := w_NewStore w;
     w_NewIndexBuilder := w_NewIndexBuilder w;
     w_DefaultSpec := w_DefaultSpec w;
     w_Convert := w_Convert w;
     w_Build := w_Build w;
     w_GetIndexDescriptorCollection := w_GetIndexDescriptorCollection w;
     w_Push := w_Push w;
     w_QuitAt := w_QuitAt w;
     w_Select := w_Select w;
     w_SortOrder := order |}.

(** The same world with another answer to [os.RemoveAll]. *)
Definition with_RemoveAll (w : World) (answer : string -> error) : World :=
  {| w_Getenv := w_Getenv w;
     w_RegistryInit := w_RegistryInit w;
     w_ValidateImageDigest := w_ValidateImageDigest w;
     w_CalculateFreeSpace := w_CalculateFreeSpace w;
     w_MkdirTemp := w_MkdirTemp w;
     w_RemoveAll := answer;
     w_Now := w_Now w;
     w_OciNew := w_OciNew w;
     w_Pull := w_Pull w;
     w_NewDB := w_NewDB w;
     w_NewStore := w_NewStore w;
     w_NewIndexBuilder := w_NewIndexBuilder w;
     w_DefaultSpec := w_DefaultSpec w;
     w_Convert := w_Convert w;
     w_Build := w_Build w;
     w_GetIndexDescriptorCollection := w_GetIndexDescriptorCollection w;
     w_Push := w_Push w;
     w_QuitAt := w_QuitAt w;
     w_Select := w_Select w;
     w_SortOrder := w_SortOrder w |}.

(** The messages [HandleRequest] returns beside a nil error ... *)
Definition quiet_messages : list string :=
  [ "Exited early due to manifest validation error";
    "Skipped SOCI index generation for V2 as image has no tag";
    SkipPushOnEmptyIndexMessage;
    BuildAndPushSuccessMessage ].

(** ... and the labels it returns beside a non-nil one. *)
Definition failure_messages : list string :=
  [ "ECRImageActionEvent validation error";
    "Remote registry initialization error";
    "Directory create error";
    "OCI storage initialization error";
    "Image pull error";
    BuildFailedMessage;
    PushFailedMessage ].

(** The violations [validateEvent] records for the repository name and the
    tag. *)
Definition repository_violation : errval :=
  fmt_Errorf "the event's 'detail.repository-name' must be a valid repository name".

Definition tag_violation : errval :=
  fmt_Errorf "the event's 'detail.image-tag' must be empty or a valid image tag".

(** The calls every invocation makes between a validation that passed and
    the V2 tag gate. *)
Definition prologue (w : World) (ev : ECRImageActionEvent) : list Call :=
  [ CGetenv SociIndexVersion;
    CLog LInfo ("Using SOCI index version: " ++ w_Getenv w SociIndexVersion) None;
    CRegistryInit (buildEcrRegistryUrl ev);
    CValidateImageDigest (RepositoryName (Detail ev)) (ImageDigest (Detail ev))
      (w_Getenv w SociIndexVersion) ].

(** The tag the V2 gate lets through, with the record it logs; the legacy
    strategy pushes without a tag and logs nothing here. *)
Definition gate_passes (w : World) (ctx' : Context) (tag : string) (logged : list Call) : Prop :=
  ((w_Getenv w SociIndexVersion =? "V2") = false /\ tag = "" /\ logged = [])
  \/ ((w_Getenv w SociIndexVersion =? "V2") = true /\
      exists t, Value ctx' ImageTagKey = Some t /\ (t =? "") = false /\
                tag = (t ++ "-soci")%string /\
                logged = [CLog LInfo ("Using original image tag with suffix: " ++ tag) None]).

(** The calls only the work phase of [HandleRequest] makes. *)
Definition is_work_call (c : Call) : bool :=
  match c with
  | CGoDeadline _ _ | COciNew _ | CPull _ _ _ | CNewDB _ | CNewStore _
  | CNewIndexBuilder | CConvert _ | CBuild _ _ | CGetIndexDescriptorCollection _ _
  | CPush _ _ _ _ | CPrintf _ => true
  | _ => false
  end.

(** The same event from another region. *)
Definition with_Region (ev : ECRImageActionEvent) (region : string) : ECRImageActionEvent :=
  {| Source := Source ev; Account := Account ev; DetailType := DetailType ev;
     Region := region; Detail := Detail ev |}.

(** What a call outside the work phase is not. *)
Definition plain (c : Call) : Prop :=
  is_work_call c = false /\ is_remove_all c = false /\ is_quit_send c = false
  /\ is_go_deadline c = false /\ is_pull_build_push c = false.

(** The same world with another amount of free space. *)
Definition with_FreeSpace (w : World) (space : string -> Z) : World :=
  {| w_Getenv := w_Getenv w;
     w_RegistryInit := w_RegistryInit w;
     w_ValidateImageDigest := w_ValidateImageDigest w;
     w_CalculateFreeSpace := space;
     w_MkdirTemp := w_MkdirTemp w;
     w_RemoveAll := w_RemoveAll w;
     w_Now := w_Now w;
     w_OciNew := w_OciNew w;
     w_Pull := w_Pull w;
     w_NewDB := w_NewDB w;
     w_NewStore := w_NewStore w;
     w_NewIndexBuilder := w_NewIndexBuilder w;
     w_DefaultSpec := w_DefaultSpec w;
     w_Convert := w_Convert w;
     w_Build := w_Build w;
     w_GetIndexDescriptorCollection := w_GetIndexDescriptorCollection w;
     w_Push := w_Push w;
     w_QuitAt := w_QuitAt w;
     w_Select := w_Select w;
     w_SortOrder := w_SortOrder w |}.

(* ================================================================== *)
(** ** The repository-name parsing function of the deployment template *)
(* ================================================================== *)

(** The inline Python handler of [RepositoryNameParsingLambda] in
    [templates/SociIndexBuilder.yml].  CloudFormation hands it the
    comma-delimited filters parameter as a list of strings, for which no
    statement of its [try] block raises; the partition, region and account
    are what the template substitutes into [REPO_PREFIX]. *)
Module RepositoryNameParsing.

(** [filter.split(':')[0]]: the text before the first colon. *)
Fixpoint split_colon_head (s : string) : string :=
  match s with
  | EmptyString => EmptyString
  | String c rest =>
      if Ascii.eqb c ":" then EmptyString else String c (split_colon_head rest)
  end.

Definition REPO_PREFIX (partition region account : string) : string :=
  "arn:" ++ partition ++ ":ecr:" ++ region ++ ":" ++ account ++ ":repository/".

(** The [for] loop, from the repositories still to visit and the list built
    so far; the wildcard replaces the list and breaks out. *)
Fixpoint arns_loop (prefix : string) (repositories repository_arns : list string)
  : list string :=
  match repositories with
  | [] => repository_arns
  | repository :: rest =>
      if repository =? "*"
      then [(prefix ++ "*")%string]
      else arns_loop prefix rest (repository_arns ++ [(prefix ++ repository)%string])
  end.

Inductive cfn_status : Type := SUCCESS | FAILED.

(** What [handler] sends: the status and the response dictionary. *)
Definition handler (partition region account : string) (filters : list string)
  : cfn_status * list (string * list string) :=
  let prefix := REPO_PREFIX partition region account in
  let repository_arns : list string := [] in
  let repositories := map split_colon_head filters in
  let repository_arns := arns_loop prefix repositories repository_arns in
  (SUCCESS, [("repository_arns", repository_arns)]).

End RepositoryNameParsing.

(** No character of [s] is a colon. *)
Fixpoint colon_free (s : string) : bool :=
  match s with
  | EmptyString => true
  | String c rest => negb (Ascii.eqb c ":") && colon_free rest
  end.

(* ================================================================== *)
(** ** Sample inputs *)
(* ================================================================== *)

Module Samples.

Definition hex32 : string := "0123456789abcdef0123456789abcdef".
Definition hex31 : string := "0123456789abcdef0123456789abcde".

Definition detail (digest tag : string) : ECRImageActionEventDetail :=
  {| ActionType := "PUSH"; Result := "SUCCESS"; RepositoryName := "myrepo";
     ImageDigest := digest; ImageTag := tag |}.

(** A well-formed push notification for [myrepo@sha256:<64 hex>], tag
    [latest]. *)
Definition event : ECRImageActionEvent :=
  {| Source := "aws.ecr"; Account := "123456789012";
     DetailType := "ECR Image Action"; Region := "us-east-1";
     Detail := detail ("sha256:" ++ hex32 ++ hex32) "latest" |}.

Definition with_source (src : string) : ECRImageActionEvent :=
  {| Source := src; Account := Account event; DetailType := DetailType event;
     Region := Region event; Detail := Detail event |}.

Definition with_account (acct : string) : ECRImageActionEvent :=
  {| Source := Source event; Account := acct; DetailType := DetailType event;
     Region := Region event; Detail := Detail event |}.

Definition with_digest (digest : string) : ECRImageActionEvent :=
  {| Source := Source event; Account := Account event; DetailType := DetailType event;
     Region := Region event; Detail := detail digest "latest" |}.

Definition with_tag (tag : string) : ECRImageActionEvent :=
  {| Source := Source event; Account := Account event; DetailType := DetailType event;
     Region := Region event; Detail := detail ("sha256:" ++ hex32 ++ hex32) tag |}.

(** The context the Lambda runtime hands over: no handler key is bound, the
    deadline is 900 s after the epoch. *)
Definition ctx : Context :=
  {| ctx_values := []; ctx_deadline := Some (900 * Second)%Z; ctx_AwsRequestID := "req-1" |}.

Definition image_desc : ocispec_Descriptor :=
  {| MediaType := "application/vnd.oci.image.manifest.v1+json"; Digest := "sha256:aa"; Size := 100 |}.

Definition index_old : ocispec_Descriptor :=
  {| MediaType := "application/vnd.oci.image.manifest.v1+json"; Digest := "sha256:01"; Size := 10 |}.

Definition index_new : ocispec_Descriptor :=
  {| MediaType := "application/vnd.oci.image.manifest.v1+json"; Digest := "sha256:02"; Size := 20 |}.

(** Two build records of one image, the newer one listed first. *)
Definition records : list IndexDescriptorInfo :=
  [ {| Descriptor := index_new; CreatedAt := 200%Z |};
    {| Descriptor := index_old; CreatedAt := 100%Z |} ].

(** A world in which every collaborator succeeds; [version] is the value of
    the environment variable, [check] the answer of the idempotency check
    and [build] the answer of the builder's [Build]. *)
Definition world (version : string) (check : string -> string -> string -> error)
  (build : res ocispec_Descriptor) : World :=
  {| w_Getenv := fun _ => version;
     w_RegistryInit := fun _ => None;
     w_ValidateImageDigest := check;
     w_CalculateFreeSpace := fun _ => 10000000000%Z;
     w_MkdirTemp := fun dir pattern => ((dir ++ "/" ++ pattern ++ "0001")%string, None);
     w_RemoveAll := fun _ => None;
     w_Now := 0%Z;
     w_OciNew := fun _ => None;
     w_Pull := fun _ _ _ => Ok image_desc;
     w_NewDB := fun _ => None;
     w_NewStore := fun _ => None;
     w_NewIndexBuilder := None;
     w_DefaultSpec := "linux/amd64";
     w_Convert := fun _ => Ok index_new;
     w_Build := fun _ _ => build;
     w_GetIndexDescriptorCollection := fun _ _ => Ok records;
     w_Push := fun _ _ _ _ => None;
     w_QuitAt := (5 * Second)%Z;
     w_Select := case_quitChannel;
     w_SortOrder := [] |}.

Definition no_check : string -> string -> string -> error := fun _ _ _ => None.

End Samples.

(** Worlds for the failure scenarios: every answer that can fail is a
    parameter; free space, clock and platform are those of [Samples.world]. *)
Module Scenarios.

Definition world (version : string) (init mkdir remove oci : error)
  (pull : res ocispec_Descriptor) (newdb : error)
  (build convert : res ocispec_Descriptor)
  (records : res (list IndexDescriptorInfo)) (push : error) : World :=
  {| w_Getenv := fun _ => version;
     w_RegistryInit := fun _ => init;
     w_ValidateImageDigest := fun _ _ _ => None;
     w_CalculateFreeSpace := fun _ => 10000000000%Z;
     w_MkdirTemp := fun dir pattern => ((dir ++ "/" ++ pattern ++ "0001")%string, mkdir);
     w_RemoveAll := fun _ => remove;
     w_Now := 0%Z;
     w_OciNew := fun _ => oci;
     w_Pull := fun _ _ _ => pull;
     w_NewDB := fun _ => newdb;
     w_NewStore := fun _ => None;
     w_NewIndexBuilder := None;
     w_DefaultSpec := "linux/amd64";
     w_Convert := fun _ => convert;
     w_Build := fun _ _ => build;
     w_GetIndexDescriptorCollection := fun _ _ => records;
     w_Push := fun _ _ _ _ => push;
     w_QuitAt := (5 * Second)%Z;
     w_Select := case_quitChannel;
     w_SortOrder := [] |}.

Definition boom : errval := errors_New "connection reset by peer".

(** Everything succeeds. *)
Definition fine (version : string) : World :=
  world version None None None None (Ok Samples.image_desc) None
    (Ok Samples.index_old) (Ok Samples.index_new) (Ok Samples.records) None.

End Scenarios.

(* ================================================================== *)
(** * Facts about the matcher *)
(* ================================================================== *)

Module RegexpFacts.
Import Regexp.

Lemma matches_Void_inv s : matches Void s -> False.
Proof. intros H; inversion H. Qed.

Lemma matches_Eps_inv s : matches Eps s -> s = [].
Proof. intros H; inversion H; reflexivity. Qed.

Lemma matches_Cls_inv cl s :
  matches (Cls cl) s -> exists c, s = [c] /\ in_class cl c = true.
Proof. intros H; inversion H; subst; eauto. Qed.

Lemma matches_Cat_inv r1 r2 s :
  matches (Cat r1 r2) s ->
  exists s1 s2, s = s1 ++ s2 /\ matches r1 s1 /\ matches r2 s2.
Proof. intros H; inversion H; subst; eauto. Qed.

Lemma matches_Alt_inv r1 r2 s :
  matches (Alt r1 r2) s -> matches r1 s \/ matches r2 s.
Proof. intros H; inversion H; subst; auto. Qed.

(** A non-empty match of [r*] starts with a non-empty match of [r]. *)
Lemma matches_Star_cons_inv r c s :
  matches (Star r) (c :: s) ->
  exists s1 s2, s = s1 ++ s2 /\ matches r (c :: s1) /\ matches (Star r) s2.
Proof.
  intros H.
  remember (Star r) as r' eqn:Er.
  remember (c :: s) as cs eqn:Es.
  revert c s Es.
  induction H; intros c0 s0 Es; try discriminate.
  inversion Er; subst r0; clear Er.
  destruct s1 as [|a s1'].
  - simpl in Es. apply IHmatches2; auto.
  - simpl in Es. inversion Es; subst. exists s1', s2. auto.
Qed.

Lemma nullable_matches r : nullable r = true <-> matches r [].
Proof.
  induction r; simpl.
  - split; [discriminate | intros H; inversion H].
  - split; [constructor | reflexivity].
  - split; [discriminate | intros H; inversion H].
  - rewrite andb_true_iff, IHr1, IHr2. split.
    + intros [H1 H2]. change (@nil ascii) with (@nil ascii ++ []). constructor; assumption.
    + intros H. apply matches_Cat_inv in H as (s1 & s2 & E & H1 & H2).
      symmetry in E. apply app_eq_nil in E as [-> ->]. auto.
  - rewrite orb_true_iff, IHr1, IHr2. split.
    + intros [H|H]; [apply MAltL | apply MAltR]; assumption.
    + apply matches_Alt_inv.
  - split; [constructor | reflexivity].
Qed.

Lemma cat'_matches r1 r2 s : matches (cat' r1 r2) s <-> matches (Cat r1 r2) s.
Proof.
  split; intros H.
  - destruct r1; destruct r2; simpl in H;
      try assumption; try (inversion H; fail);
      change s with ([] ++ s); constructor; first [assumption | constructor].
  - apply matches_Cat_inv in H as (s1 & s2 & -> & H1 & H2).
    destruct r1; destruct r2; simpl;
      try (inversion H1; fail); try (inversion H2; fail);
      try (apply matches_Eps_inv in H1; subst; simpl; assumption);
      constructor; assumption.
Qed.

Lemma alt'_matches r1 r2 s : matches (alt' r1 r2) s <-> matches (Alt r1 r2) s.
Proof.
  split; intros H.
  - destruct r1; destruct r2; simpl in H;
      try assumption;
      try (apply MAltL; assumption); try (apply MAltR; assumption).
  - apply matches_Alt_inv in H as [H|H];
      destruct r1; destruct r2; simpl;
      try (inversion H; fail); try assumption;
      try (apply MAltL; assumption); try (apply MAltR; assumption).
Qed.

Lemma deriv_matches c r : forall s, matches (deriv c r) s <-> matches r (c :: s).
Proof.
  induction r; intros s; simpl.
  - split; intros H; inversion H.
  - split; intros H; inversion H.
  - destruct (in_class c0 c) eqn:E; split; intros H.
    + apply matches_Eps_inv in H; subst. constructor; assumption.
    + inversion H; subst. constructor.
    + inversion H.
    + inversion H; subst. congruence.
  - assert (Hcat : matches (cat' (deriv c r1) r2) s <->
                   exists s1 s2, s = s1 ++ s2 /\ matches r1 (c :: s1) /\ matches r2 s2).
    { rewrite cat'_matches. split.
      - intros H. apply matches_Cat_inv in H as (s1 & s2 & -> & H1 & H2).
        exists s1, s2. rewrite <- IHr1. auto.
      - intros (s1 & s2 & -> & H1 & H2). constructor; [apply IHr1|]; assumption. }
    assert (Hsplit : matches (Cat r1 r2) (c :: s) <->
                     (exists s1 s2, s = s1 ++ s2 /\ matches r1 (c :: s1) /\ matches r2 s2)
                     \/ (matches r1 [] /\ matches r2 (c :: s))).
    { split.
      - intros H. apply matches_Cat_inv in H as (s1 & s2 & E & H1 & H2).
        destruct s1 as [|a s1']; simpl in E.
        + right. subst s2. auto.
        + inversion E; subst. left. eauto.
      - intros [(s1 & s2 & -> & H1 & H2) | [H1 H2]].
        + change (c :: s1 ++ s2) with ((c :: s1) ++ s2). constructor; assumption.
        + change (c :: s) with ([] ++ c :: s). constructor; assumption. }
    rewrite Hsplit.
    destruct (nullable r1) eqn:N.
    + rewrite alt'_matches. split.
      * intros H. apply matches_Alt_inv in H as [H|H].
        -- left. apply Hcat. assumption.
        -- right. split; [apply nullable_matches; assumption | apply IHr2; assumption].
      * intros [H|[_ H]].
        -- apply MAltL. apply Hcat. assumption.
        -- apply MAltR. apply IHr2. assumption.
    + rewrite Hcat. split; [tauto|].
      intros [H|[H _]]; [assumption|].
      apply nullable_matches in H. congruence.
  - rewrite alt'_matches. split; intros H.
    + apply matches_Alt_inv in H as [H|H]; [apply MAltL; apply IHr1 | apply MAltR; apply IHr2]; assumption.
    + apply matches_Alt_inv in H as [H|H]; [apply MAltL; apply IHr1 | apply MAltR; apply IHr2]; assumption.
  - rewrite cat'_matches. split; intros H.
    + apply matches_Cat_inv in H as (s1 & s2 & -> & H1 & H2).
      change (c :: s1 ++ s2) with ((c :: s1) ++ s2).
      constructor; [apply IHr|]; assumption.
    + apply matches_Star_cons_inv in H as (s1 & s2 & -> & H1 & H2).
      constructor; [apply IHr|]; assumption.
Qed.

(** [match_prefix] finds exactly the strings with a matching prefix. *)
Lemma match_prefix_spec s : forall r,
  match_prefix r s = true <-> exists p rest, s = p ++ rest /\ matches r p.
Proof.
  induction s as [|c s IH]; intros r; simpl.
  - rewrite orb_false_r, nullable_matches. split.
    + intros H. exists [], []. auto.
    + intros (p & rest & E & H). symmetry in E. apply app_eq_nil in E as [-> _]. assumption.
  - rewrite orb_true_iff, nullable_matches, IH. split.
    + intros [H | (p & rest & -> & H)].
      * exists [], (c :: s). auto.
      * exists (c :: p), rest. split; [reflexivity|]. apply deriv_matches. assumption.
    + intros (p & rest & E & H). destruct p as [|a p]; simpl in E.
      * left. assumption.
      * inversion E; subst. right. exists p, rest. split; [reflexivity|].
        apply deriv_matches. assumption.
Qed.

(** [search] finds exactly the strings with a matching substring. *)
Lemma search_spec r s :
  search r s = true <-> exists pre p post, s = pre ++ p ++ post /\ matches r p.
Proof.
  induction s as [|c s IH].
  - unfold search. rewrite orb_false_r, match_prefix_spec. split.
    + intros (p & rest & E & H). exists [], p, rest. auto.
    + intros (pre & p & post & E & H).
      symmetry in E. apply app_eq_nil in E as [-> E]. eauto.
  - change (search r (c :: s)) with (match_prefix r (c :: s) || search r s).
    rewrite orb_true_iff, IH, match_prefix_spec. split.
    + intros [(p & rest & E & H) | (pre & p & post & -> & H)].
      * exists [], p, rest. auto.
      * exists (c :: pre), p, post. auto.
    + intros (pre & p & post & E & H). destruct pre as [|a pre]; simpl in E.
      * left. eauto.
      * inversion E; subst. right. eauto.
Qed.

End RegexpFacts.

(* ================================================================== *)
(** * The languages of the handler's patterns *)
(* ================================================================== *)

Module PatternFacts.
Import Regexp RegexpFacts Patterns.

Lemma matches_within P r s : within P r -> matches r s -> Forall P s.
Proof.
  intros W H. induction H; simpl in W.
  - constructor.
  - constructor; [auto | constructor].
  - apply Forall_app. split; [apply IHmatches1 | apply IHmatches2]; tauto.
  - apply IHmatches; tauto.
  - apply IHmatches; tauto.
  - constructor.
  - apply Forall_app. split; [apply IHmatches1 | apply IHmatches2]; assumption.
Qed.

(** [[c]{n}] matches exactly the words of [n] characters of the class. *)
Lemma matches_rep_exact cl n : forall s,
  matches (rep_exact n (Cls cl)) s <->
  List.length s = n /\ forallb (in_class cl) s = true.
Proof.
  induction n as [|n IH]; intros s; simpl.
  - split.
    + intros H. apply matches_Eps_inv in H. subst. auto.
    + intros [L _]. destruct s; [constructor | discriminate].
  - split.
    + intros H. apply matches_Cat_inv in H as (s1 & s2 & -> & H1 & H2).
      apply matches_Cls_inv in H1 as (c & -> & Hc).
      apply IH in H2 as [L F]. simpl. rewrite Hc, F, L. auto.
    + intros [L F]. destruct s as [|c s]; [discriminate|].
      simpl in L, F. apply andb_true_iff in F as [Hc F].
      change (c :: s) with ([c] ++ s). constructor.
      * constructor. assumption.
      * apply IH. split; [lia | assumption].
Qed.

(** [[c]*] matches exactly the words over the class. *)
Lemma matches_star_cls cl s :
  matches (Star (Cls cl)) s <-> forallb (in_class cl) s = true.
Proof.
  split.
  - intros H. apply forallb_forall. intros c Hin.
    apply (matches_within (fun c => in_class cl c = true)) in H.
    + rewrite Forall_forall in H. auto.
    + simpl. auto.
  - induction s as [|c s IH]; simpl; intros F.
    + constructor.
    + apply andb_true_iff in F as [Hc F].
      change (c :: s) with ([c] ++ s). constructor; [constructor|]; auto.
Qed.

(** [[c]{n,}] matches exactly the words of at least [n] characters of the
    class. *)
Lemma matches_rep_at_least cl n s :
  matches (rep_at_least n (Cls cl)) s <->
  (n <= List.length s)%nat /\ forallb (in_class cl) s = true.
Proof.
  unfold rep_at_least. split.
  - intros H. apply matches_Cat_inv in H as (s1 & s2 & -> & H1 & H2).
    apply matches_rep_exact in H1 as [L F1]. apply matches_star_cls in H2.
    rewrite length_app, forallb_app, F1, H2. split; [lia | reflexivity].
  - intros [L F]. rewrite <- (firstn_skipn n s) in F |- *.
    rewrite forallb_app in F. apply andb_true_iff in F as [F1 F2].
    constructor.
    + apply matches_rep_exact. split; [|assumption].
      rewrite firstn_length_le; lia.
    + apply matches_star_cls. assumption.
Qed.

(** The account pattern finds a run of twelve digits, anywhere. *)
Lemma account_re_search (s : string) :
  MatchString account_re s = true <-> has_run is_digit 12 s.
Proof.
  unfold MatchString, has_run, account_re. rewrite search_spec.
  split; intros (pre & p & post & E & H); exists pre, p, post; (split; [exact E|]).
  - apply matches_rep_exact in H. exact H.
  - apply matches_rep_exact. exact H.
Qed.

(** The digest pattern matches an algorithm, a colon and at least 32 hex
    characters. *)
Lemma digest_re_matches_grammar alg h :
  matches algorithm_re alg -> forallb is_hex h = true -> (32 <= List.length h)%nat ->
  matches digest_re (alg ++ [":"%char] ++ h).
Proof.
  intros Ha Fh Lh. unfold algorithm_re in Ha.
  apply matches_Cat_inv in Ha as (a1 & r1 & -> & H1 & Ha).
  apply matches_Cat_inv in Ha as (a2 & a3 & -> & H2 & H3).
  unfold digest_re. rewrite <- !app_assoc.
  constructor.
  { apply matches_Cls_inv in H1 as (c & -> & Hc). constructor.
    unfold in_class in *. simpl in *. rewrite Hc. apply orb_true_r. }
  constructor; [assumption|].
  constructor; [assumption|].
  constructor.
  { constructor. reflexivity. }
  apply matches_rep_at_least. auto.
Qed.

(** Whatever the digest pattern matches holds a colon, something before it
    and 32 hex characters right after it. *)
Lemma digest_re_matches_inv p :
  matches digest_re p ->
  exists a h rest, p = a ++ [":"%char] ++ h ++ rest /\ a <> [] /\
                   List.length h = 32%nat /\ forallb is_hex h = true.
Proof.
  unfold digest_re. intros H.
  apply matches_Cat_inv in H as (a1 & r1 & -> & H1 & H).
  apply matches_Cat_inv in H as (a2 & r2 & -> & H2 & H).
  apply matches_Cat_inv in H as (a3 & r3 & -> & H3 & H).
  apply matches_Cat_inv in H as (co & r4 & -> & H4 & H).
  unfold rep_at_least in H.
  apply matches_Cat_inv in H as (h & rest & -> & H5 & H6).
  apply matches_Cls_inv in H1 as (c & -> & _).
  apply matches_Cls_inv in H4 as (c' & -> & Hc').
  assert (c' = ":"%char) as ->.
  { unfold in_class, in_range in Hc'. simpl in Hc'.
    rewrite orb_false_r in Hc'. apply andb_true_iff in Hc' as [A B].
    apply N.leb_le in A, B.
    rewrite <- (ascii_N_embedding c'), <- (ascii_N_embedding ":"%char).
    f_equal. simpl in *. lia. }
  apply matches_rep_exact in H5 as [L F].
  exists ([c] ++ a2 ++ a3), h, rest. repeat split.
  - rewrite <- !app_assoc. reflexivity.
  - discriminate.
  - assumption.
  - assumption.
Qed.

Lemma algorithm_has_no_colon alg :
  matches algorithm_re alg -> ~ In ":"%char alg.
Proof.
  intros H Hin.
  apply (matches_within (fun c => c <> ":"%char)) in H.
  - rewrite Forall_forall in H. apply (H _ Hin). reflexivity.
  - unfold algorithm_re; simpl; repeat split; intros c Hc ->; vm_compute in Hc; discriminate.
Qed.

Lemma hex_has_no_colon h : forallb is_hex h = true -> ~ In ":"%char h.
Proof.
  intros F Hin. rewrite forallb_forall in F. apply F in Hin.
  vm_compute in Hin. discriminate.
Qed.

(** A list holding [x] once splits around [x] in one way only. *)
Lemma split_at_unique {A : Type} (x : A) (l1 r1 l2 r2 : list A) :
  l1 ++ x :: r1 = l2 ++ x :: r2 -> ~ In x l1 -> ~ In x r1 -> l1 = l2 /\ r1 = r2.
Proof.
  revert l2. induction l1 as [|a l1 IH]; intros l2 E N1 Nr; destruct l2 as [|b l2]; simpl in E.
  - inversion E. auto.
  - inversion E; subst. exfalso. apply Nr. apply in_or_app. right. left. reflexivity.
  - inversion E; subst. exfalso. apply N1. left. reflexivity.
  - inversion E; subst. destruct (IH l2 H1) as [-> ->]; auto.
    intros Hin. apply N1. right. assumption.
Qed.

(** On strings of the shape [<algorithm>:<hex>] the digest pattern counts
    the hex characters: it finds a match iff there are at least 32. *)
Lemma digest_re_on_grammar (s : string) alg h :
  list_ascii_of_string s = alg ++ [":"%char] ++ h ->
  matches algorithm_re alg -> forallb is_hex h = true ->
  (MatchString digest_re s = true <-> (32 <= List.length h)%nat).
Proof.
  intros E Ha Fh. unfold MatchString. rewrite search_spec. split.
  - intros (pre & p & post & E' & H).
    apply digest_re_matches_inv in H as (a & h' & rest & -> & _ & L & _).
    rewrite E in E'. rewrite <- !app_assoc in E'. simpl in E'.
    rewrite app_assoc in E'.
    apply split_at_unique in E' as [_ Eh].
    + rewrite Eh, !length_app. lia.
    + apply algorithm_has_no_colon. assumption.
    + apply hex_has_no_colon. assumption.
  - intros L. exists [], (alg ++ [":"%char] ++ h), [].
    rewrite app_nil_r. split; [exact E|].
    apply digest_re_matches_grammar; assumption.
Qed.

Lemma MatchString_false_iff r s P :
  (MatchString r s = true <-> P) -> (MatchString r s = false <-> ~ P).
Proof.
  intros H. destruct (MatchString r s).
  - split; [discriminate|]. intros N. exfalso. apply N. apply H. reflexivity.
  - split; [|reflexivity]. intros _ HP. apply H in HP. discriminate.
Qed.

Lemma spec_account_ok_run s : spec_account_ok s = true -> has_run is_digit 12 s.
Proof.
  unfold spec_account_ok. intros H. apply andb_true_iff in H as [L F].
  apply Nat.eqb_eq in L.
  exists [], (list_ascii_of_string s), []. rewrite app_nil_r. repeat split.
  - rewrite <- L. clear. induction s; simpl; congruence.
  - exact F.
Qed.

Lemma digest_re_search_grammar s :
  holds_digest s -> MatchString digest_re s = true.
Proof.
  intros (pre & alg & h & post & E & Ha & F & L).
  unfold MatchString. rewrite search_spec.
  exists pre, (alg ++ [":"%char] ++ h), post. split.
  - rewrite E, <- !app_assoc. reflexivity.
  - apply digest_re_matches_grammar; assumption.
Qed.

Lemma algorithm_starts_with_letter alg :
  matches algorithm_re alg -> exists c rest, alg = c :: rest /\ in_class alpha c = true.
Proof.
  unfold algorithm_re. intros H.
  apply matches_Cat_inv in H as (a1 & r1 & -> & H1 & _).
  apply matches_Cls_inv in H1 as (c & -> & Hc). exists c, r1. auto.
Qed.

Lemma sha256_is_algorithm : matches algorithm_re (list_ascii_of_string "sha256").
Proof.
  unfold algorithm_re.
  change (list_ascii_of_string "sha256")
    with (["s"%char] ++ list_ascii_of_string "ha256" ++ []).
  constructor; [constructor; reflexivity|].
  constructor; [apply matches_star_cls; reflexivity | constructor].
Qed.
End PatternFacts.

(* ================================================================== *)
(** * Facts about [validateEvent] *)
(* ================================================================== *)

Module ValidateFacts.

Lemma ite_append (b : bool) E e : (if b then append E e else E) = E ++ when b e.
Proof. destruct b; simpl; [reflexivity | now rewrite app_nil_r]. Qed.

Lemma In_when e b e' : In e (when b e') <-> b = true /\ e' = e.
Proof. destruct b; simpl; intuition discriminate. Qed.

(** [validateEvent_collect] in closed form: the bindings of the checked
    fields on top of the incoming context, and one optional entry per rule,
    in the order of the source. *)
Lemma validateEvent_collect_eq ctx ev :
  validateEvent_collect ctx ev =
  (let ctx := if Regexp.MatchString Patterns.repository_re (RepositoryName (Detail ev))
              then WithValue ctx RepositoryNameKey (RepositoryName (Detail ev)) else ctx in
   let ctx := if Regexp.MatchString Patterns.digest_re (ImageDigest (Detail ev))
              then WithValue ctx ImageDigestKey (ImageDigest (Detail ev)) else ctx in
   if negb (ImageTag (Detail ev) =? "")
      && Regexp.MatchString Patterns.tag_re (ImageTag (Detail ev))
   then WithValue ctx ImageTagKey (ImageTag (Detail ev)) else ctx,
    when (negb (Source ev =? "aws.ecr")) source_violation
 ++ when (Account ev =? "") (fmt_Errorf "the event's 'account' must not be empty")
 ++ when (negb (DetailType ev =? "ECR Image Action"))
      (fmt_Errorf "the event's 'detail-type' must be 'ECR Image Action'")
 ++ when (negb (ActionType (Detail ev) =? "PUSH"))
      (fmt_Errorf "the event's 'detail.action-type' must be 'PUSH'")
 ++ when (negb (Result (Detail ev) =? "SUCCESS"))
      (fmt_Errorf "the event's 'detail.result' must be 'SUCCESS'")
 ++ when (RepositoryName (Detail ev) =? "")
      (fmt_Errorf "the event's 'detail.repository-name' must not be empty")
 ++ when (ImageDigest (Detail ev) =? "")
      (fmt_Errorf "the event's 'detail.image-digest' must not be empty")
 ++ when (negb (Regexp.MatchString Patterns.account_re (Account ev))) account_violation
 ++ when (negb (Regexp.MatchString Patterns.repository_re (RepositoryName (Detail ev))))
      (fmt_Errorf "the event's 'detail.repository-name' must be a valid repository name")
 ++ when (negb (Regexp.MatchString Patterns.digest_re (ImageDigest (Detail ev)))) digest_violation
 ++ when (negb (ImageTag (Detail ev) =? "")
          && negb (Regexp.MatchString Patterns.tag_re (ImageTag (Detail ev))))
      (fmt_Errorf "the event's 'detail.image-tag' must be empty or a valid image tag")).
Proof.
  unfold validateEvent_collect, regexp_MatchString, append_if_err.
  rewrite !ite_append.
  generalize (Regexp.MatchString Patterns.repository_re (RepositoryName (Detail ev))).
  generalize (Regexp.MatchString Patterns.digest_re (ImageDigest (Detail ev))).
  generalize (Regexp.MatchString Patterns.tag_re (ImageTag (Detail ev))).
  generalize (negb (ImageTag (Detail ev) =? "")).
  intros [] [] [] []; cbn [negb andb when]; unfold append;
  rewrite <- ?app_assoc, ?app_nil_r; reflexivity.
Qed.

Lemma validateEvent_fst ctx ev :
  fst (validateEvent ctx ev) = fst (validateEvent_collect ctx ev).
Proof.
  unfold validateEvent. destruct (validateEvent_collect ctx ev) as [c [|e l]]; reflexivity.
Qed.

Lemma validateEvent_snd ctx ev :
  snd (validateEvent ctx ev) = hd_error (snd (validateEvent_collect ctx ev)).
Proof.
  unfold validateEvent. destruct (validateEvent_collect ctx ev) as [c [|e l]]; reflexivity.
Qed.

Lemma in_skip e b e' r : e' <> e -> (In e (when b e' ++ r) <-> In e r).
Proof.
  intros N. rewrite in_app_iff, In_when. tauto.
Qed.

Lemma in_last_skip e b e' : e' <> e -> (In e (when b e') <-> False).
Proof.
  intros N. rewrite In_when. tauto.
Qed.

Lemma in_here e b r : ~ In e r -> (In e (when b e ++ r) <-> b = true).
Proof.
  intros N. rewrite in_app_iff, In_when. tauto.
Qed.

(** The account violation is recorded exactly when the account pattern finds
    no match. *)
Lemma account_violation_iff ctx ev :
  In account_violation (snd (validateEvent_collect ctx ev)) <->
  Regexp.MatchString Patterns.account_re (Account ev) = false.
Proof.
  rewrite validateEvent_collect_eq. cbn [snd].
  unfold account_violation, digest_violation, source_violation.
  rewrite !in_skip by discriminate.
  rewrite in_here, negb_true_iff; [tauto|].
  rewrite !in_skip by discriminate.
  rewrite in_last_skip by discriminate. tauto.
Qed.

(** The digest violation is recorded exactly when the digest pattern finds
    no match. *)
Lemma digest_violation_iff ctx ev :
  In digest_violation (snd (validateEvent_collect ctx ev)) <->
  Regexp.MatchString Patterns.digest_re (ImageDigest (Detail ev)) = false.
Proof.
  rewrite validateEvent_collect_eq. cbn [snd].
  unfold account_violation, digest_violation, source_violation.
  rewrite !in_skip by discriminate.
  rewrite in_here, negb_true_iff; [tauto|].
  rewrite in_last_skip by discriminate. tauto.
Qed.

(** A recorded violation makes validation fail. *)
Lemma violation_fails ctx ev e :
  In e (snd (validateEvent_collect ctx ev)) -> snd (validateEvent ctx ev) <> None.
Proof.
  rewrite validateEvent_snd. destruct (snd (validateEvent_collect ctx ev)); simpl.
  - tauto.
  - discriminate.
Qed.

(** A wrong source is the first violation recorded. *)
Lemma source_violation_first ctx ev :
  Source ev <> "aws.ecr" ->
  exists rest, snd (validateEvent_collect ctx ev) = source_violation :: rest.
Proof.
  intros N. rewrite validateEvent_collect_eq. cbn [snd].
  apply String.eqb_neq in N. rewrite N. cbn [negb when app]. eauto.
Qed.

(** After a validation that passed, the tag bound in the context is the
    event's tag when it has one, and the incoming binding otherwise. *)
Lemma validated_tag ctx ev :
  snd (validateEvent ctx ev) = None ->
  Value (fst (validateEvent ctx ev)) ImageTagKey =
    if ImageTag (Detail ev) =? "" then Value ctx ImageTagKey
    else Some (ImageTag (Detail ev)).
Proof.
  rewrite validateEvent_snd, validateEvent_fst, validateEvent_collect_eq. cbn [fst snd].
  generalize (Regexp.MatchString Patterns.repository_re (RepositoryName (Detail ev))).
  generalize (Regexp.MatchString Patterns.digest_re (ImageDigest (Detail ev))).
  generalize (Regexp.MatchString Patterns.tag_re (ImageTag (Detail ev))).
  generalize (Regexp.MatchString Patterns.account_re (Account ev)).
  intros va vt vd vr H.
  destruct (ImageTag (Detail ev) =? ""); destruct vt; cbn [negb andb] in *.
  - destruct vr, vd; reflexivity.
  - destruct vr, vd; reflexivity.
  - reflexivity.
  - exfalso.
    assert (E : forall l : list errval, hd_error l = None -> l = [])
      by (intros [|x l]; [reflexivity | discriminate]).
    apply E in H.
    repeat (apply app_eq_nil in H; destruct H as [_ H]).
    discriminate H.
Qed.

End ValidateFacts.

(* ================================================================== *)
(** * Facts about [sort.Slice] *)
(* ================================================================== *)

Module SortFacts.

Section ByKey.

Context {A : Type}.
Variable key : A -> Z.

Local Notation "'less'" := (key_less key) (only parsing).
Local Notation "'descending'" := (key_descending key) (only parsing).
Local Notation "'ascending'" := (key_ascending key) (only parsing).

Lemma insert_left_perm x l : Permutation (x :: l) (insert_left less x l).
Proof.
  induction l as [|y l IH]; simpl.
  - reflexivity.
  - destruct (less x y).
    + rewrite perm_swap. constructor. exact IH.
    + reflexivity.
Qed.

Lemma insert_left_sorted x l :
  StronglySorted descending l -> StronglySorted descending (insert_left less x l).
Proof.
  induction 1 as [|y l Hs IH Hy]; simpl.
  - constructor; constructor.
  - destruct (less x y) eqn:E; unfold key_less in E.
    + apply Z.ltb_lt in E. constructor; [exact IH|].
      rewrite <- insert_left_perm. constructor; [unfold key_descending; lia | exact Hy].
    + apply Z.ltb_ge in E. constructor.
      * constructor; assumption.
      * constructor; [exact E|].
        eapply Forall_impl; [|exact Hy]. unfold key_descending. intros a Ha. lia.
Qed.

Lemma fold_insert_perm s : forall acc,
  Permutation (rev s ++ acc)
    (fold_left (fun sorted_rev x => insert_left less x sorted_rev) s acc).
Proof.
  induction s as [|x s IH]; intros acc; simpl.
  - reflexivity.
  - rewrite <- IH, <- app_assoc. simpl.
    apply Permutation_app_head. apply insert_left_perm.
Qed.

Lemma fold_insert_sorted s : forall acc,
  StronglySorted descending acc ->
  StronglySorted descending
    (fold_left (fun sorted_rev x => insert_left less x sorted_rev) s acc).
Proof.
  induction s as [|x s IH]; intros acc H; simpl.
  - exact H.
  - apply IH. apply insert_left_sorted. exact H.
Qed.

Lemma rev_sorted l : StronglySorted descending l -> StronglySorted ascending (rev l).
Proof.
  induction 1 as [|y l Hs IH Hy]; simpl.
  - constructor.
  - clear Hs. assert (Hy' : Forall (fun a => ascending a y) (rev l)).
    { apply Forall_rev. exact Hy. }
    clear Hy. induction IH as [|z r Hr IHr Hz]; simpl.
    + constructor; constructor.
    + inversion Hy'; subst. constructor.
      * apply IHr. assumption.
      * apply Forall_app. split; [exact Hz|]. constructor; [assumption | constructor].
Qed.

(** The insertion sort returns a permutation of its argument ... *)
Lemma insertionSort_perm s : Permutation s (insertionSortLessFunc less s).
Proof.
  unfold insertionSortLessFunc. rewrite <- Permutation_rev.
  rewrite <- fold_insert_perm, app_nil_r. apply Permutation_rev.
Qed.

(** ... in ascending order of the key. *)
Lemma insertionSort_sorted s : StronglySorted ascending (insertionSortLessFunc less s).
Proof.
  unfold insertionSortLessFunc. apply rev_sorted. apply fold_insert_sorted. constructor.
Qed.

(** Taking an element out of a list leaves a permutation. *)
Lemma taken_out_perm (s : list A) i d :
  (i < List.length s)%nat ->
  Permutation s (nth i s d :: firstn i s ++ skipn (S i) s).
Proof.
  revert i. induction s as [|x s IH]; intros i L; simpl in L; [lia|].
  destruct i as [|i]; simpl.
  - reflexivity.
  - rewrite perm_swap. constructor. apply IH. lia.
Qed.

Lemma picked_perm picks : forall s : list A, Permutation s (picked picks s).
Proof.
  induction picks as [|pick picks IH]; intros s; simpl.
  - reflexivity.
  - destruct s as [|x s]; [reflexivity|].
    set (i := (pick mod List.length (x :: s))%nat).
    assert (L : (i < List.length (x :: s))%nat)
      by (apply Nat.mod_upper_bound; discriminate).
    rewrite (taken_out_perm (x :: s) i x L) at 1.
    constructor. apply IH.
Qed.

(** [sort.Slice] returns a permutation of its argument ... *)
Lemma sort_Slice_perm w s : Permutation s (sort_Slice w less s).
Proof.
  unfold sort_Slice. destruct (List.length s <=? 12)%nat.
  - apply insertionSort_perm.
  - rewrite <- insertionSort_perm. apply picked_perm.
Qed.

(** ... in ascending order of the key. *)
Lemma sort_Slice_sorted w s : StronglySorted ascending (sort_Slice w less s).
Proof.
  unfold sort_Slice. destruct (List.length s <=? 12)%nat; apply insertionSort_sorted.
Qed.

(** Up to twelve elements are sorted by the insertion sort as it stands. *)
Lemma sort_Slice_short w s :
  (List.length s <= 12)%nat -> sort_Slice w less s = insertionSortLessFunc less s.
Proof.
  intros L. unfold sort_Slice. apply Nat.leb_le in L. rewrite L. reflexivity.
Qed.

(** The last element of a non-empty ascending list is a greatest one. *)
Lemma last_of_sorted l d :
  l <> [] -> StronglySorted ascending l ->
  In (last l d) l /\ forall a, In a l -> (key a <= key (last l d))%Z.
Proof.
  intros N H. induction H as [|x l Hs IH Hx]; [contradiction|].
  destruct l as [|y l'].
  - simpl. split; [auto|]. intros a [<- | []]. lia.
  - assert (Ny : y :: l' <> []) by discriminate.
    destruct (IH Ny) as [Hin Hmax].
    change (last (x :: y :: l') d) with (last (y :: l') d).
    split; [right; exact Hin|].
    intros a [<- | Ha]; [|auto].
    rewrite Forall_forall in Hx. apply Hx. exact Hin.
Qed.

(** The element [sort.Slice] leaves last is one of the slice, and none has
    a greater key. *)
Lemma sort_Slice_last w s d :
  s <> [] ->
  In (last (sort_Slice w less s) d) s /\
  forall a, In a s -> (key a <= key (last (sort_Slice w less s) d))%Z.
Proof.
  intros N.
  assert (N' : sort_Slice w less s <> []).
  { intros E. apply N. apply Permutation_nil. rewrite <- E. symmetry. apply sort_Slice_perm. }
  destruct (last_of_sorted _ d N' (sort_Slice_sorted w s)) as [Hin Hmax].
  split.
  - eapply Permutation_in; [symmetry; apply sort_Slice_perm | exact Hin].
  - intros a Ha. apply Hmax. eapply Permutation_in; [apply sort_Slice_perm | exact Ha].
Qed.

(** The insertion sort leaves a sorted slice as it is. *)
Lemma fold_insert_sorted_input (s : list A) : forall acc,
  StronglySorted (key_ascending key) (rev acc ++ s) ->
  fold_left (fun sorted_rev x => insert_left (key_less key) x sorted_rev) s acc = rev s ++ acc.
Proof.
  induction s as [|x s IH]; intros acc H; simpl.
  - reflexivity.
  - assert (E : insert_left (key_less key) x acc = x :: acc).
    { destruct acc as [|y rest]; [reflexivity|]. simpl.
      assert (Hy : (key y <= key x)%Z).
      { simpl in H. rewrite <- app_assoc in H. simpl in H.
        clear - H. induction (rev rest) as [|z l IHl]; simpl in H.
        - inversion H as [|? ? _ Hall]; subst. inversion Hall; subst. assumption.
        - inversion H; subst. auto. }
      unfold key_less. destruct (key x <? key y)%Z eqn:Lt; [|reflexivity].
      apply Z.ltb_lt in Lt. lia. }
    rewrite E, IH.
    + rewrite <- app_assoc. reflexivity.
    + simpl. rewrite <- app_assoc. exact H.
Qed.

Lemma insertionSort_sorted_input (s : list A) :
  StronglySorted (key_ascending key) s -> insertionSortLessFunc (key_less key) s = s.
Proof.
  intros H. unfold insertionSortLessFunc.
  rewrite (fold_insert_sorted_input s []) by exact H.
  rewrite app_nil_r. apply rev_involutive.
Qed.

(** Every order of the elements is the order of some picks. *)
Lemma picked_any (l' : list A) : forall s,
  Permutation s l' -> exists picks, picked picks s = l'.
Proof.
  induction l' as [|x l' IH]; intros s P.
  - apply Permutation_sym, Permutation_nil in P. subst s. exists []. reflexivity.
  - assert (Hin : In x s) by (eapply Permutation_in; [symmetry; exact P | left; reflexivity]).
    destruct s as [|d s0]; [contradiction|].
    destruct (In_nth _ _ d Hin) as (i & L & E).
    set (s := d :: s0) in *.
    assert (P' : Permutation (firstn i s ++ skipn (S i) s) l').
    { apply (Permutation_cons_inv (a := x)).
      rewrite <- P, <- E. symmetry. apply (taken_out_perm s i d L). }
    destruct (IH _ P') as (picks & Ep).
    exists (i :: picks). unfold s at 1. cbn [picked]. fold s.
    rewrite (Nat.mod_small i (List.length s) L), E, Ep. reflexivity.
Qed.

(** Above twelve elements [sort.Slice] can come out as any ordering of the
    slice by the key: the model leaves out none that Go's promise allows. *)
Lemma sort_Slice_covers w (s l' : list A) :
  (12 < List.length s)%nat ->
  Permutation s l' -> StronglySorted (key_ascending key) l' ->
  exists order,
    sort_Slice (with_SortOrder w order) (key_less key) s = l'.
Proof.
  intros L P H. destruct (picked_any l' s P) as (picks & E).
  exists picks. unfold sort_Slice.
  replace (List.length s <=? 12)%nat with false by (symmetry; apply Nat.leb_gt; exact L).
  cbn [w_SortOrder with_SortOrder]. rewrite E. apply insertionSort_sorted_input. exact H.
Qed.

End ByKey.

End SortFacts.


(* ================================================================== *)
(** * Facts about the pipeline *)
(* ================================================================== *)

Module HandlerFacts.
Import ValidateFacts.

Lemma fst_bind {A B} (m : M A) (k : A -> M B) : fst (bind m k) = fst (k (fst m)).
Proof. unfold bind. destruct m as [a t]. simpl. destruct (k a). reflexivity. Qed.

Lemma snd_bind {A B} (m : M A) (k : A -> M B) :
  snd (bind m k) = snd m ++ snd (k (fst m)).
Proof. unfold bind. destruct m as [a t]. simpl. destruct (k a). reflexivity. Qed.

Lemma none_of_app p t1 t2 : none_of p (t1 ++ t2) = none_of p t1 && none_of p t2.
Proof. unfold none_of. apply forallb_app. Qed.

Lemma none_of_In p t : none_of p t = true <-> forall c, In c t -> p c = false.
Proof.
  unfold none_of. rewrite forallb_forall. split; intros H c Hin.
  - apply negb_true_iff. auto.
  - apply negb_true_iff. auto.
Qed.

(** A failed validation ends the invocation at once: one log record, and the
    violation is handed back. *)
Lemma HandleRequest_invalid w ctx ev e :
  snd (validateEvent ctx ev) = Some e ->
  HandleRequest w ctx ev =
    (("ECRImageActionEvent validation error", Some e),
     [CLog LError "ECRImageActionEvent validation error" (Some e)]).
Proof.
  intros H. unfold HandleRequest.
  destruct (validateEvent ctx ev) as [ctx' err]. simpl in H. subst err.
  reflexivity.
Qed.

(** Whatever error the pre-build check returns, the invocation ends there. *)
Lemma HandleRequest_check_failed w ctx ev e :
  snd (validateEvent ctx ev) = None ->
  w_RegistryInit w (buildEcrRegistryUrl ev) = None ->
  w_ValidateImageDigest w (RepositoryName (Detail ev)) (ImageDigest (Detail ev))
    (w_Getenv w SociIndexVersion) = Some e ->
  HandleRequest w ctx ev =
    (("Exited early due to manifest validation error", None),
     [CGetenv SociIndexVersion;
      CLog LInfo ("Using SOCI index version: " ++ w_Getenv w SociIndexVersion) None;
      CRegistryInit (buildEcrRegistryUrl ev);
      CValidateImageDigest (RepositoryName (Detail ev)) (ImageDigest (Detail ev))
        (w_Getenv w SociIndexVersion);
      CLog LWarn ("Image manifest validation error: " ++ Error e) None]).
Proof.
  intros H Hi Hc. unfold HandleRequest.
  destruct (validateEvent ctx ev) as [ctx' err]. simpl in H. subst err.
  cbn [bind os_Getenv call log_Info registryutils_Init ret app].
  rewrite Hi.
  cbn [bind os_Getenv call log_Info registryutils_Init registry_ValidateImageDigest ret app].
  rewrite Hc. reflexivity.
Qed.

Lemma ValidateImageDigest_spec_hit published repo digest version :
  In (repo, digest, version) published ->
  ValidateImageDigest_spec published repo digest version = Some ErrAlreadyProcessed.
Proof.
  intros Hin. unfold ValidateImageDigest_spec.
  replace (existsb _ published) with true; [reflexivity|].
  symmetry. apply existsb_exists. exists (repo, digest, version). split; [assumption|].
  simpl. rewrite !String.eqb_refl. reflexivity.
Qed.

(** A wrapped build error never reads like [ErrEmptyIndex]. *)
Lemma wrapped_build_error_differs e :
  (Error (fmt_Errorf_w "failed to build SOCI index: " e) =? Error ErrEmptyIndex) = false.
Proof. reflexivity. Qed.


Ltac unfold_stages :=
  unfold HandleRequest_work, buildIndex, createTempDir, cleanUp,
    initSociStore, initSociArtifactsDb, initContainerdStore,
    registry_Pull, registry_Push, registryutils_Init, registry_ValidateImageDigest,
    os_Getenv, os_MkdirTemp, os_RemoveAll, fs_CalculateFreeSpace,
    lambdaError, setDeadline, log_Info, log_Warn, log_Error, fmt_Printf.

Ltac case_answers :=
  repeat (cbn [bind call ret app fst snd];
          match goal with
          | |- context [match ?x with _ => _ end] =>
              lazymatch x with
              | context [match _ with _ => _ end] => fail
              | _ => destruct x eqn:?
              end
          end);
  cbn [bind call ret app fst snd].

(** Every push of the work phase goes to [repo] under [tag]. *)
Lemma HandleRequest_work_pushes w ctx dataDir repo digest ver tag c :
  In c (snd (HandleRequest_work w ctx dataDir repo digest ver tag)) ->
  is_push c = true ->
  exists store desc, c = CPush store desc repo tag.
Proof.
  unfold_stages.
  case_answers; cbn [In];
    intros Hin Hp; repeat destruct Hin as [<- | Hin]; try discriminate Hp;
    try contradiction; eauto.
Qed.

(** The work phase reports success only after a push. *)
Lemma HandleRequest_work_success w ctx dataDir repo digest ver tag :
  fst (fst (HandleRequest_work w ctx dataDir repo digest ver tag)) = BuildAndPushSuccessMessage ->
  exists store desc,
    In (CPush store desc repo tag) (snd (HandleRequest_work w ctx dataDir repo digest ver tag)).
Proof.
  unfold_stages.
  case_answers; cbn [In];
    intros Hs; try discriminate Hs;
    do 2 eexists; repeat (first [left; reflexivity | right]).
Qed.

Lemma createTempDir_no_push w ctx c :
  In c (snd (createTempDir w ctx)) -> is_push c = false.
Proof.
  unfold_stages. case_answers; cbn [In]; intros Hin;
    repeat destruct Hin as [<- | Hin]; try reflexivity; contradiction.
Qed.

Lemma cleanUp_no_push w ctx dir c :
  In c (snd (cleanUp w ctx dir)) -> is_push c = false.
Proof.
  unfold_stages. case_answers; cbn [In]; intros Hin;
    repeat destruct Hin as [<- | Hin]; try reflexivity; contradiction.
Qed.

Lemma Value_skips_url ctx url :
  Value (WithValue ctx RegistryURLKey url) ImageTagKey = Value ctx ImageTagKey.
Proof. reflexivity. Qed.

(** The deferred calls hand on the result and make the send and what
    follows it. *)
Lemma deferred_calls w ctx dataDir result :
  HandleRequest_deferred w ctx dataDir result
  = (result, CQuitSend :: after_send w ctx dataDir).
Proof.
  unfold HandleRequest_deferred, after_send.
  destruct (selected w ctx); [reflexivity|].
  unfold cleanUp, os_RemoveAll, log_Info, log_Error. cbn [bind call ret app fst snd].
  destruct (w_RemoveAll w dataDir); reflexivity.
Qed.

Lemma after_send_no_push w ctx dir c :
  In c (after_send w ctx dir) -> is_push c = false.
Proof.
  unfold after_send. destruct (selected w ctx).
  - intros [<- | []]. reflexivity.
  - apply cleanUp_no_push.
Qed.

Ltac walk :=
  repeat first
    [ rewrite snd_bind
    | rewrite fst_bind
    | rewrite deferred_calls
    | progress cbn [fst snd call ret os_Getenv log_Info log_Warn registryutils_Init
                    registry_ValidateImageDigest lambdaError log_Error app] ].

Ltac in_cases Hin :=
  repeat first
    [ apply in_app_or in Hin; destruct Hin as [Hin | Hin]
    | destruct Hin as [<- | Hin] ].

Lemma HandleRequest_V2_pushes w ctx ev t c :
  w_Getenv w SociIndexVersion = "V2" ->
  snd (validateEvent ctx ev) = None ->
  Value (fst (validateEvent ctx ev)) ImageTagKey = Some t ->
  In c (snd (HandleRequest w ctx ev)) -> is_push c = true ->
  exists store desc, c = CPush store desc (RepositoryName (Detail ev)) (t ++ "-soci").
Proof.
  intros Hv H Ht. unfold HandleRequest.
  destruct (validateEvent ctx ev) as [ctx' err]. cbn [fst snd] in H, Ht. subst err.
  walk. rewrite Hv.
  destruct (w_RegistryInit w _); walk.
  { intros Hin Hp. in_cases Hin; try discriminate Hp; contradiction. }
  destruct (w_ValidateImageDigest w _ _ _); walk.
  { intros Hin Hp. in_cases Hin; try discriminate Hp; contradiction. }
  rewrite Value_skips_url, Ht. cbn [String.eqb Ascii.eqb Bool.eqb].
  destruct (t =? ""); walk.
  { intros Hin Hp. in_cases Hin; try discriminate Hp; contradiction. }
  destruct (createTempDir w _) as [[dataDir [e|]] tr] eqn:Etmp; walk.
  - intros Hin Hp. in_cases Hin; try discriminate Hp; try contradiction.
    assert (is_push c = false) by (eapply createTempDir_no_push; rewrite Etmp; exact Hin).
    congruence.
  - intros Hin Hp. in_cases Hin; try discriminate Hp; try contradiction.
    + assert (is_push c = false) by (eapply createTempDir_no_push; rewrite Etmp; exact Hin).
      congruence.
    + eapply HandleRequest_work_pushes; eassumption.
    + apply after_send_no_push in Hin. congruence.
Qed.

(** The legacy branch of [buildIndex], once the builder and the database
    have answered. *)
Lemma buildIndex_V1 w ctx dataDir store image ver built records :
  (ver =? "V2") = false ->
  w_NewDB w (path_Join dataDir artifactsDbName) = None ->
  w_NewStore w (path_Join dataDir artifactsStoreName) = None ->
  w_NewIndexBuilder w = None ->
  w_Build w image (w_DefaultSpec w) = Ok built ->
  w_GetIndexDescriptorCollection w image (w_DefaultSpec w) = Ok records ->
  fst (buildIndex w ctx dataDir store image ver) =
    match records with
    | [] => Fail (errors_New "no SOCI indices found in OCI store")
    | first :: _ => Ok (Descriptor (last (sort_Slice w created_before records) first))
    end.
Proof.
  intros Hv Hdb Hst Hb Hbuild Hget.
  unfold buildIndex, initSociArtifactsDb, initContainerdStore, log_Info, fmt_Printf.
  cbn [bind call ret fst snd]. rewrite Hdb. cbn [bind call ret fst snd].
  rewrite Hst. cbn [bind call ret fst snd]. rewrite Hb, Hv.
  cbn [bind call ret fst snd]. rewrite Hbuild. cbn [bind call ret fst snd].
  rewrite Hget. destruct records; reflexivity.
Qed.

Lemma validateEvent_request_id ctx ev :
  ctx_AwsRequestID (fst (validateEvent ctx ev)) = ctx_AwsRequestID ctx.
Proof.
  rewrite validateEvent_fst, validateEvent_collect_eq. cbn [fst].
  generalize (Regexp.MatchString Patterns.repository_re (RepositoryName (Detail ev))).
  generalize (Regexp.MatchString Patterns.digest_re (ImageDigest (Detail ev))).
  generalize (Regexp.MatchString Patterns.tag_re (ImageTag (Detail ev))).
  generalize (negb (ImageTag (Detail ev) =? "")).
  intros [] [] [] []; reflexivity.
Qed.

Lemma createTempDir_fst w ctx :
  fst (createTempDir w ctx) = w_MkdirTemp w "/tmp" (ctx_AwsRequestID ctx).
Proof.
  unfold createTempDir. rewrite !fst_bind. reflexivity.
Qed.

Lemma createTempDir_quiet w ctx c :
  In c (snd (createTempDir w ctx)) -> is_pull_build_push c = false.
Proof.
  unfold_stages. case_answers; cbn [In]; intros Hin;
    repeat destruct Hin as [<- | Hin]; try reflexivity; contradiction.
Qed.

Lemma cleanUp_quiet w ctx dir c :
  In c (snd (cleanUp w ctx dir)) -> is_pull_build_push c = false.
Proof.
  unfold_stages. case_answers; cbn [In]; intros Hin;
    repeat destruct Hin as [<- | Hin]; try reflexivity; contradiction.
Qed.

Lemma after_send_quiet w ctx dir c :
  In c (after_send w ctx dir) -> is_pull_build_push c = false.
Proof.
  unfold after_send. destruct (selected w ctx).
  - intros [<- | []]. reflexivity.
  - apply cleanUp_quiet.
Qed.

(** Once validation, the registry session and the pre-build check have
    passed and the directory exists, the [return] statement sets what the
    work phase returns, and the invocation pulls, builds and pushes what the
    work phase does;
    [tag] is empty for the legacy strategy and the validated tag with its
    suffix for V2. *)
Lemma HandleRequest_reaches_work w ctx ev tag dataDir :
  snd (validateEvent ctx ev) = None ->
  w_RegistryInit w (buildEcrRegistryUrl ev) = None ->
  w_ValidateImageDigest w (RepositoryName (Detail ev)) (ImageDigest (Detail ev))
    (w_Getenv w SociIndexVersion) = None ->
  ((w_Getenv w SociIndexVersion =? "V2") = false /\ tag = ""
   \/ (w_Getenv w SociIndexVersion =? "V2") = true /\
      exists t, Value (fst (validateEvent ctx ev)) ImageTagKey = Some t /\
                (t =? "") = false /\ tag = (t ++ "-soci")%string) ->
  w_MkdirTemp w "/tmp" (ctx_AwsRequestID ctx) = (dataDir, None) ->
  let work := HandleRequest_work w
                (WithValue (fst (validateEvent ctx ev)) RegistryURLKey (buildEcrRegistryUrl ev))
                dataDir (RepositoryName (Detail ev)) (ImageDigest (Detail ev))
                (w_Getenv w SociIndexVersion) tag in
  fst (HandleRequest w ctx ev) = fst work /\
  forall c, is_pull_build_push c = true ->
            (In c (snd (HandleRequest w ctx ev)) <-> In c (snd work)).
Proof.
  intros H Hi Hc Ht Hd. pose proof (validateEvent_request_id ctx ev) as Hid.
  unfold HandleRequest.
  destruct (validateEvent ctx ev) as [ctx' err]. cbn [fst snd] in *. subst err.
  set (ctx1 := WithValue ctx' RegistryURLKey (buildEcrRegistryUrl ev)).
  assert (Etmp : fst (createTempDir w ctx1) = (dataDir, None)).
  { rewrite createTempDir_fst. subst ctx1. cbn [ctx_AwsRequestID WithValue].
    rewrite Hid. exact Hd. }
  assert (Htag : exists pre,
    (forall c, In c pre -> is_pull_build_push c = false) /\
    (if w_Getenv w SociIndexVersion =? "V2"
     then match Value ctx1 ImageTagKey with
          | Some originalTag =>
              if originalTag =? ""
              then (log_Info ctx1 "Skipping SOCI index generation for V2 as image has no tag";;;
                    ret None)%go
              else (log_Info ctx1 ("Using original image tag with suffix: " ++ originalTag ++ "-soci");;;
                    ret (Some (originalTag ++ "-soci")%string))%go
          | None => (log_Info ctx1 "Skipping SOCI index generation for V2 as image has no tag";;;
                     ret None)%go
          end
     else ret (Some "")) = (Some tag, pre)).
  { subst ctx1. rewrite Value_skips_url.
    destruct Ht as [[-> ->] | [-> (t & -> & -> & ->)]].
    - exists []. split; [intros c []|reflexivity].
    - eexists. split; [|reflexivity].
      intros c [<- | []]. reflexivity. }
  destruct Htag as (pre & Hpre & Etag).
  walk. rewrite Hi. walk. rewrite Hc. walk.
  rewrite Etag. cbn [fst snd]. walk.
  destruct (createTempDir w ctx1) as [[d e] tr] eqn:E. cbn [fst] in Etmp.
  inversion Etmp; subst d e. cbn [fst snd]. walk.
  split; [reflexivity|].
  intros c Hp. split.
  - intros Hin. in_cases Hin; try discriminate Hp; try contradiction.
    + apply Hpre in Hin. congruence.
    + assert (is_pull_build_push c = false)
        by (apply (createTempDir_quiet w ctx1); rewrite E; exact Hin).
      congruence.
    + exact Hin.
    + apply after_send_quiet in Hin. congruence.
  - intros Hin. do 4 right. apply in_or_app. right. apply in_or_app. right.
    apply in_or_app. left. exact Hin.
Qed.

(** The work phase when the builder's [Build] fails: the error comes back
    wrapped, under the build-failure message, and nothing is pushed. *)
Lemma HandleRequest_work_build_failed w ctx dataDir repo digest ver tag desc e :
  (ver =? "V2") = false ->
  w_OciNew w (path_Join dataDir artifactsStoreName) = None ->
  w_Pull w repo (path_Join dataDir artifactsStoreName) digest = Ok desc ->
  w_NewDB w (path_Join dataDir artifactsDbName) = None ->
  w_NewStore w (path_Join dataDir artifactsStoreName) = None ->
  w_NewIndexBuilder w = None ->
  w_Build w {| Name := repo ++ "@" ++ digest; Target := desc |} (w_DefaultSpec w) = Fail e ->
  fst (HandleRequest_work w ctx dataDir repo digest ver tag)
    = (BuildFailedMessage, Some (fmt_Errorf_w "failed to build SOCI index: " e))
  /\ forall c, In c (snd (HandleRequest_work w ctx dataDir repo digest ver tag)) ->
               is_push c = false.
Proof.
  intros Hv Ho Hp Hdb Hst Hb Hbuild.
  unfold_stages. cbn [bind call ret app fst snd].
  rewrite Ho. cbn [bind call ret app fst snd].
  rewrite Hp. cbn [bind call ret app fst snd].
  rewrite Hdb. cbn [bind call ret app fst snd].
  rewrite Hst. cbn [bind call ret app fst snd].
  rewrite Hb, Hv. cbn [bind call ret app fst snd].
  rewrite Hbuild. cbn [bind call ret app fst snd].
  rewrite wrapped_build_error_differs. cbn [bind call ret app fst snd].
  split; [reflexivity|].
  intros c Hin. cbn [In] in Hin.
  repeat destruct Hin as [<- | Hin]; try reflexivity; contradiction.
Qed.

(** V2 without a tag in the context: the invocation stops before the
    directory is created. *)
Lemma HandleRequest_V2_no_tag w ctx ev :
  w_Getenv w SociIndexVersion = "V2" ->
  snd (validateEvent ctx ev) = None ->
  w_RegistryInit w (buildEcrRegistryUrl ev) = None ->
  w_ValidateImageDigest w (RepositoryName (Detail ev)) (ImageDigest (Detail ev))
    (w_Getenv w SociIndexVersion) = None ->
  (Value (fst (validateEvent ctx ev)) ImageTagKey = None \/
   Value (fst (validateEvent ctx ev)) ImageTagKey = Some "") ->
  HandleRequest w ctx ev =
    (("Skipped SOCI index generation for V2 as image has no tag", None),
     [CGetenv SociIndexVersion;
      CLog LInfo "Using SOCI index version: V2" None;
      CRegistryInit (buildEcrRegistryUrl ev);
      CValidateImageDigest (RepositoryName (Detail ev)) (ImageDigest (Detail ev)) "V2";
      CLog LInfo "Skipping SOCI index generation for V2 as image has no tag" None]).
Proof.
  intros Hv H Hi Hc Ht. unfold HandleRequest.
  destruct (validateEvent ctx ev) as [ctx' err]. cbn [fst snd] in *. subst err.
  cbn [bind os_Getenv call log_Info registryutils_Init registry_ValidateImageDigest ret app].
  rewrite Hi.
  cbn [bind os_Getenv call log_Info registryutils_Init registry_ValidateImageDigest ret app].
  rewrite Hc, Hv. rewrite Value_skips_url.
  destruct Ht as [-> | ->]; reflexivity.
Qed.

(** V2 with a tag: a successful invocation has pushed under the derived
    tag. *)
Lemma HandleRequest_V2_success w ctx ev t :
  w_Getenv w SociIndexVersion = "V2" ->
  snd (validateEvent ctx ev) = None ->
  Value (fst (validateEvent ctx ev)) ImageTagKey = Some t ->
  fst (fst (HandleRequest w ctx ev)) = BuildAndPushSuccessMessage ->
  exists store desc,
    In (CPush store desc (RepositoryName (Detail ev)) (t ++ "-soci"))
       (snd (HandleRequest w ctx ev)).
Proof.
  intros Hv H Ht. unfold HandleRequest.
  destruct (validateEvent ctx ev) as [ctx' err]. cbn [fst snd] in H, Ht. subst err.
  walk. rewrite Hv.
  destruct (w_RegistryInit w _); walk; [discriminate|].
  destruct (w_ValidateImageDigest w _ _ _); walk; [discriminate|].
  rewrite Value_skips_url, Ht. cbn [String.eqb Ascii.eqb Bool.eqb].
  destruct (t =? ""); walk; [discriminate|].
  destruct (createTempDir w _) as [[dataDir [e|]] tr] eqn:Etmp; walk; [discriminate|].
  intros Hs. apply HandleRequest_work_success in Hs as (store & desc & Hin).
  exists store, desc.
  repeat first [ exact Hin | right | apply in_or_app; first [left; exact Hin | right] ].
Qed.
Lemma deadline_goroutine_timeout w ctx dataDir :
  snd (deadline_goroutine w ctx dataDir case_timeoutChannel) = timeout_calls w dataDir.
Proof.
  unfold deadline_goroutine, timeout_calls, cleanUp, os_RemoveAll, log_Info, log_Error.
  cbn [bind call ret app fst snd].
  destruct (w_RemoveAll w dataDir); reflexivity.
Qed.

(** An invocation that stops at validation, at the registry session, at the
    pre-build check or at the V2 tag gate has made no pull, build or push
    call. *)
Lemma HandleRequest_early_exit_quiet w ctx ev :
  snd (validateEvent ctx ev) <> None
  \/ w_RegistryInit w (buildEcrRegistryUrl ev) <> None
  \/ w_ValidateImageDigest w (RepositoryName (Detail ev)) (ImageDigest (Detail ev))
       (w_Getenv w SociIndexVersion) <> None
  \/ (w_Getenv w SociIndexVersion = "V2" /\
      (Value (fst (validateEvent ctx ev)) ImageTagKey = None \/
       Value (fst (validateEvent ctx ev)) ImageTagKey = Some "")) ->
  none_of is_pull_build_push (snd (HandleRequest w ctx ev)) = true.
Proof.
  intros Hstop.
  destruct (snd (validateEvent ctx ev)) as [e|] eqn:H.
  { rewrite (HandleRequest_invalid w ctx ev e H). reflexivity. }
  destruct (w_ValidateImageDigest w (RepositoryName (Detail ev)) (ImageDigest (Detail ev))
              (w_Getenv w SociIndexVersion)) as [e|] eqn:Hc.
  - destruct (w_RegistryInit w (buildEcrRegistryUrl ev)) as [e'|] eqn:Hi.
    + unfold HandleRequest.
      destruct (validateEvent ctx ev) as [ctx' err]. cbn [fst snd] in *. subst err.
      walk. rewrite Hi. reflexivity.
    + rewrite (HandleRequest_check_failed w ctx ev e H Hi Hc). reflexivity.
  - destruct (w_RegistryInit w (buildEcrRegistryUrl ev)) as [e'|] eqn:Hi.
    + unfold HandleRequest.
      destruct (validateEvent ctx ev) as [ctx' err]. cbn [fst snd] in *. subst err.
      walk. rewrite Hi. reflexivity.
    + destruct Hstop as [N | [N | [N | [Hv Ht]]]]; try (exfalso; apply N; reflexivity).
      rewrite (HandleRequest_V2_no_tag w ctx ev Hv H Hi Hc Ht). reflexivity.
Qed.

(** End to end, legacy strategy: the sample event is built and pushed,
    without a tag, and the newer of the two records is the one pushed. *)
Example legacy_success :
  let run := HandleRequest (Samples.world "V1" Samples.no_check (Ok Samples.index_old))
               Samples.ctx Samples.event in
  fst run = (BuildAndPushSuccessMessage, None)
  /\ In (CPush "/tmp/req-10001/store" Samples.index_new "myrepo" "") (snd run).
Proof.
  cbv zeta. split.
  - vm_compute. reflexivity.
  - vm_compute. repeat (first [left; reflexivity | right]).
Qed.

(** End to end, an account id of five digits: validation error, one log
    record. *)
Example short_account_rejected :
  HandleRequest (Samples.world "V1" Samples.no_check (Ok Samples.index_old))
    Samples.ctx (Samples.with_account "12345")
  = (("ECRImageActionEvent validation error", Some account_violation),
     [CLog LError "ECRImageActionEvent validation error" (Some account_violation)]).
Proof. vm_compute. reflexivity. Qed.

End HandlerFacts.

(* ================================================================== *)
(** * The digest pattern, exactly; the V2 path *)
(* ================================================================== *)

Module DigestFacts.
Import Regexp Patterns RegexpFacts PatternFacts.

(** A class of one character holds that character only. *)
Lemma in_one c x : in_class [one x] c = true -> c = x.
Proof.
  unfold in_class, in_range, one. simpl. rewrite orb_false_r.
  intros H. apply andb_true_iff in H as [A B]. apply N.leb_le in A, B.
  rewrite <- (ascii_N_embedding c), <- (ascii_N_embedding x). f_equal. lia.
Qed.

(** The first class of the digest pattern: the opening bracket and the
    letters. *)
Lemma digest_head_class c :
  in_class [one "["; ("A", "Z"); ("a", "z")]%char c = true <->
  c = "["%char \/ is_alpha c = true.
Proof.
  assert (E : in_class [one "["; ("A", "Z"); ("a", "z")]%char c
              = in_class [one "["%char] c || is_alpha c).
  { unfold is_alpha, in_class, alpha. simpl. rewrite !orb_false_r. reflexivity. }
  rewrite E, orb_true_iff. split; intros [H | H]; auto.
  - left. apply in_one. exact H.
  - left. subst c. reflexivity.
Qed.

(** What the groups of the digest pattern match ends, unless it is empty,
    in a letter followed by letters and digits. *)
Lemma digest_groups_end a :
  matches (Star (Cat (Cls [one "-"; one "_"; one "+"; one "."]%char)
                     (Cat (Cls alpha) (Star (Cls alnum))))) a ->
  a = [] \/ exists front l run,
              a = front ++ [l] ++ run /\ is_alpha l = true /\ forallb is_alnum run = true.
Proof.
  intros H.
  remember (Star (Cat (Cls [one "-"; one "_"; one "+"; one "."]%char)
                      (Cat (Cls alpha) (Star (Cls alnum))))) as r eqn:Er.
  induction H; try discriminate.
  - left. reflexivity.
  - injection Er as ->. specialize (IHmatches2 eq_refl).
    destruct IHmatches2 as [-> | (front & l & run & -> & Hl & Hr)].
    + right. rewrite app_nil_r.
      apply matches_Cat_inv in H as (sep & g & -> & Hs & Hg).
      apply matches_Cat_inv in Hg as (l & run & -> & Hl & Hr).
      apply matches_Cls_inv in Hl as (c & -> & Hc).
      apply matches_star_cls in Hr.
      exists sep, c, run. auto.
    + right. exists (s1 ++ front), l, run. rewrite <- !app_assoc. auto.
Qed.

(** What the digest pattern matches. *)
Lemma digest_re_matches_core p :
  matches digest_re p ->
  exists front c run h rest,
    p = front ++ [c] ++ run ++ [":"%char] ++ h ++ rest /\
    (c = "["%char \/ is_alpha c = true) /\ forallb is_alnum run = true /\
    List.length h = 32%nat /\ forallb is_hex h = true.
Proof.
  unfold digest_re. intros H.
  apply matches_Cat_inv in H as (a1 & r1 & -> & H1 & H).
  apply matches_Cat_inv in H as (a2 & r2 & -> & H2 & H).
  apply matches_Cat_inv in H as (a3 & r3 & -> & H3 & H).
  apply matches_Cat_inv in H as (co & r4 & -> & H4 & H).
  unfold rep_at_least in H.
  apply matches_Cat_inv in H as (h & rest & -> & H5 & H6).
  apply matches_Cls_inv in H1 as (c & -> & Hc). apply digest_head_class in Hc.
  apply matches_star_cls in H2.
  apply matches_Cls_inv in H4 as (c' & -> & Hc'). apply in_one in Hc'. subst c'.
  apply matches_rep_exact in H5 as [L F].
  apply digest_groups_end in H3 as [-> | (front & l & run & -> & Hl & Hr)].
  - exists [], c, a2, h, rest. repeat split; auto.
  - exists ([c] ++ a2 ++ front), l, run, h, rest. repeat split; auto.
    rewrite <- !app_assoc. reflexivity.
Qed.

(** The digest pattern finds a match exactly in the strings that hold an
    opening bracket or a letter, then letters and digits, a colon and 32
    hex characters. *)
Lemma digest_re_search (s : string) :
  MatchString digest_re s = true <-> holds_digest_match s.
Proof.
  unfold MatchString, holds_digest_match. rewrite search_spec. split.
  - intros (pre & p & post & E & H).
    apply digest_re_matches_core in H as (front & c & run & h & rest & -> & Hc & Hr & L & F).
    exists (pre ++ front), c, run, h, (rest ++ post). repeat split; auto.
    rewrite E, <- !app_assoc. reflexivity.
  - intros (pre & c & run & h & post & E & Hc & Hr & L & F).
    exists pre, ([c] ++ run ++ [":"%char] ++ h), post. split.
    + rewrite E, <- !app_assoc. reflexivity.
    + unfold digest_re. constructor; [constructor; apply digest_head_class; exact Hc|].
      constructor; [apply matches_star_cls; exact Hr|].
      change ([":"%char] ++ h) with ([] ++ [":"%char] ++ h).
      constructor; [constructor|].
      constructor; [constructor; reflexivity|].
      apply matches_rep_at_least. split; [lia | exact F].
Qed.

Lemma list_ascii_of_string_app a b :
  list_ascii_of_string (a ++ b) = list_ascii_of_string a ++ list_ascii_of_string b.
Proof. induction a as [|c a IH]; simpl; [reflexivity|]. rewrite IH. reflexivity. Qed.

(** Text around a digest of the specified shape does not hide it from the
    search. *)
Lemma surrounded_digest_found s d :
  spec_digest_ok d -> surrounds s d -> MatchString digest_re s = true.
Proof.
  intros (alg & h & E & Ha & F & L) (pre & post & ->).
  apply digest_re_search_grammar.
  exists (list_ascii_of_string pre), alg, h, (list_ascii_of_string post).
  repeat split; auto.
  rewrite !list_ascii_of_string_app, E, <- !app_assoc. reflexivity.
Qed.

(** Text around twelve digits does not hide them from the search. *)
Lemma surrounded_account_found s d :
  spec_account_ok d = true -> surrounds s d -> has_run is_digit 12 s.
Proof.
  intros Hok (pre & post & ->).
  apply spec_account_ok_run in Hok as (p0 & run & q0 & E & L & F).
  exists (list_ascii_of_string pre ++ p0), run, (q0 ++ list_ascii_of_string post).
  repeat split; auto.
  rewrite !list_ascii_of_string_app, E, <- !app_assoc. reflexivity.
Qed.

End DigestFacts.
Import DigestFacts.

Module GateFacts.
Import HandlerFacts.

(** The work phase under V2 when every collaborator up to the conversion
    succeeds: it pushes what [Convert] returned, to [repo] under [tag]. *)
Lemma HandleRequest_work_converted w ctx dataDir repo digest tag desc index :
  w_OciNew w (path_Join dataDir artifactsStoreName) = None ->
  w_Pull w repo (path_Join dataDir artifactsStoreName) digest = Ok desc ->
  w_NewDB w (path_Join dataDir artifactsDbName) = None ->
  w_NewStore w (path_Join dataDir artifactsStoreName) = None ->
  w_NewIndexBuilder w = None ->
  w_Convert w {| Name := repo ++ "@" ++ digest; Target := desc |} = Ok index ->
  In (CPush (path_Join dataDir artifactsStoreName) index repo tag)
     (snd (HandleRequest_work w ctx dataDir repo digest "V2" tag)).
Proof.
  intros Ho Hp Hdb Hst Hb Hconv.
  unfold_stages. cbn [bind call ret app fst snd].
  rewrite Ho. cbn [bind call ret app fst snd].
  rewrite Hp. cbn [bind call ret app fst snd].
  rewrite Hdb. cbn [bind call ret app fst snd].
  rewrite Hst. cbn [bind call ret app fst snd].
  rewrite Hb. cbn [bind call ret app fst snd String.eqb Ascii.eqb Bool.eqb].
  rewrite Hconv. cbn [bind call ret app fst snd].
  destruct (w_Push w _ _ _ _); cbn [bind call ret app fst snd In];
    repeat (first [left; reflexivity | right]).
Qed.

End GateFacts.
Import GateFacts.

(* ================================================================== *)
(** * The claims *)
(* ================================================================== *)

Import RegexpFacts PatternFacts ValidateFacts SortFacts HandlerFacts.

(** C1, as stated, fails: an event with the wrong source fails validation
    and [HandleRequest] hands the violation back as a non-nil error. *)
Lemma C1_validation_error_is_not_nil :
  let w := Samples.world "V1" Samples.no_check (Ok Samples.index_new) in
  let ev := Samples.with_source "aws.s3" in
  snd (validateEvent Samples.ctx ev) <> None /\
  snd (fst (HandleRequest w Samples.ctx ev)) = Some source_violation /\
  snd (fst (HandleRequest w Samples.ctx ev)) <> None.
Proof.
  cbv zeta. split; [|split].
  - vm_compute. discriminate.
  - vm_compute. reflexivity.
  - vm_compute. discriminate.
Qed.

(** C1 (amended): for every event that fails validation, [HandleRequest]
    returns the message "ECRImageActionEvent validation error" together with
    the first recorded violation as a non-nil error, after logging it and
    making no other call: the failure is propagated like every other
    handled error, not suppressed. *)
Theorem C1_validation_failure_is_propagated (w : World) (ctx : Context)
  (ev : ECRImageActionEvent) (e : errval) :
  snd (validateEvent ctx ev) = Some e ->
  fst (HandleRequest w ctx ev) = ("ECRImageActionEvent validation error", Some e)
  /\ snd (HandleRequest w ctx ev)
     = [CLog LError "ECRImageActionEvent validation error" (Some e)]
  /\ hd_error (snd (validateEvent_collect ctx ev)) = Some e.
Proof.
  intros H. rewrite (HandleRequest_invalid w ctx ev e H).
  rewrite <- validateEvent_snd. auto.
Qed.

(** C1 (amended) on an event whose account id has five digits. *)
Lemma C1_validation_failure_is_propagated_witness :
  let w := Samples.world "V1" Samples.no_check (Ok Samples.index_new) in
  let ev := Samples.with_account "12345" in
  fst (HandleRequest w Samples.ctx ev)
    = ("ECRImageActionEvent validation error", Some account_violation)
  /\ snd (HandleRequest w Samples.ctx ev)
     = [CLog LError "ECRImageActionEvent validation error" (Some account_violation)]
  /\ hd_error (snd (validateEvent_collect Samples.ctx ev)) = Some account_violation.
Proof.
  cbv zeta. apply C1_validation_failure_is_propagated. reflexivity.
Defined.

(** C9: an event whose source is not "aws.ecr" fails validation, the source
    violation is the first one recorded and the one returned, and
    [HandleRequest] makes no registry initialisation, pull, build or push
    call. *)
Theorem C9_wrong_source_rejected_first (w : World) (ctx : Context)
  (ev : ECRImageActionEvent) :
  Source ev <> "aws.ecr" ->
  hd_error (snd (validateEvent_collect ctx ev)) = Some source_violation
  /\ snd (validateEvent ctx ev) = Some source_violation
  /\ fst (HandleRequest w ctx ev)
     = ("ECRImageActionEvent validation error", Some source_violation)
  /\ none_of (fun c => is_registry_init c || is_pull_build_push c)
       (snd (HandleRequest w ctx ev)) = true.
Proof.
  intros N.
  destruct (source_violation_first ctx ev N) as [rest E].
  assert (Hv : snd (validateEvent ctx ev) = Some source_violation).
  { rewrite validateEvent_snd, E. reflexivity. }
  rewrite (HandleRequest_invalid w ctx ev _ Hv), E. repeat split; auto.
Qed.

(** C9 on an event with source "aws.s3". *)
Lemma C9_wrong_source_rejected_first_witness :
  let w := Samples.world "V1" Samples.no_check (Ok Samples.index_new) in
  let ev := Samples.with_source "aws.s3" in
  hd_error (snd (validateEvent_collect Samples.ctx ev)) = Some source_violation
  /\ snd (validateEvent Samples.ctx ev) = Some source_violation
  /\ fst (HandleRequest w Samples.ctx ev)
     = ("ECRImageActionEvent validation error", Some source_violation)
  /\ none_of (fun c => is_registry_init c || is_pull_build_push c)
       (snd (HandleRequest w Samples.ctx ev)) = true.
Proof.
  cbv zeta. apply C9_wrong_source_rejected_first. discriminate.
Defined.

(** C10: whatever error the pre-build manifest check returns, once the
    event is valid and the registry session exists, [HandleRequest] returns
    "Exited early due to manifest validation error" with a nil error and
    makes no pull, build or push call. *)
Theorem C10_any_check_error_ends_quietly (w : World) (ctx : Context)
  (ev : ECRImageActionEvent) (e : errval) :
  snd (validateEvent ctx ev) = None ->
  w_RegistryInit w (buildEcrRegistryUrl ev) = None ->
  w_ValidateImageDigest w (RepositoryName (Detail ev)) (ImageDigest (Detail ev))
    (w_Getenv w SociIndexVersion) = Some e ->
  fst (HandleRequest w ctx ev) = ("Exited early due to manifest validation error", None)
  /\ none_of is_pull_build_push (snd (HandleRequest w ctx ev)) = true.
Proof.
  intros H Hi Hc. rewrite (HandleRequest_check_failed w ctx ev e H Hi Hc).
  split; reflexivity.
Qed.

(** C10 on a check that fails with a connection error. *)
Lemma C10_any_check_error_ends_quietly_witness :
  let w := Samples.world "V1" (fun _ _ _ => Some (errors_New "connection reset"))
             (Ok Samples.index_new) in
  fst (HandleRequest w Samples.ctx Samples.event)
    = ("Exited early due to manifest validation error", None)
  /\ none_of is_pull_build_push (snd (HandleRequest w Samples.ctx Samples.event)) = true.
Proof.
  cbv zeta.
  apply (C10_any_check_error_ends_quietly _ _ _ (errors_New "connection reset"));
    reflexivity.
Defined.

(** C3: when the (repository, digest, version) of an event already has a
    published index, [HandleRequest] makes no pull, build or push call; and
    when the event is valid and the registry session is established, the
    idempotency check ends the invocation with a benign-skip message and a
    nil error. *)
Theorem C3_idempotency_hit_short_circuits (w : World) (ctx : Context)
  (ev : ECRImageActionEvent) (published : list (string * string * string)) :
  w_ValidateImageDigest w = ValidateImageDigest_spec published ->
  In (RepositoryName (Detail ev), ImageDigest (Detail ev), w_Getenv w SociIndexVersion)
     published ->
  none_of is_pull_build_push (snd (HandleRequest w ctx ev)) = true
  /\ (snd (validateEvent ctx ev) = None ->
      w_RegistryInit w (buildEcrRegistryUrl ev) = None ->
      fst (HandleRequest w ctx ev)
        = ("Exited early due to manifest validation error", None)).
Proof.
  intros Hspec Hin.
  assert (Hc : w_ValidateImageDigest w (RepositoryName (Detail ev)) (ImageDigest (Detail ev))
                 (w_Getenv w SociIndexVersion) = Some ErrAlreadyProcessed).
  { rewrite Hspec. apply ValidateImageDigest_spec_hit. exact Hin. }
  split.
  - apply HandleRequest_early_exit_quiet. right. right. left. rewrite Hc. discriminate.
  - intros H Hi. rewrite (HandleRequest_check_failed w ctx ev _ H Hi Hc). reflexivity.
Qed.

(** C3 on a registry that already holds an index for the sample event. *)
Lemma C3_idempotency_hit_short_circuits_witness :
  let published := [("myrepo", ImageDigest (Detail Samples.event), "V1")] in
  let w := Samples.world "V1" (ValidateImageDigest_spec published) (Ok Samples.index_new) in
  none_of is_pull_build_push (snd (HandleRequest w Samples.ctx Samples.event)) = true
  /\ fst (HandleRequest w Samples.ctx Samples.event)
     = ("Exited early due to manifest validation error", None).
Proof.
  cbv zeta.
  pose proof (C3_idempotency_hit_short_circuits
                (Samples.world "V1"
                   (ValidateImageDigest_spec
                      [("myrepo", ImageDigest (Detail Samples.event), "V1")])
                   (Ok Samples.index_new))
                Samples.ctx Samples.event
                [("myrepo", ImageDigest (Detail Samples.event), "V1")]
                eq_refl (or_introl eq_refl)) as [Hquiet Hskip].
  split.
  - exact Hquiet.
  - apply Hskip; reflexivity.
Defined.

(** C2 (the code departs from the claim): in a legacy-strategy invocation
    that reaches the build, when the builder's [Build] reports
    [ErrEmptyIndex], [buildIndex] wraps the error, the comparison with
    [ErrEmptyIndex] in [HandleRequest] fails, and the invocation returns
    "SOCI index build error" with a non-nil error instead of the benign
    skip.  The push step is not executed. *)
Theorem C2_empty_index_reported_as_build_error (w : World) (ctx : Context)
  (ev : ECRImageActionEvent) (dataDir : string) (desc : ocispec_Descriptor) :
  snd (validateEvent ctx ev) = None ->
  w_RegistryInit w (buildEcrRegistryUrl ev) = None ->
  w_ValidateImageDigest w (RepositoryName (Detail ev)) (ImageDigest (Detail ev))
    (w_Getenv w SociIndexVersion) = None ->
  (w_Getenv w SociIndexVersion =? "V2") = false ->
  w_MkdirTemp w "/tmp" (ctx_AwsRequestID ctx) = (dataDir, None) ->
  w_OciNew w (path_Join dataDir artifactsStoreName) = None ->
  w_Pull w (RepositoryName (Detail ev)) (path_Join dataDir artifactsStoreName)
    (ImageDigest (Detail ev)) = Ok desc ->
  w_NewDB w (path_Join dataDir artifactsDbName) = None ->
  w_NewStore w (path_Join dataDir artifactsStoreName) = None ->
  w_NewIndexBuilder w = None ->
  w_Build w {| Name := RepositoryName (Detail ev) ++ "@" ++ ImageDigest (Detail ev);
               Target := desc |} (w_DefaultSpec w) = Fail ErrEmptyIndex ->
  fst (HandleRequest w ctx ev)
    = (BuildFailedMessage, Some (fmt_Errorf_w "failed to build SOCI index: " ErrEmptyIndex))
  /\ fst (HandleRequest w ctx ev) <> (SkipPushOnEmptyIndexMessage, None)
  /\ forall c, In c (snd (HandleRequest w ctx ev)) -> is_push c = false.
Proof.
  intros H Hi Hc Hv Hd Ho Hp Hdb Hst Hb Hbuild.
  destruct (HandleRequest_reaches_work w ctx ev "" dataDir H Hi Hc (or_introl (conj Hv eq_refl)) Hd)
    as [Efst Htr].
  destruct (HandleRequest_work_build_failed w
              (WithValue (fst (validateEvent ctx ev)) RegistryURLKey (buildEcrRegistryUrl ev))
              dataDir _ _ _ "" desc ErrEmptyIndex Hv Ho Hp Hdb Hst Hb Hbuild) as [Ew Hw].
  rewrite Efst, Ew. repeat split.
  - discriminate.
  - intros c Hin. destruct (is_push c) eqn:Ep; [|reflexivity].
    rewrite <- Ep. apply Hw. apply Htr; [|exact Hin].
    unfold is_pull_build_push. rewrite Ep. apply orb_true_r.
Qed.

(** C2 on the sample event, with a builder that reports [ErrEmptyIndex]. *)
Lemma C2_empty_index_reported_as_build_error_witness :
  let w := Samples.world "V1" Samples.no_check (Fail ErrEmptyIndex) in
  fst (HandleRequest w Samples.ctx Samples.event)
    = (BuildFailedMessage, Some (fmt_Errorf_w "failed to build SOCI index: " ErrEmptyIndex))
  /\ fst (HandleRequest w Samples.ctx Samples.event) <> (SkipPushOnEmptyIndexMessage, None)
  /\ forall c, In c (snd (HandleRequest w Samples.ctx Samples.event)) -> is_push c = false.
Proof.
  cbv zeta.
  apply (C2_empty_index_reported_as_build_error _ _ _ "/tmp/req-10001" Samples.image_desc);
    reflexivity.
Defined.

(** C5: under the V2 strategy, an invocation whose event carries no tag
    makes no pull, build or push call, and once the event is valid and the
    pre-build check has passed it ends in the benign skip with a nil error.
    An invocation whose event carries a tag [t] pushes, whenever it pushes,
    under [t ++ "-soci"]; it has pushed when it reports success; and it does
    push, the descriptor that [Convert] returned, under that tag, whenever
    the event is valid and every collaborator up to the conversion
    succeeds. *)
Theorem C5_V2_tag_gate_and_derived_tag (w : World) (ctx : Context)
  (ev : ECRImageActionEvent) :
  w_Getenv w SociIndexVersion = "V2" ->
  Value ctx ImageTagKey = None ->
  (ImageTag (Detail ev) = "" ->
     none_of is_pull_build_push (snd (HandleRequest w ctx ev)) = true
     /\ (snd (validateEvent ctx ev) = None ->
         w_RegistryInit w (buildEcrRegistryUrl ev) = None ->
         w_ValidateImageDigest w (RepositoryName (Detail ev)) (ImageDigest (Detail ev))
           (w_Getenv w SociIndexVersion) = None ->
         fst (HandleRequest w ctx ev)
           = ("Skipped SOCI index generation for V2 as image has no tag", None)))
  /\
  (ImageTag (Detail ev) <> "" ->
     (forall c, In c (snd (HandleRequest w ctx ev)) -> is_push c = true ->
        exists store desc,
          c = CPush store desc (RepositoryName (Detail ev)) (ImageTag (Detail ev) ++ "-soci"))
     /\
     (fst (fst (HandleRequest w ctx ev)) = BuildAndPushSuccessMessage ->
        exists store desc,
          In (CPush store desc (RepositoryName (Detail ev)) (ImageTag (Detail ev) ++ "-soci"))
             (snd (HandleRequest w ctx ev)))
     /\
     (forall dataDir desc index,
        snd (validateEvent ctx ev) = None ->
        w_RegistryInit w (buildEcrRegistryUrl ev) = None ->
        w_ValidateImageDigest w (RepositoryName (Detail ev)) (ImageDigest (Detail ev))
          (w_Getenv w SociIndexVersion) = None ->
        w_MkdirTemp w "/tmp" (ctx_AwsRequestID ctx) = (dataDir, None) ->
        w_OciNew w (path_Join dataDir artifactsStoreName) = None ->
        w_Pull w (RepositoryName (Detail ev)) (path_Join dataDir artifactsStoreName)
          (ImageDigest (Detail ev)) = Ok desc ->
        w_NewDB w (path_Join dataDir artifactsDbName) = None ->
        w_NewStore w (path_Join dataDir artifactsStoreName) = None ->
        w_NewIndexBuilder w = None ->
        w_Convert w {| Name := RepositoryName (Detail ev) ++ "@" ++ ImageDigest (Detail ev);
                       Target := desc |} = Ok index ->
        In (CPush (path_Join dataDir artifactsStoreName) index
              (RepositoryName (Detail ev)) (ImageTag (Detail ev) ++ "-soci"))
           (snd (HandleRequest w ctx ev)))).
Proof.
  intros Hv Hctx.
  destruct (snd (validateEvent ctx ev)) as [e|] eqn:H.
  { (* the event is invalid: one log record, no push *)
    rewrite (HandleRequest_invalid w ctx ev e H). split.
    - intros _. split; [reflexivity | discriminate].
    - intros _. split; [|split].
      + intros c [<- | []] Hp. discriminate Hp.
      + discriminate.
      + discriminate. }
  pose proof (validated_tag ctx ev H) as Ht.
  split.
  - intros E. rewrite E in Ht. cbn in Ht. rewrite Hctx in Ht. split.
    + apply HandleRequest_early_exit_quiet. do 3 right. auto.
    + intros _ Hi Hc.
      rewrite (HandleRequest_V2_no_tag w ctx ev Hv H Hi Hc (or_introl Ht)). reflexivity.
  - intros N. apply String.eqb_neq in N. rewrite N in Ht. split; [|split].
    + intros c. apply HandleRequest_V2_pushes; assumption.
    + apply HandleRequest_V2_success; assumption.
    + intros dataDir desc index _ Hi Hc Hd Ho Hp Hdb Hst Hb Hconv.
      assert (Hgate : (w_Getenv w SociIndexVersion =? "V2") = false
                      /\ (ImageTag (Detail ev) ++ "-soci")%string = ""
                      \/ (w_Getenv w SociIndexVersion =? "V2") = true
                         /\ exists t, Value (fst (validateEvent ctx ev)) ImageTagKey = Some t
                                      /\ (t =? "") = false
                                      /\ (ImageTag (Detail ev) ++ "-soci")%string
                                         = (t ++ "-soci")%string).
      { right. split; [rewrite Hv; reflexivity|].
        exists (ImageTag (Detail ev)). auto. }
      destruct (HandleRequest_reaches_work w ctx ev _ dataDir H Hi Hc Hgate Hd) as [_ Hin].
      apply (Hin (CPush (path_Join dataDir artifactsStoreName) index
                        (RepositoryName (Detail ev)) (ImageTag (Detail ev) ++ "-soci"))
                 eq_refl).
      rewrite Hv.
      apply (HandleRequest_work_converted _ _ _ _ _ _ desc); assumption.
Qed.

(** C5 on the sample event without a tag, and with the tag "latest". *)
Lemma C5_V2_tag_gate_and_derived_tag_witness :
  let w := Samples.world "V2" Samples.no_check (Ok Samples.index_new) in
  fst (HandleRequest w Samples.ctx (Samples.with_tag ""))
    = ("Skipped SOCI index generation for V2 as image has no tag", None)
  /\ none_of is_pull_build_push (snd (HandleRequest w Samples.ctx (Samples.with_tag ""))) = true
  /\ In (CPush "/tmp/req-10001/store" Samples.index_new "myrepo" "latest-soci")
        (snd (HandleRequest w Samples.ctx Samples.event)).
Proof.
  cbv zeta.
  pose proof (C5_V2_tag_gate_and_derived_tag
                (Samples.world "V2" Samples.no_check (Ok Samples.index_new))
                Samples.ctx (Samples.with_tag "") eq_refl eq_refl) as [Hskip _].
  pose proof (C5_V2_tag_gate_and_derived_tag
                (Samples.world "V2" Samples.no_check (Ok Samples.index_new))
                Samples.ctx Samples.event eq_refl eq_refl) as [_ Hpush].
  destruct (Hskip eq_refl) as [Hquiet Hresult].
  split; [|split].
  - apply Hresult; reflexivity.
  - exact Hquiet.
  - assert (N : ImageTag (Detail Samples.event) <> "") by discriminate.
    exact (proj2 (proj2 (Hpush N)) "/tmp/req-10001" Samples.image_desc Samples.index_new
             eq_refl eq_refl eq_refl eq_refl eq_refl eq_refl eq_refl eq_refl eq_refl eq_refl).
Defined.

(** C4: the goroutine's timer is armed for the deadline minus ten seconds;
    when the quit signal comes before the timer is ready the goroutine makes
    no call at all; when the timer is ready first (or no quit signal ever
    comes) it removes the directory and then logs the invocation timeout,
    and that is all it does. *)
Theorem C4_deadline_goroutine_race (w : World) (ctx : Context) (dataDir : string)
  (deadline : Time) (quit : option Time) (calls : list Call) :
  ctx_deadline ctx = Some deadline ->
  (w_Now w <= deadline - 10 * Second)%Z ->
  (deadline - 10 * Second - w_Now w <= maxDuration)%Z ->
  let race := invocation_race w ctx quit in
  timer_ready_at race = (deadline - 10 * Second)%Z
  /\ ((exists q, quit = Some q /\ (q < deadline - 10 * Second)%Z) ->
      (goroutine_run w ctx dataDir race calls <-> calls = []))
  /\ ((forall q, quit = Some q -> (deadline - 10 * Second < q)%Z) ->
      (goroutine_run w ctx dataDir race calls <-> calls = timeout_calls w dataDir)).
Proof.
  intros Hd Hnow Hmax race.
  assert (Hready : timer_ready_at race = (deadline - 10 * Second)%Z).
  { subst race. unfold invocation_race, time_After_ready, deadline_timer, ctx_Deadline,
      Time_Sub, Time_Add. cbn [timer_ready_at]. rewrite Hd.
    assert (minDuration < 0)%Z by reflexivity. lia. }
  assert (Hquit : quit_sent_at race = quit) by reflexivity.
  split; [exact Hready|]. split.
  - intros (q & Hq & Hlt). split.
    + intros Hrun. destruct Hrun as [c Hsel].
      destruct c; [|reflexivity].
      unfold may_select, ready_at, wake_up in Hsel.
      rewrite Hquit, Hq, Hready in Hsel. apply Z.leb_le in Hsel. lia.
    + intros ->. apply (run_selected w ctx dataDir race case_quitChannel).
      unfold may_select, ready_at, wake_up. rewrite Hquit, Hq, Hready.
      apply Z.leb_le. lia.
  - intros Hq. rewrite <- (deadline_goroutine_timeout w ctx dataDir). split.
    + intros Hrun. destruct Hrun as [c Hsel].
      destruct c; [reflexivity|].
      unfold may_select, ready_at, wake_up in Hsel. rewrite Hquit, Hready in Hsel.
      destruct quit as [q|]; [|discriminate].
      apply Z.leb_le in Hsel. specialize (Hq q eq_refl). lia.
    + intros ->. apply (run_selected w ctx dataDir race case_timeoutChannel).
      unfold may_select, ready_at, wake_up. rewrite Hquit, Hready.
      destruct quit as [q|]; apply Z.leb_le; [|lia].
      specialize (Hq q eq_refl). lia.
Qed.

(** C4 on a deadline of 900 s: the timer is ready at 890 s; a quit signal at
    5 s silences the goroutine, no quit signal lets it time out. *)
Lemma C4_deadline_goroutine_race_witness :
  let w := Samples.world "V1" Samples.no_check (Ok Samples.index_new) in
  let dir := "/tmp/req-10001" in
  timer_ready_at (invocation_race w Samples.ctx None) = (890 * Second)%Z
  /\ goroutine_run w Samples.ctx dir (invocation_race w Samples.ctx (Some (5 * Second)%Z)) []
  /\ goroutine_run w Samples.ctx dir (invocation_race w Samples.ctx None)
       (timeout_calls w dir).
Proof.
  cbv zeta.
  assert (Hd : ctx_deadline Samples.ctx = Some (900 * Second)%Z) by reflexivity.
  assert (Hnow : (w_Now (Samples.world "V1" Samples.no_check (Ok Samples.index_new))
                  <= 900 * Second - 10 * Second)%Z) by (vm_compute; discriminate).
  assert (Hmax : (900 * Second - 10 * Second
                  - w_Now (Samples.world "V1" Samples.no_check (Ok Samples.index_new))
                  <= maxDuration)%Z) by (vm_compute; discriminate).
  split; [|split].
  - exact (proj1 (C4_deadline_goroutine_race _ _ "/tmp/req-10001" _ None [] Hd Hnow Hmax)).
  - apply (proj1 (proj2 (C4_deadline_goroutine_race _ _ "/tmp/req-10001" _
                           (Some (5 * Second)%Z) [] Hd Hnow Hmax))).
    + exists (5 * Second)%Z. split; [reflexivity | vm_compute; reflexivity].
    + reflexivity.
  - apply (proj2 (proj2 (C4_deadline_goroutine_race _ _ "/tmp/req-10001" _
                           None _ Hd Hnow Hmax))).
    + intros q Hq. discriminate Hq.
    + reflexivity.
Defined.

(** C6: under the legacy strategy, once the build has succeeded and the
    database holds matching records, [buildIndex] sorts them by creation
    time, ascending, and returns the descriptor of the last one, a record
    than which none was created later.  A record created after all the
    others is therefore the one returned, wherever it was listed; of two
    records created at T1 < T2 it is the one created at T2.  Among records
    that share the latest creation time the sort decides. *)
Theorem C6_buildIndex_selects_latest_record (w : World) (ctx : Context)
  (dataDir store : string) (image : Image) (ver : string)
  (built : ocispec_Descriptor) (records : list IndexDescriptorInfo) :
  (ver =? "V2") = false ->
  w_NewDB w (path_Join dataDir artifactsDbName) = None ->
  w_NewStore w (path_Join dataDir artifactsStoreName) = None ->
  w_NewIndexBuilder w = None ->
  w_Build w image (w_DefaultSpec w) = Ok built ->
  w_GetIndexDescriptorCollection w image (w_DefaultSpec w) = Ok records ->
  records <> [] ->
  let sorted := sort_Slice w created_before records in
  Permutation records sorted
  /\ StronglySorted (fun a b => (CreatedAt a <= CreatedAt b)%Z) sorted
  /\ (exists r,
        fst (buildIndex w ctx dataDir store image ver) = Ok (Descriptor r)
        /\ r = last sorted r
        /\ In r records
        /\ forall r', In r' records -> (CreatedAt r' <= CreatedAt r)%Z)
  /\ (forall latest, In latest records ->
        (forall r', In r' records -> r' = latest \/ (CreatedAt r' < CreatedAt latest)%Z) ->
        fst (buildIndex w ctx dataDir store image ver) = Ok (Descriptor latest))
  /\ (forall a b, (CreatedAt a < CreatedAt b)%Z ->
        records = [a; b] \/ records = [b; a] ->
        fst (buildIndex w ctx dataDir store image ver) = Ok (Descriptor b)).
Proof.
  intros Hv Hdb Hst Hb Hbuild Hget N sorted.
  pose proof (buildIndex_V1 w ctx dataDir store image ver built records
                Hv Hdb Hst Hb Hbuild Hget) as E.
  destruct records as [|first rest]; [contradiction|].
  set (records := first :: rest) in *.
  destruct (sort_Slice_last CreatedAt w records first N) as [Hin Hmax].
  fold created_before in Hin, Hmax. fold sorted in Hin, Hmax, E.
  assert (Hlast : forall d, last sorted d = last sorted first).
  { assert (Ns : sorted <> []).
    { intros Es. apply N. apply Permutation_nil. rewrite <- Es. symmetry.
      apply (sort_Slice_perm CreatedAt w). }
    clearbody sorted. clear - Ns. intros d.
    induction sorted as [|x [|y l] IH]; [contradiction | reflexivity |].
    change (last (y :: l) d = last (y :: l) first). apply IH. discriminate. }
  assert (Hunique : forall latest, In latest records ->
            (forall r', In r' records ->
                        r' = latest \/ (CreatedAt r' < CreatedAt latest)%Z) ->
            last sorted first = latest).
  { intros latest Hl Hlt.
    destruct (Hlt _ Hin) as [Eq | Lt]; [exact Eq|].
    specialize (Hmax _ Hl). lia. }
  split; [apply (sort_Slice_perm CreatedAt w)|].
  split; [apply (sort_Slice_sorted CreatedAt w)|].
  split; [|split].
  - exists (last sorted first). repeat split; auto.
  - intros latest Hl Hlt. rewrite E, (Hunique latest Hl Hlt). reflexivity.
  - intros a b Hlt Hrec. rewrite E. f_equal. f_equal.
    apply Hunique.
    + destruct Hrec as [Er | Er]; unfold records in *; rewrite Er; simpl; auto.
    + intros r' Hr'.
      assert (r' = a \/ r' = b) as [-> | ->]
        by (destruct Hrec as [Er | Er]; unfold records in *; rewrite Er in Hr';
            simpl in Hr'; intuition).
      * right. exact Hlt.
      * left. reflexivity.
Qed.

(** C6 on two records created at 100 and 200, the newer one listed first. *)
Lemma C6_buildIndex_selects_latest_record_witness :
  let w := Samples.world "V1" Samples.no_check (Ok Samples.index_new) in
  let image := {| Name := "myrepo@sha256:aa"; Target := Samples.image_desc |} in
  fst (buildIndex w Samples.ctx "/tmp/req-10001" "/tmp/req-10001/store" image "V1")
    = Ok Samples.index_new.
Proof.
  cbv zeta.
  refine (proj2 (proj2 (proj2 (proj2
    (C6_buildIndex_selects_latest_record
       (Samples.world "V1" Samples.no_check (Ok Samples.index_new)) Samples.ctx
       "/tmp/req-10001" "/tmp/req-10001/store"
       {| Name := "myrepo@sha256:aa"; Target := Samples.image_desc |} "V1"
       Samples.index_new Samples.records
       eq_refl eq_refl eq_refl eq_refl eq_refl eq_refl _))))
    {| Descriptor := Samples.index_old; CreatedAt := 100%Z |}
    {| Descriptor := Samples.index_new; CreatedAt := 200%Z |} _ _).
  - discriminate.
  - reflexivity.
  - right. reflexivity.
Defined.

(** C8: the account check searches for the pattern instead of matching the
    whole string.  The account violation is recorded exactly when the
    account id holds no twelve decimal digits in a row.  An id of exactly
    twelve digits is accepted, and an id without such a run makes
    validation fail, as the claim says; but so is accepted every string
    that holds twelve digits somewhere, whatever stands before and after
    them, which the claim says is rejected. *)
Theorem C8_account_pattern_is_searched (ctx : Context) (ev : ECRImageActionEvent) :
  (In account_violation (snd (validateEvent_collect ctx ev))
     <-> ~ has_run is_digit 12 (Account ev))
  /\ (spec_account_ok (Account ev) = true ->
      ~ In account_violation (snd (validateEvent_collect ctx ev)))
  /\ (~ has_run is_digit 12 (Account ev) -> snd (validateEvent ctx ev) <> None)
  /\ (forall d, spec_account_ok d = true -> surrounds (Account ev) d ->
      ~ In account_violation (snd (validateEvent_collect ctx ev))).
Proof.
  assert (Hiff : In account_violation (snd (validateEvent_collect ctx ev))
                 <-> ~ has_run is_digit 12 (Account ev)).
  { rewrite account_violation_iff. apply MatchString_false_iff. apply account_re_search. }
  split; [exact Hiff|]. split; [|split].
  - intros Hok Hin. apply Hiff in Hin. apply Hin. apply spec_account_ok_run. exact Hok.
  - intros Hn. apply (violation_fails ctx ev account_violation). apply Hiff. exact Hn.
  - intros d Hok Hs Hin. apply Hiff in Hin. apply Hin.
    apply (surrounded_account_found _ d Hok Hs).
Qed.

(** C8 on the failing inputs: an account id of thirteen digits, and one of
    twelve digits between other characters, are not "exactly 12 digits",
    and no violation is recorded for them; the events they come in pass
    validation. *)
Lemma C8_account_pattern_is_searched_witness :
  spec_account_ok "1234567890123" = false
  /\ ~ In account_violation
         (snd (validateEvent_collect Samples.ctx (Samples.with_account "1234567890123")))
  /\ snd (validateEvent Samples.ctx (Samples.with_account "1234567890123")) = None
  /\ spec_account_ok "x123456789012y" = false
  /\ ~ In account_violation
         (snd (validateEvent_collect Samples.ctx (Samples.with_account "x123456789012y")))
  /\ snd (validateEvent Samples.ctx (Samples.with_account "x123456789012y")) = None.
Proof.
  split; [reflexivity|]. split; [|split; [vm_compute; reflexivity|]].
  - refine (proj2 (proj2 (proj2 (C8_account_pattern_is_searched Samples.ctx
                                   (Samples.with_account "1234567890123"))))
              "123456789012" eq_refl _).
    exists "", "3". reflexivity.
  - split; [reflexivity|]. split; [|vm_compute; reflexivity].
    refine (proj2 (proj2 (proj2 (C8_account_pattern_is_searched Samples.ctx
                                   (Samples.with_account "x123456789012y"))))
              "123456789012" eq_refl _).
    exists "x", "y". reflexivity.
Defined.

(** C7: the digest check searches for the pattern instead of matching the
    whole string, and the first class of the pattern holds an opening
    bracket.  The digest violation is recorded exactly when the digest
    nowhere holds an opening bracket or a letter, then letters and digits,
    a colon and 32 hex characters.  On a digest that is exactly
    [<algorithm>:<hex>] the violation is recorded iff there are fewer than
    32 hex characters, so 32 pass and 31 fail, as the claim says; but every
    string that holds such a digest somewhere, whatever stands before and
    after it, passes too, which the claim says fails. *)
Theorem C7_digest_pattern_is_searched (ctx : Context) (ev : ECRImageActionEvent) :
  (In digest_violation (snd (validateEvent_collect ctx ev))
     <-> ~ holds_digest_match (ImageDigest (Detail ev)))
  /\ (~ holds_digest_match (ImageDigest (Detail ev)) -> snd (validateEvent ctx ev) <> None)
  /\ (forall alg h,
        list_ascii_of_string (ImageDigest (Detail ev)) = alg ++ [":"%char] ++ h ->
        Regexp.matches algorithm_re alg -> forallb is_hex h = true ->
        (In digest_violation (snd (validateEvent_collect ctx ev))
           <-> (List.length h < 32)%nat))
  /\ (forall d, spec_digest_ok d -> surrounds (ImageDigest (Detail ev)) d ->
      ~ In digest_violation (snd (validateEvent_collect ctx ev))).
Proof.
  assert (Hiff : In digest_violation (snd (validateEvent_collect ctx ev))
                 <-> ~ holds_digest_match (ImageDigest (Detail ev))).
  { rewrite digest_violation_iff. apply MatchString_false_iff. apply digest_re_search. }
  split; [exact Hiff|]. split; [|split].
  - intros Hn. apply (violation_fails ctx ev digest_violation). apply Hiff. exact Hn.
  - intros alg h E Ha F. rewrite digest_violation_iff.
    pose proof (digest_re_on_grammar _ alg h E Ha F) as Hg.
    destruct (Regexp.MatchString Patterns.digest_re (ImageDigest (Detail ev))).
    + split; [discriminate|]. intros L.
      assert (32 <= List.length h)%nat by (apply Hg; reflexivity). lia.
    + split; [|reflexivity]. intros _.
      destruct (Nat.lt_ge_cases (List.length h) 32) as [L|L]; [exact L|].
      apply Hg in L. discriminate.
  - intros d Hok Hs Hin. apply digest_violation_iff in Hin.
    rewrite (surrounded_digest_found _ d Hok Hs) in Hin. discriminate.
Qed.

(** C7 on the failing input and at the boundary: [@sha256:<32 hex>!] does
    not have the shape [<algorithm>:<hex>] and records no violation; 32 hex
    characters pass and 31 fail; and a digit, a hyphen or nothing before
    the colon is not taken for an algorithm. *)
Lemma C7_digest_pattern_is_searched_witness :
  ~ spec_digest_ok ("@sha256:" ++ Samples.hex32 ++ "!")
  /\ ~ In digest_violation
         (snd (validateEvent_collect Samples.ctx
                 (Samples.with_digest ("@sha256:" ++ Samples.hex32 ++ "!"))))
  /\ ~ In digest_violation
         (snd (validateEvent_collect Samples.ctx
                 (Samples.with_digest ("sha256:" ++ Samples.hex32))))
  /\ In digest_violation
       (snd (validateEvent_collect Samples.ctx
               (Samples.with_digest ("sha256:" ++ Samples.hex31))))
  /\ ~ holds_digest_match ("1:" ++ Samples.hex32)
  /\ ~ holds_digest_match ("sha-:" ++ Samples.hex32).
Proof.
  assert (Hsha : spec_digest_ok ("sha256:" ++ Samples.hex32)).
  { exists (list_ascii_of_string "sha256"), (list_ascii_of_string Samples.hex32).
    split; [reflexivity|]. split; [exact sha256_is_algorithm|].
    split; [reflexivity | vm_compute; lia]. }
  assert (E31 : list_ascii_of_string
                  (ImageDigest (Detail (Samples.with_digest ("sha256:" ++ Samples.hex31))))
                = list_ascii_of_string "sha256" ++ [":"%char]
                  ++ list_ascii_of_string Samples.hex31)
    by (vm_compute; reflexivity).
  assert (F31 : forallb is_hex (list_ascii_of_string Samples.hex31) = true)
    by (vm_compute; reflexivity).
  split; [|split; [|split; [|split; [|split]]]].
  - intros (alg & h & E & Ha & _).
    apply algorithm_starts_with_letter in Ha as (c & rest & -> & Hc).
    simpl in E. inversion E; subst c. vm_compute in Hc. discriminate.
  - refine (proj2 (proj2 (proj2 (C7_digest_pattern_is_searched Samples.ctx
              (Samples.with_digest ("@sha256:" ++ Samples.hex32 ++ "!")))))
              ("sha256:" ++ Samples.hex32)%string Hsha _).
    exists "@", "!". reflexivity.
  - refine (proj2 (proj2 (proj2 (C7_digest_pattern_is_searched Samples.ctx
              (Samples.with_digest ("sha256:" ++ Samples.hex32)))))
              ("sha256:" ++ Samples.hex32)%string Hsha _).
    exists "", "". reflexivity.
  - refine (proj2 (proj1 (proj2 (proj2 (C7_digest_pattern_is_searched Samples.ctx
              (Samples.with_digest ("sha256:" ++ Samples.hex31)))))
              _ _ E31 sha256_is_algorithm F31) _).
    vm_compute. lia.
  - refine (proj1 (proj1 (C7_digest_pattern_is_searched Samples.ctx
              (Samples.with_digest ("1:" ++ Samples.hex32)))) _).
    vm_compute. left. reflexivity.
  - refine (proj1 (proj1 (C7_digest_pattern_is_searched Samples.ctx
              (Samples.with_digest ("sha-:" ++ Samples.hex32)))) _).
    vm_compute. left. reflexivity.
Defined.

(* ================================================================== *)
(** * Further facts about the handler *)
(* ================================================================== *)

Module MoreFacts.
Import Regexp Patterns.

Lemma matches_rep_at_most_nil r n : matches (rep_at_most n r) [].
Proof. destruct n; simpl; [constructor | apply MAltL; constructor]. Qed.

(** The repository pattern finds a lower-case letter or a digit, anywhere. *)
Lemma repository_re_search (s : string) :
  MatchString repository_re s = true <-> has_run is_lower_alnum 1 s.
Proof.
  unfold MatchString, has_run. rewrite search_spec. split.
  - intros (pre & p & post & E & H).
    unfold repository_re, repo_component, plus in H.
    apply matches_Cat_inv in H as (s1 & s2 & -> & _ & H).
    apply matches_Cat_inv in H as (s3 & s4 & -> & H & _).
    apply matches_Cat_inv in H as (s5 & s6 & -> & H & _).
    apply matches_Cls_inv in H as (c & -> & Hc).
    exists (pre ++ s1), [c], (s6 ++ s4 ++ post). repeat split.
    + rewrite E, <- !app_assoc. reflexivity.
    + simpl. unfold is_lower_alnum. rewrite Hc. reflexivity.
  - intros (pre & run & post & E & L & F).
    destruct run as [|c [|c' run]]; try discriminate L.
    simpl in F. rewrite andb_true_r in F.
    exists pre, [c], post. split; [exact E|].
    unfold repository_re, repo_component, plus.
    change [c] with ([] ++ (([c] ++ []) ++ [])).
    constructor; [constructor|].
    constructor; [|constructor].
    constructor; [constructor; exact F | constructor].
Qed.

(** The tag pattern finds a letter, a digit or an underscore, anywhere. *)
Lemma tag_re_search (s : string) :
  MatchString tag_re s = true <-> has_run is_tag_start 1 s.
Proof.
  unfold MatchString, has_run. rewrite search_spec. split.
  - intros (pre & p & post & E & H).
    unfold tag_re in H.
    apply matches_Cat_inv in H as (s1 & s2 & -> & H & _).
    apply matches_Cls_inv in H as (c & -> & Hc).
    exists pre, [c], (s2 ++ post). repeat split.
    + rewrite E, <- !app_assoc. reflexivity.
    + simpl. unfold is_tag_start. rewrite Hc. reflexivity.
  - intros (pre & run & post & E & L & F).
    destruct run as [|c [|c' run]]; try discriminate L.
    simpl in F. rewrite andb_true_r in F.
    exists pre, [c], post. split; [exact E|].
    unfold tag_re. change [c] with ([c] ++ []).
    constructor; [constructor; exact F | apply matches_rep_at_most_nil].
Qed.

Lemma has_run_nonempty p n s : has_run p (S n) s -> s <> "".
Proof.
  intros (pre & run & post & E & L & _) ->. simpl in E.
  destruct pre; destruct run; simpl in *; discriminate.
Qed.

Lemma when_app_nil b e r : when b e ++ r = [] <-> b = false /\ r = [].
Proof.
  destruct b; simpl; split.
  - discriminate.
  - intros [H _]. discriminate.
  - auto.
  - intros [_ H]. exact H.
Qed.

Lemma hd_error_None {A} (l : list A) : hd_error l = None <-> l = [].
Proof. destruct l; simpl; split; congruence. Qed.

Lemma repository_violation_iff ctx ev :
  In repository_violation (snd (validateEvent_collect ctx ev)) <->
  MatchString repository_re (RepositoryName (Detail ev)) = false.
Proof.
  rewrite validateEvent_collect_eq. cbn [snd].
  unfold account_violation, digest_violation, source_violation, repository_violation.
  rewrite !in_skip by discriminate.
  rewrite in_here, negb_true_iff; [tauto|].
  rewrite !in_skip by discriminate.
  rewrite in_last_skip by discriminate. tauto.
Qed.

Lemma tag_violation_iff ctx ev :
  In tag_violation (snd (validateEvent_collect ctx ev)) <->
  (ImageTag (Detail ev) =? "") = false /\
  MatchString tag_re (ImageTag (Detail ev)) = false.
Proof.
  rewrite validateEvent_collect_eq. cbn [snd].
  unfold account_violation, digest_violation, source_violation, tag_violation.
  rewrite !in_skip by discriminate.
  rewrite In_when, andb_true_iff, !negb_true_iff. tauto.
Qed.

(** Validation passes exactly when every rule holds. *)
Lemma validateEvent_None_iff ctx ev :
  snd (validateEvent ctx ev) = None <->
  (Source ev =? "aws.ecr") = true /\ (Account ev =? "") = false /\
  (DetailType ev =? "ECR Image Action") = true /\
  (ActionType (Detail ev) =? "PUSH") = true /\
  (Result (Detail ev) =? "SUCCESS") = true /\
  (RepositoryName (Detail ev) =? "") = false /\
  (ImageDigest (Detail ev) =? "") = false /\
  MatchString account_re (Account ev) = true /\
  MatchString repository_re (RepositoryName (Detail ev)) = true /\
  MatchString digest_re (ImageDigest (Detail ev)) = true /\
  ((ImageTag (Detail ev) =? "") = true \/
   MatchString tag_re (ImageTag (Detail ev)) = true).
Proof.
  rewrite validateEvent_snd. unfold error. rewrite hd_error_None, validateEvent_collect_eq. cbn [snd].
  rewrite !when_app_nil.
  assert (Hlast : forall b e, when b e = [] <-> b = false)
    by (intros [] e; simpl; split; congruence).
  rewrite Hlast, !negb_false_iff, andb_false_iff, !negb_false_iff. tauto.
Qed.

End MoreFacts.
Import MoreFacts.

Module ShapeFacts.

(** The V2 tag gate, as a computation: what it returns and logs. *)
Lemma gate_cases w ctx1 :
  let gate :=
    (if w_Getenv w SociIndexVersion =? "V2"
     then match Value ctx1 ImageTagKey with
          | Some originalTag =>
              if originalTag =? ""
              then (log_Info ctx1 "Skipping SOCI index generation for V2 as image has no tag";;;
                    ret None)%go
              else (log_Info ctx1 ("Using original image tag with suffix: " ++ originalTag ++ "-soci");;;
                    ret (Some (originalTag ++ "-soci")%string))%go
          | None => (log_Info ctx1 "Skipping SOCI index generation for V2 as image has no tag";;;
                     ret None)%go
          end
     else ret (Some "")) in
  (w_Getenv w SociIndexVersion = "V2" /\
   (Value ctx1 ImageTagKey = None \/ Value ctx1 ImageTagKey = Some ""))
  \/ exists tag logged, gate_passes w ctx1 tag logged /\ gate = (Some tag, logged).
Proof.
  cbv zeta. destruct (w_Getenv w SociIndexVersion =? "V2") eqn:Ev.
  - apply String.eqb_eq in Ev.
    destruct (Value ctx1 ImageTagKey) as [t|] eqn:Et; [|left; auto].
    destruct (t =? "") eqn:E0.
    + apply String.eqb_eq in E0. subst t. left. auto.
    + right. eexists. eexists. split; [|reflexivity].
      right. split; [rewrite Ev; reflexivity|]. exists t. auto.
  - right. exists "", []. split; [|reflexivity]. left. auto.
Qed.

(** Every invocation has one of six shapes, by the stage it ends at. *)
Lemma HandleRequest_shape w ctx ev :
  let ctx1 := WithValue (fst (validateEvent ctx ev)) RegistryURLKey (buildEcrRegistryUrl ev) in
  (exists e, snd (validateEvent ctx ev) = Some e /\
     HandleRequest w ctx ev =
       (("ECRImageActionEvent validation error", Some e),
        [CLog LError "ECRImageActionEvent validation error" (Some e)]))
  \/ (snd (validateEvent ctx ev) = None /\
      ((exists e, w_RegistryInit w (buildEcrRegistryUrl ev) = Some e /\
          HandleRequest w ctx ev =
            (("Remote registry initialization error", Some e),
             [CGetenv SociIndexVersion;
              CLog LInfo ("Using SOCI index version: " ++ w_Getenv w SociIndexVersion) None;
              CRegistryInit (buildEcrRegistryUrl ev);
              CLog LError "Remote registry initialization error" (Some e)]))
       \/ (w_RegistryInit w (buildEcrRegistryUrl ev) = None /\
           ((exists e,
               w_ValidateImageDigest w (RepositoryName (Detail ev)) (ImageDigest (Detail ev))
                 (w_Getenv w SociIndexVersion) = Some e /\
               HandleRequest w ctx ev =
                 (("Exited early due to manifest validation error", None),
                  prologue w ev
                  ++ [CLog LWarn ("Image manifest validation error: " ++ Error e) None]))
            \/ (w_ValidateImageDigest w (RepositoryName (Detail ev)) (ImageDigest (Detail ev))
                  (w_Getenv w SociIndexVersion) = None /\
                ((w_Getenv w SociIndexVersion = "V2" /\
                  (Value ctx1 ImageTagKey = None \/ Value ctx1 ImageTagKey = Some "") /\
                  HandleRequest w ctx ev =
                    (("Skipped SOCI index generation for V2 as image has no tag", None),
                     prologue w ev
                     ++ [CLog LInfo "Skipping SOCI index generation for V2 as image has no tag"
                           None]))
                 \/ exists tag logged dataDir,
                      gate_passes w ctx1 tag logged /\
                      ((exists e,
                          w_MkdirTemp w "/tmp" (ctx_AwsRequestID ctx) = (dataDir, Some e) /\
                          HandleRequest w ctx ev =
                            (("Directory create error", Some e),
                             prologue w ev ++ logged ++ snd (createTempDir w ctx1)
                             ++ [CLog LError "Directory create error" (Some e)]))
                       \/ (w_MkdirTemp w "/tmp" (ctx_AwsRequestID ctx) = (dataDir, None) /\
                           HandleRequest w ctx ev =
                             (fst (HandleRequest_work w ctx1 dataDir (RepositoryName (Detail ev))
                                     (ImageDigest (Detail ev)) (w_Getenv w SociIndexVersion) tag),
                              prologue w ev ++ logged ++ snd (createTempDir w ctx1)
                              ++ snd (HandleRequest_work w ctx1 dataDir
                                        (RepositoryName (Detail ev)) (ImageDigest (Detail ev))
                                        (w_Getenv w SociIndexVersion) tag)
                              ++ CQuitSend :: after_send w ctx1 dataDir))))))))).
Proof.
  cbv zeta.
  pose proof (validateEvent_request_id ctx ev) as Hid.
  destruct (snd (validateEvent ctx ev)) as [e|] eqn:H.
  { left. exists e. split; [reflexivity|]. apply HandleRequest_invalid. exact H. }
  right. split; [reflexivity|].
  unfold HandleRequest.
  destruct (validateEvent ctx ev) as [ctx' err]. cbn [fst snd] in *. subst err.
  set (ctx1 := WithValue ctx' RegistryURLKey (buildEcrRegistryUrl ev)).
  destruct (w_RegistryInit w (buildEcrRegistryUrl ev)) as [e|] eqn:Hi.
  { left. exists e. split; [reflexivity|].
    cbn [bind os_Getenv call log_Info registryutils_Init ret app]. rewrite Hi. reflexivity. }
  right. split; [reflexivity|].
  destruct (w_ValidateImageDigest w (RepositoryName (Detail ev)) (ImageDigest (Detail ev))
              (w_Getenv w SociIndexVersion)) as [e|] eqn:Hc.
  { left. exists e. split; [reflexivity|].
    cbn [bind os_Getenv call log_Info registryutils_Init registry_ValidateImageDigest ret app].
    rewrite Hi.
    cbn [bind os_Getenv call log_Info registryutils_Init registry_ValidateImageDigest ret app].
    rewrite Hc. reflexivity. }
  right. split; [reflexivity|].
  cbn [bind os_Getenv call log_Info registryutils_Init registry_ValidateImageDigest ret app].
  rewrite Hi.
  cbn [bind os_Getenv call log_Info registryutils_Init registry_ValidateImageDigest ret app].
  rewrite Hc.
  destruct (gate_cases w ctx1) as [[Hv Ht] | (tag & logged & Hg & Eg)].
  - left. split; [exact Hv|]. split; [exact Ht|].
    unfold prologue. rewrite Hv. cbn [String.eqb Ascii.eqb Bool.eqb].
    destruct Ht as [-> | ->]; reflexivity.
  - right. cbv zeta in Eg.
    cbn [bind os_Getenv call log_Info registryutils_Init registry_ValidateImageDigest ret app]
      in Eg.
    rewrite Eg.
    assert (Etmp : fst (createTempDir w ctx1) = w_MkdirTemp w "/tmp" (ctx_AwsRequestID ctx)).
    { rewrite createTempDir_fst. subst ctx1. cbn [ctx_AwsRequestID WithValue].
      rewrite Hid. reflexivity. }
    destruct (createTempDir w ctx1) as [[dataDir err] tr] eqn:E.
    cbn [fst snd] in Etmp. exists tag, logged, dataDir.
    split; [exact Hg|].
    destruct err as [e|].
    + left. exists e. split; [symmetry; exact Etmp|].
      unfold prologue. cbn [bind call ret app lambdaError log_Error fst snd].
      reflexivity.
    + right. split; [symmetry; exact Etmp|].
      unfold prologue. cbn [bind call ret app fst snd].
      destruct (HandleRequest_work w ctx1 dataDir (RepositoryName (Detail ev))
                  (ImageDigest (Detail ev)) (w_Getenv w SociIndexVersion) tag) as [res trw].
      cbn [bind call ret app fst snd].
      rewrite deferred_calls. cbn [bind call ret app fst snd].
      rewrite <- ?app_assoc, ?app_nil_r. reflexivity.
Qed.

End ShapeFacts.
Import ShapeFacts.

Module WorkFacts.

Lemma count_calls_app p t1 t2 :
  count_calls p (t1 ++ t2) = (count_calls p t1 + count_calls p t2)%nat.
Proof. unfold count_calls. rewrite filter_app, length_app. reflexivity. Qed.

Lemma count_calls_zero p t :
  (forall c, In c t -> p c = false) -> count_calls p t = 0%nat.
Proof.
  unfold count_calls. induction t as [|c t IH]; intros H; simpl; [reflexivity|].
  rewrite (H c (or_introl eq_refl)). apply IH. intros c' Hc'. apply H. right. exact Hc'.
Qed.

(** [createTempDir]: its calls, in order. *)
Lemma createTempDir_calls w ctx :
  snd (createTempDir w ctx) =
    [CCalculateFreeSpace "/tmp";
     CLog LInfo ("There are " ++ fmt_d (w_CalculateFreeSpace w "/tmp")
                 ++ " bytes of free space in /tmp directory") None]
    ++ (if (w_CalculateFreeSpace w "/tmp" <? 6000000000)%Z
        then [CLog LWarn ("Free space in /tmp is only " ++ fmt_d (w_CalculateFreeSpace w "/tmp")
                          ++ " bytes, which is less than 6GB") None]
        else [])
    ++ [CLog LInfo "Creating a directory to store images and SOCI artifacts" None;
        CMkdirTemp "/tmp" (ctx_AwsRequestID ctx)].
Proof.
  unfold_stages. cbn [bind call ret app fst snd].
  destruct (w_CalculateFreeSpace w "/tmp" <? 6000000000)%Z; reflexivity.
Qed.

(** [cleanUp]: its calls, in order. *)
Lemma cleanUp_calls w ctx dir :
  snd (cleanUp w ctx dir) =
    [CLog LInfo ("Removing all files in " ++ dir) None; CRemoveAll dir]
    ++ match w_RemoveAll w dir with
       | Some e => [CLog LError "Clean up error" (Some e)]
       | None => []
       end.
Proof.
  unfold_stages. cbn [bind call ret app fst snd].
  destruct (w_RemoveAll w dir); reflexivity.
Qed.

(** The work phase starts the goroutine first, and once. *)
Lemma work_starts_goroutine w ctx dataDir repo digest ver tag :
  exists rest,
    snd (HandleRequest_work w ctx dataDir repo digest ver tag)
      = CGoDeadline (deadline_timer w ctx) dataDir :: rest
    /\ forall c, In c rest ->
         is_go_deadline c = false /\ is_remove_all c = false /\ is_quit_send c = false
         /\ is_mkdir_temp c = false /\ is_registry_init c = false /\ is_check c = false.
Proof.
  unfold_stages.
  case_answers; eexists; (split; [reflexivity|]); cbn [In];
    intros c Hin; repeat destruct Hin as [<- | Hin]; try contradiction;
    repeat split; reflexivity.
Qed.

(** The work phase pulls, builds and pushes at most once each. *)
Lemma work_no_retry w ctx dataDir repo digest ver tag :
  (count_calls is_pull (snd (HandleRequest_work w ctx dataDir repo digest ver tag)) <= 1)%nat
  /\ (count_calls is_build (snd (HandleRequest_work w ctx dataDir repo digest ver tag)) <= 1)%nat
  /\ (count_calls is_push (snd (HandleRequest_work w ctx dataDir repo digest ver tag)) <= 1)%nat.
Proof.
  unfold_stages.
  case_answers; unfold count_calls; cbn; lia.
Qed.

(** The outcome of the work phase: a nil error goes with the skip or the
    success message, a non-nil one with one of four labels. *)
Lemma work_outcome w ctx dataDir repo digest ver tag :
  let r := fst (HandleRequest_work w ctx dataDir repo digest ver tag) in
  (snd r = None /\ (fst r = SkipPushOnEmptyIndexMessage \/ fst r = BuildAndPushSuccessMessage))
  \/ (snd r <> None /\
      (fst r = "OCI storage initialization error" \/ fst r = "Image pull error"
       \/ fst r = BuildFailedMessage \/ fst r = PushFailedMessage)).
Proof.
  cbv zeta. unfold_stages.
  case_answers;
    first [ left; split; [reflexivity|]; first [left; reflexivity | right; reflexivity]
          | right; split; [discriminate|];
            first [ left; reflexivity | right; left; reflexivity
                  | right; right; left; reflexivity | right; right; right; reflexivity ] ].
Qed.

End WorkFacts.
Import WorkFacts.

Module WorkFacts2.

Ltac split_membership Hin :=
  cbn [In] in Hin; repeat (destruct Hin as [Hin | Hin]);
  try discriminate Hin; try contradiction.

Ltac no_such_call :=
  let c := fresh "c" in let Hin := fresh "Hin" in
  intros c Hin; cbn [In] in Hin;
  repeat (destruct Hin as [<- | Hin]); try reflexivity; try contradiction.

(** Two answers of the world to the same call agree. *)
Ltac same_answer :=
  cbn [String.append] in *;
  try match goal with
      | H : (Error _ =? Error ErrEmptyIndex) = true |- _ => cbn in H; discriminate H
      end;
  repeat match goal with
  | H1 : ?x = _, H2 : ?x = _ |- _ =>
      rewrite H1 in H2; first [discriminate H2 | injection H2 as ?; subst]
  end.

(** A failed store initialisation or pull ends the work phase under its
    label, before any build or push. *)
Lemma work_store_or_pull_failed w ctx dataDir repo digest ver tag e :
  (forall p, In (COciNew p) (snd (HandleRequest_work w ctx dataDir repo digest ver tag)) ->
     w_OciNew w p = Some e ->
     fst (HandleRequest_work w ctx dataDir repo digest ver tag)
       = ("OCI storage initialization error", Some e)
     /\ forall c, In c (snd (HandleRequest_work w ctx dataDir repo digest ver tag)) ->
          is_pull_build_push c = false)
  /\
  (forall r s d, In (CPull r s d) (snd (HandleRequest_work w ctx dataDir repo digest ver tag)) ->
     w_Pull w r s d = Fail e ->
     fst (HandleRequest_work w ctx dataDir repo digest ver tag) = ("Image pull error", Some e)
     /\ forall c, In c (snd (HandleRequest_work w ctx dataDir repo digest ver tag)) ->
          is_build c = false /\ is_push c = false).
Proof.
  split.
  - intros p. unfold_stages. case_answers; intros Hin Hf; split_membership Hin;
      injection Hin as <-; same_answer.
    split; [reflexivity | no_such_call].
  - intros r s d. unfold_stages. case_answers; intros Hin Hf; split_membership Hin;
      injection Hin as <- <- <-; same_answer.
    split; [reflexivity |].
    intros c Hin; cbn [In] in Hin;
      repeat (destruct Hin as [<- | Hin]); try contradiction; split; reflexivity.
Qed.

(** The push decides between the push label and success. *)
Lemma work_push_answer w ctx dataDir repo digest ver tag s d r t :
  In (CPush s d r t) (snd (HandleRequest_work w ctx dataDir repo digest ver tag)) ->
  fst (HandleRequest_work w ctx dataDir repo digest ver tag)
    = match w_Push w s d r t with
      | Some e => (PushFailedMessage, Some e)
      | None => (BuildAndPushSuccessMessage, None)
      end.
Proof.
  unfold_stages. case_answers; intros Hin; split_membership Hin;
    injection Hin as <- <- <- <-; same_answer; reflexivity.
Qed.

(** A failure of the builder comes back wrapped, under the build label, and
    nothing is pushed. *)
Lemma work_builder_failed w ctx dataDir repo digest ver tag e :
  (forall image p, In (CBuild image p) (snd (HandleRequest_work w ctx dataDir repo digest ver tag)) ->
     w_Build w image p = Fail e ->
     fst (HandleRequest_work w ctx dataDir repo digest ver tag)
       = (BuildFailedMessage, Some (fmt_Errorf_w "failed to build SOCI index: " e))
     /\ forall c, In c (snd (HandleRequest_work w ctx dataDir repo digest ver tag)) ->
          is_push c = false)
  /\
  (forall image, In (CConvert image) (snd (HandleRequest_work w ctx dataDir repo digest ver tag)) ->
     w_Convert w image = Fail e ->
     fst (HandleRequest_work w ctx dataDir repo digest ver tag)
       = (BuildFailedMessage, Some (fmt_Errorf_w "failed to convert OCI index: " e))
     /\ forall c, In c (snd (HandleRequest_work w ctx dataDir repo digest ver tag)) ->
          is_push c = false).
Proof.
  split.
  - intros image p. unfold_stages. case_answers; intros Hin Hf; split_membership Hin;
      injection Hin as <- <-; same_answer.
    split; [reflexivity | no_such_call].
  - intros image. unfold_stages. case_answers; intros Hin Hf; split_membership Hin;
      injection Hin as <-; same_answer.
    split; [reflexivity | no_such_call].
Qed.

End WorkFacts2.
Import WorkFacts2.

Module WorkFacts3.

(** A build that leaves no record in the database is an error. *)
Lemma work_no_records w ctx dataDir repo digest ver tag image p :
  In (CGetIndexDescriptorCollection image p)
     (snd (HandleRequest_work w ctx dataDir repo digest ver tag)) ->
  w_GetIndexDescriptorCollection w image p = Ok [] ->
  fst (HandleRequest_work w ctx dataDir repo digest ver tag)
    = (BuildFailedMessage, Some (errors_New "no SOCI indices found in OCI store"))
  /\ forall c, In c (snd (HandleRequest_work w ctx dataDir repo digest ver tag)) ->
       is_push c = false.
Proof.
  unfold_stages. case_answers; intros Hin Hf; split_membership Hin;
    injection Hin as <- <-; same_answer.
  split; [reflexivity | no_such_call].
Qed.

(** A failure to open the artifacts database comes back as it is, before
    the builder is called; whether it counts as an empty index is decided
    on its text. *)
Lemma work_database_failed w ctx dataDir repo digest ver tag p e :
  In (CNewDB p) (snd (HandleRequest_work w ctx dataDir repo digest ver tag)) ->
  w_NewDB w p = Some e ->
  fst (HandleRequest_work w ctx dataDir repo digest ver tag)
    = (if Error e =? Error ErrEmptyIndex
       then (SkipPushOnEmptyIndexMessage, None)
       else (BuildFailedMessage, Some e))
  /\ forall c, In c (snd (HandleRequest_work w ctx dataDir repo digest ver tag)) ->
       is_build c = false /\ is_push c = false.
Proof.
  unfold_stages. case_answers; intros Hin Hf; split_membership Hin;
    injection Hin as <-; same_answer;
    (split; [reflexivity |
      intros c Hin; cbn [In] in Hin;
      repeat (destruct Hin as [<- | Hin]); try contradiction; split; reflexivity]).
Qed.

(** What each strategy calls and pushes. *)
Lemma work_strategy w ctx dataDir repo digest ver tag :
  ((ver =? "V2") = true ->
     (forall c, In c (snd (HandleRequest_work w ctx dataDir repo digest ver tag)) ->
        is_legacy_build c = false /\ is_database_query c = false)
     /\ forall s d r t,
          In (CPush s d r t) (snd (HandleRequest_work w ctx dataDir repo digest ver tag)) ->
          exists image,
            In (CConvert image) (snd (HandleRequest_work w ctx dataDir repo digest ver tag))
            /\ w_Convert w image = Ok d)
  /\
  ((ver =? "V2") = false ->
     (forall c, In c (snd (HandleRequest_work w ctx dataDir repo digest ver tag)) ->
        is_convert c = false)
     /\ forall s d r t,
          In (CPush s d r t) (snd (HandleRequest_work w ctx dataDir repo digest ver tag)) ->
          exists image p records record,
            In (CGetIndexDescriptorCollection image p)
               (snd (HandleRequest_work w ctx dataDir repo digest ver tag))
            /\ w_GetIndexDescriptorCollection w image p = Ok records
            /\ In record records /\ d = Descriptor record).
Proof.
  split; intros Hv.
  - split.
    + unfold_stages. rewrite Hv. case_answers;
        intros c Hin; cbn [In] in Hin;
        repeat (destruct Hin as [<- | Hin]); try contradiction; split; reflexivity.
    + intros s d r t. unfold_stages. rewrite Hv. case_answers; intros Hin;
        split_membership Hin; injection Hin as <- <- <- <-;
        (eexists; split; [cbn [In]; repeat (first [left; reflexivity | right]) | eassumption]).
  - split.
    + unfold_stages. rewrite Hv. case_answers;
        intros c Hin; cbn [In] in Hin;
        repeat (destruct Hin as [<- | Hin]); try contradiction; reflexivity.
    + intros s d r t. unfold_stages. rewrite Hv. case_answers; intros Hin;
        split_membership Hin; injection Hin as <- <- <- <-;
        (do 4 eexists; split;
         [cbn [In]; repeat (first [left; reflexivity | right])
         | split; [eassumption | split; [|reflexivity]]]);
        match goal with
        | H : ?l = ?x :: ?rest |- In (last (sort_Slice _ _ (?x :: ?rest)) ?x) _ =>
            apply (sort_Slice_last CreatedAt _ (x :: rest) x); discriminate
        end.
Qed.

(** The empty-index skip never follows a call of the converter, nor a
    failed call of the legacy builder; it comes with a nil error and
    without a push. *)
Lemma work_skip_provenance w ctx dataDir repo digest ver tag :
  fst (fst (HandleRequest_work w ctx dataDir repo digest ver tag)) = SkipPushOnEmptyIndexMessage ->
  snd (fst (HandleRequest_work w ctx dataDir repo digest ver tag)) = None
  /\ (forall c, In c (snd (HandleRequest_work w ctx dataDir repo digest ver tag)) ->
        is_push c = false /\ is_convert c = false)
  /\ (forall image p,
        In (CBuild image p) (snd (HandleRequest_work w ctx dataDir repo digest ver tag)) ->
        exists d, w_Build w image p = Ok d).
Proof.
  unfold_stages. case_answers; intros Hs; try discriminate Hs; same_answer;
    (split; [reflexivity|]; split;
     [ intros c Hin; cbn [In] in Hin;
       repeat (destruct Hin as [<- | Hin]); try contradiction; split; reflexivity
     | intros image p Hin; split_membership Hin; injection Hin as <- <-;
       eexists; eassumption ]).
Qed.

End WorkFacts3.
Import WorkFacts3.

Module InvocationFacts.

Lemma createTempDir_plain w ctx c :
  In c (snd (createTempDir w ctx)) ->
  plain c /\ is_registry_init c = false /\ is_check c = false.
Proof.
  rewrite createTempDir_calls.
  destruct (w_CalculateFreeSpace w "/tmp" <? 6000000000)%Z; cbn [app In]; intros Hin;
    repeat (destruct Hin as [<- | Hin]); try contradiction; repeat split; reflexivity.
Qed.

Lemma createTempDir_one_mkdir w ctx :
  count_calls is_mkdir_temp (snd (createTempDir w ctx)) = 1%nat.
Proof.
  rewrite createTempDir_calls.
  destruct (w_CalculateFreeSpace w "/tmp" <? 6000000000)%Z; reflexivity.
Qed.

Lemma cleanUp_census w ctx dir :
  count_calls is_remove_all (snd (cleanUp w ctx dir)) = 1%nat
  /\ forall c, In c (snd (cleanUp w ctx dir)) ->
       is_work_call c = false /\ is_quit_send c = false /\ is_go_deadline c = false
       /\ is_pull_build_push c = false /\ is_registry_init c = false /\ is_check c = false
       /\ is_mkdir_temp c = false
       /\ (is_remove_all c = true -> c = CRemoveAll dir).
Proof.
  rewrite cleanUp_calls. destruct (w_RemoveAll w dir); (split; [reflexivity|]);
    cbn [app In]; intros c Hin;
    repeat (destruct Hin as [<- | Hin]); try contradiction;
    repeat split; try reflexivity; discriminate.
Qed.

(** What follows the send is [cleanUp] or nothing: it removes at most the
    directory, once. *)
Lemma after_send_census w ctx dir :
  forall c, In c (after_send w ctx dir) ->
    is_work_call c = false /\ is_quit_send c = false /\ is_go_deadline c = false
    /\ is_pull_build_push c = false /\ is_registry_init c = false /\ is_check c = false
    /\ is_mkdir_temp c = false
    /\ (is_remove_all c = true -> c = CRemoveAll dir).
Proof.
  unfold after_send. destruct (selected w ctx).
  - intros c [<- | []]. repeat split; try reflexivity. discriminate.
  - apply cleanUp_census.
Qed.

Lemma after_send_removals w ctx dir :
  count_calls is_remove_all (after_send w ctx dir)
  = match selected w ctx with
    | case_quitChannel => 1%nat
    | case_timeoutChannel => 0%nat
    end.
Proof.
  unfold after_send. destruct (selected w ctx); [reflexivity|].
  apply cleanUp_census.
Qed.

Lemma gate_logged_plain w ctx1 tag logged c :
  gate_passes w ctx1 tag logged -> In c logged ->
  plain c /\ is_registry_init c = false /\ is_check c = false /\ is_mkdir_temp c = false.
Proof.
  intros [(_ & _ & ->) | (_ & t & _ & _ & _ & ->)]; cbn [In]; intros Hin;
    repeat (destruct Hin as [<- | Hin]); try contradiction; repeat split; reflexivity.
Qed.

Lemma prologue_plain w ev c :
  In c (prologue w ev) -> plain c /\ is_mkdir_temp c = false.
Proof.
  unfold prologue. cbn [In]. intros Hin.
  repeat (destruct Hin as [<- | Hin]); try contradiction; repeat split; reflexivity.
Qed.

(** A call that only the work phase makes shows that the invocation got
    there: the directory was created and the trace has the full shape. *)
Lemma reached_work w ctx ev c :
  is_work_call c = true -> In c (snd (HandleRequest w ctx ev)) ->
  exists tag logged dataDir,
    let ctx1 := WithValue (fst (validateEvent ctx ev)) RegistryURLKey (buildEcrRegistryUrl ev) in
    let work := HandleRequest_work w ctx1 dataDir (RepositoryName (Detail ev))
                  (ImageDigest (Detail ev)) (w_Getenv w SociIndexVersion) tag in
    gate_passes w ctx1 tag logged
    /\ w_MkdirTemp w "/tmp" (ctx_AwsRequestID ctx) = (dataDir, None)
    /\ HandleRequest w ctx ev =
         (fst work,
          prologue w ev ++ logged ++ snd (createTempDir w ctx1) ++ snd work
          ++ CQuitSend :: after_send w ctx1 dataDir)
    /\ In c (snd work).
Proof.
  intros Hw.
  destruct (HandleRequest_shape w ctx ev)
    as [(e & _ & ->)
       | (_ & [(e & _ & ->)
              | (_ & [(e & _ & ->)
                     | (_ & [(_ & _ & ->)
                            | (tag & logged & dataDir & Hg &
                               [(e & _ & ->) | (Hd & E)])])])])];
    cbn [snd].
  1-2: cbn [In]; intros Hin; repeat (destruct Hin as [<- | Hin]); try contradiction;
       discriminate Hw.
  1-2: intros Hin; apply in_app_or in Hin as [Hin | Hin];
       [ apply prologue_plain in Hin as [(N & _) _]; congruence
       | cbn [In] in Hin; repeat (destruct Hin as [<- | Hin]); try contradiction;
         discriminate Hw ].
  - intros Hin.
    apply in_app_or in Hin as [Hin | Hin];
      [apply prologue_plain in Hin as [(N & _) _]; congruence|].
    apply in_app_or in Hin as [Hin | Hin];
      [apply (gate_logged_plain _ _ _ _ _ Hg) in Hin as [(N & _) _]; congruence|].
    apply in_app_or in Hin as [Hin | Hin];
      [apply createTempDir_plain in Hin as [(N & _) _]; congruence|].
    cbn [In] in Hin. destruct Hin as [<- | []]. discriminate Hw.
  - rewrite E. cbn [snd]. intros Hin.
    exists tag, logged, dataDir. cbv zeta.
    split; [exact Hg|]. split; [exact Hd|]. split; [reflexivity|].
    apply in_app_or in Hin as [Hin | Hin];
      [apply prologue_plain in Hin as [(N & _) _]; congruence|].
    apply in_app_or in Hin as [Hin | Hin];
      [apply (gate_logged_plain _ _ _ _ _ Hg) in Hin as [(N & _) _]; congruence|].
    apply in_app_or in Hin as [Hin | Hin];
      [apply createTempDir_plain in Hin as [(N & _) _]; congruence|].
    apply in_app_or in Hin as [Hin | Hin]; [exact Hin|].
    cbn [In] in Hin. destruct Hin as [<- | Hin]; [discriminate Hw|].
    apply after_send_census in Hin as (N & _). congruence.
Qed.

End InvocationFacts.
Import InvocationFacts.

Module Census.

Lemma pbp_false c :
  is_pull_build_push c = false ->
  is_pull c = false /\ is_build c = false /\ is_push c = false.
Proof.
  unfold is_pull_build_push. destruct (is_pull c), (is_build c), (is_push c);
    simpl; intros H; try discriminate H; auto.
Qed.

(** The calls up to the creation of the directory, counted: one registry
    session, one check, one directory creation, and nothing of the work
    phase or of the release. *)
Lemma census_approach w ctx1 ev tag logged :
  gate_passes w ctx1 tag logged ->
  let approach := prologue w ev ++ logged ++ snd (createTempDir w ctx1) in
  count_calls is_registry_init approach = 1%nat
  /\ count_calls is_check approach = 1%nat
  /\ count_calls is_mkdir_temp approach = 1%nat
  /\ forall c, In c approach -> plain c.
Proof.
  intros Hg. cbv zeta.
  rewrite !count_calls_app, createTempDir_one_mkdir.
  assert (Hl : forall c, In c logged ->
            plain c /\ is_registry_init c = false /\ is_check c = false
            /\ is_mkdir_temp c = false)
    by (intros c; apply (gate_logged_plain _ _ _ _ _ Hg)).
  assert (Ht : forall c, In c (snd (createTempDir w ctx1)) ->
            plain c /\ is_registry_init c = false /\ is_check c = false)
    by (intros c; apply createTempDir_plain).
  repeat split.
  - rewrite (count_calls_zero _ logged), (count_calls_zero _ (snd (createTempDir w ctx1)));
      [reflexivity | |]; intros c Hc; [apply Ht in Hc | apply Hl in Hc]; tauto.
  - rewrite (count_calls_zero _ logged), (count_calls_zero _ (snd (createTempDir w ctx1)));
      [reflexivity | |]; intros c Hc; [apply Ht in Hc | apply Hl in Hc]; tauto.
  - rewrite (count_calls_zero _ logged); [reflexivity|].
    intros c Hc; apply Hl in Hc; tauto.
  - apply in_app_or in H as [H | H]; [apply prologue_plain in H; apply H|].
    apply in_app_or in H as [H | H]; [apply Hl in H; apply H | apply Ht in H; apply H].
  - apply in_app_or in H as [H | H]; [apply prologue_plain in H; apply H|].
    apply in_app_or in H as [H | H]; [apply Hl in H; apply H | apply Ht in H; apply H].
  - apply in_app_or in H as [H | H]; [apply prologue_plain in H; apply H|].
    apply in_app_or in H as [H | H]; [apply Hl in H; apply H | apply Ht in H; apply H].
  - apply in_app_or in H as [H | H]; [apply prologue_plain in H; apply H|].
    apply in_app_or in H as [H | H]; [apply Hl in H; apply H | apply Ht in H; apply H].
  - apply in_app_or in H as [H | H]; [apply prologue_plain in H; apply H|].
    apply in_app_or in H as [H | H]; [apply Hl in H; apply H | apply Ht in H; apply H].
Qed.

(** The six shapes of an invocation, with the trace of the last two split
    into the approach, the work phase and the release. *)
Lemma HandleRequest_phases w ctx ev :
  (exists quiet, HandleRequest w ctx ev = (fst (HandleRequest w ctx ev), quiet)
     /\ (forall c, In c quiet -> plain c /\ is_mkdir_temp c = false)
     /\ (count_calls is_registry_init quiet <= 1)%nat
     /\ (count_calls is_check quiet <= 1)%nat)
  \/ exists tag logged dataDir ctx1,
       ctx1 = WithValue (fst (validateEvent ctx ev)) RegistryURLKey (buildEcrRegistryUrl ev)
       /\ gate_passes w ctx1 tag logged
       /\ ((exists e,
              w_MkdirTemp w "/tmp" (ctx_AwsRequestID ctx) = (dataDir, Some e)
              /\ HandleRequest w ctx ev =
                   (("Directory create error", Some e),
                    (prologue w ev ++ logged ++ snd (createTempDir w ctx1))
                    ++ [CLog LError "Directory create error" (Some e)]))
           \/ (w_MkdirTemp w "/tmp" (ctx_AwsRequestID ctx) = (dataDir, None)
               /\ HandleRequest w ctx ev =
                    (fst (HandleRequest_work w ctx1 dataDir (RepositoryName (Detail ev))
                            (ImageDigest (Detail ev)) (w_Getenv w SociIndexVersion) tag),
                     (prologue w ev ++ logged ++ snd (createTempDir w ctx1))
                     ++ snd (HandleRequest_work w ctx1 dataDir (RepositoryName (Detail ev))
                               (ImageDigest (Detail ev)) (w_Getenv w SociIndexVersion) tag)
                     ++ [CQuitSend] ++ after_send w ctx1 dataDir))).
Proof.
  destruct (HandleRequest_shape w ctx ev)
    as [(e & _ & E)
       | (_ & [(e & _ & E)
              | (_ & [(e & _ & E)
                     | (_ & [(_ & _ & E)
                            | (tag & logged & dataDir & Hg &
                               [(e & Hd & E) | (Hd & E)])])])])].
  1-4: left; rewrite E; eexists; (split; [reflexivity|]); unfold prologue;
       (split; [| unfold count_calls; cbn; lia]);
       intros c Hin; cbn [In app] in Hin;
       repeat (destruct Hin as [<- | Hin]); try contradiction; repeat split; reflexivity.
  - right. exists tag, logged, dataDir. eexists. split; [reflexivity|].
    split; [exact Hg|]. left. exists e. split; [exact Hd|].
    rewrite E, <- !app_assoc. reflexivity.
  - right. exists tag, logged, dataDir. eexists. split; [reflexivity|].
    split; [exact Hg|]. right. split; [exact Hd|].
    rewrite E, <- !app_assoc. reflexivity.
Qed.

End Census.
Import Census.

Module Lifting.

(** From a call of the work phase in the trace: the [return] statement sets
    what the work phase returns, and the work calls of the trace are those
    of the work phase. *)
Lemma through_work w ctx ev c :
  is_work_call c = true -> In c (snd (HandleRequest w ctx ev)) ->
  exists tag logged dataDir ctx1,
    gate_passes w ctx1 tag logged
    /\ w_MkdirTemp w "/tmp" (ctx_AwsRequestID ctx) = (dataDir, None)
    /\ let work := HandleRequest_work w ctx1 dataDir (RepositoryName (Detail ev))
                     (ImageDigest (Detail ev)) (w_Getenv w SociIndexVersion) tag in
       fst (HandleRequest w ctx ev) = fst work
       /\ In c (snd work)
       /\ (forall c', In c' (snd work) -> In c' (snd (HandleRequest w ctx ev)))
       /\ (forall c', In c' (snd (HandleRequest w ctx ev)) ->
             In c' (snd work) \/ is_work_call c' = false).
Proof.
  intros Hw Hin.
  destruct (reached_work w ctx ev c Hw Hin) as (tag & logged & dataDir & Hg & Hd & E & Hc).
  cbv zeta in *.
  exists tag, logged, dataDir. eexists. split; [exact Hg|]. split; [exact Hd|].
  rewrite E. cbn [fst snd]. split; [reflexivity|]. split; [exact Hc|]. split.
  - intros c' Hc'. apply in_or_app. right. apply in_or_app. right.
    apply in_or_app. right. apply in_or_app. left. exact Hc'.
  - intros c' Hc'.
    apply in_app_or in Hc' as [H | H];
      [right; apply prologue_plain in H as [(N & _) _]; exact N|].
    apply in_app_or in H as [H | H];
      [right; apply (gate_logged_plain _ _ _ _ _ Hg) in H as [(N & _) _]; exact N|].
    apply in_app_or in H as [H | H];
      [right; apply createTempDir_plain in H as [(N & _) _]; exact N|].
    apply in_app_or in H as [H | H]; [left; exact H|].
    right. destruct H as [<- | H]; [reflexivity|].
    apply after_send_census in H as (N & _). exact N.
Qed.

Lemma work_call_of_pbp c : is_pull_build_push c = true -> is_work_call c = true.
Proof. destruct c; simpl; intros H; try discriminate H; reflexivity. Qed.

End Lifting.
Import Lifting.

Module Outcome.

Lemma messages_disjoint m : In m quiet_messages -> In m failure_messages -> False.
Proof.
  unfold quiet_messages, failure_messages. cbn [In].
  intros Hq Hf.
  repeat (destruct Hq as [<- | Hq]); try contradiction;
    repeat (destruct Hf as [Hf | Hf]); try contradiction; discriminate Hf.
Qed.

Lemma HandleRequest_outcome w ctx ev :
  let r := fst (HandleRequest w ctx ev) in
  (snd r = None /\ In (fst r) quiet_messages)
  \/ (snd r <> None /\ In (fst r) failure_messages).
Proof.
  cbv zeta.
  destruct (HandleRequest_shape w ctx ev)
    as [(e & _ & ->)
       | (_ & [(e & _ & ->)
              | (_ & [(e & _ & ->)
                     | (_ & [(_ & _ & ->)
                            | (tag & logged & dataDir & Hg &
                               [(e & _ & ->) | (Hd & ->)])])])])];
    cbn [fst snd].
  1,2,5: right; split; [discriminate|]; unfold failure_messages; cbn [In]; tauto.
  1,2: left; split; [reflexivity|]; unfold quiet_messages; cbn [In]; tauto.
  destruct (work_outcome w
              (WithValue (fst (validateEvent ctx ev)) RegistryURLKey (buildEcrRegistryUrl ev))
              dataDir (RepositoryName (Detail ev)) (ImageDigest (Detail ev))
              (w_Getenv w SociIndexVersion) tag) as [(Hn & Hm) | (Hn & Hm)]; cbv zeta in *.
  - left. split; [exact Hn|]. unfold quiet_messages. cbn [In].
    destruct Hm as [-> | ->]; tauto.
  - right. split; [exact Hn|]. unfold failure_messages. cbn [In].
    destruct Hm as [-> | [-> | [-> | ->]]]; tauto.
Qed.

(** The answer of [os.RemoveAll] has no part in what the work phase
    returns. *)
Lemma work_ignores_RemoveAll w answer ctx dataDir repo digest ver tag :
  fst (HandleRequest_work (with_RemoveAll w answer) ctx dataDir repo digest ver tag)
  = fst (HandleRequest_work w ctx dataDir repo digest ver tag).
Proof.
  unfold_stages.
  change (@sort_Slice (with_RemoveAll w answer)) with (@sort_Slice w).
  unfold with_RemoveAll.
  cbn [w_OciNew w_Pull w_NewDB w_NewStore w_NewIndexBuilder w_DefaultSpec w_Convert w_Build
       w_GetIndexDescriptorCollection w_Push w_Now].
  case_answers; reflexivity.
Qed.

(** Two worlds that answer alike up to the creation of the directory, and
    in which the work phase returns the same, return the same. *)
Lemma HandleRequest_same_outcome w w' ctx ev :
  w_Getenv w' = w_Getenv w ->
  w_RegistryInit w' = w_RegistryInit w ->
  w_ValidateImageDigest w' = w_ValidateImageDigest w ->
  w_MkdirTemp w' = w_MkdirTemp w ->
  (forall ctx1 dataDir repo digest ver tag,
     fst (HandleRequest_work w' ctx1 dataDir repo digest ver tag)
     = fst (HandleRequest_work w ctx1 dataDir repo digest ver tag)) ->
  fst (HandleRequest w' ctx ev) = fst (HandleRequest w ctx ev).
Proof.
  intros Hgetenv Hinit Hcheck Hmk Hwork.
  destruct (HandleRequest_shape w ctx ev)
    as [(e & Hv & E)
       | (Hv & [(e & Hi & E)
              | (Hi & [(e & Hc & E)
                     | (Hc & [(Hver & Ht & E)
                            | (tag & logged & dataDir & Hg &
                               [(e & Hd & E) | (Hd & E)])])])])];
    rewrite E; cbn [fst];
    destruct (HandleRequest_shape w' ctx ev)
      as [(e' & Hv' & E')
         | (Hv' & [(e' & Hi' & E')
                | (Hi' & [(e' & Hc' & E')
                       | (Hc' & [(Hver' & Ht' & E')
                              | (tag' & logged' & dataDir' & Hg' &
                                 [(e' & Hd' & E') | (Hd' & E')])])])])];
    rewrite E'; cbn [fst];
    rewrite ?Hgetenv, ?Hinit, ?Hcheck, ?Hmk in *;
    try congruence.
  all: try (exfalso; unfold gate_passes in *;
            rewrite ?Hgetenv in *;
            match goal with
            | Hg : _ \/ _ |- _ =>
                destruct Hg as [(Hf & _) | (_ & t & Ht1 & Ht2 & _)];
                [ rewrite Hver in Hf; discriminate Hf
                | destruct Ht as [Ht | Ht]; rewrite Ht in Ht1;
                  [discriminate Ht1 | injection Ht1 as <-; discriminate Ht2] ]
            | Hg : _ \/ _ |- _ =>
                destruct Hg as [(Hf & _) | (_ & t & Ht1 & Ht2 & _)];
                [ rewrite Hver' in Hf; discriminate Hf
                | destruct Ht' as [Ht' | Ht']; rewrite Ht' in Ht1;
                  [discriminate Ht1 | injection Ht1 as <-; discriminate Ht2] ]
            end).
  rewrite Hd in Hd'. injection Hd' as <-.
  assert (Etag : tag' = tag).
  { unfold gate_passes in Hg, Hg'.
    rewrite ?Hgetenv in Hg'.
    destruct Hg as [(Hf & -> & _) | (Hf & t & Ht1 & _ & -> & _)];
      destruct Hg' as [(Hf' & -> & _) | (Hf' & t' & Ht1' & _ & -> & _)];
      try reflexivity; try congruence. }
  subst tag'. apply Hwork.
Qed.

End Outcome.
Import Outcome.

Module Lifting2.

(** What holds of no call of the work phase and of no call outside it holds
    of no call of the trace. *)
Lemma none_in_trace (p : Call -> bool) w ctx ev tag dataDir ctx1 :
  (forall c, p c = true -> is_work_call c = true) ->
  (forall c', In c' (snd (HandleRequest w ctx ev)) ->
     In c' (snd (HandleRequest_work w ctx1 dataDir (RepositoryName (Detail ev))
                   (ImageDigest (Detail ev)) (w_Getenv w SociIndexVersion) tag))
     \/ is_work_call c' = false) ->
  (forall c, In c (snd (HandleRequest_work w ctx1 dataDir (RepositoryName (Detail ev))
                          (ImageDigest (Detail ev)) (w_Getenv w SociIndexVersion) tag)) ->
     p c = false) ->
  forall c, In c (snd (HandleRequest w ctx ev)) -> p c = false.
Proof.
  intros Hp Hsplit Hwork c Hin.
  destruct (Hsplit c Hin) as [H | H]; [apply Hwork; exact H|].
  destruct (p c) eqn:E; [|reflexivity]. apply Hp in E. congruence.
Qed.

(** The two messages of the work phase that come with a nil error show
    that the invocation reached the work phase. *)
Lemma reached_by_message w ctx ev :
  fst (fst (HandleRequest w ctx ev)) = SkipPushOnEmptyIndexMessage
  \/ fst (fst (HandleRequest w ctx ev)) = BuildAndPushSuccessMessage ->
  exists tag logged dataDir ctx1,
    gate_passes w ctx1 tag logged
    /\ let work := HandleRequest_work w ctx1 dataDir (RepositoryName (Detail ev))
                     (ImageDigest (Detail ev)) (w_Getenv w SociIndexVersion) tag in
       fst (HandleRequest w ctx ev) = fst work
       /\ (forall c', In c' (snd work) -> In c' (snd (HandleRequest w ctx ev)))
       /\ (forall c', In c' (snd (HandleRequest w ctx ev)) ->
             In c' (snd work) \/ is_work_call c' = false).
Proof.
  intros Hm.
  destruct (HandleRequest_shape w ctx ev)
    as [(e & _ & E)
       | (_ & [(e & _ & E)
              | (_ & [(e & _ & E)
                     | (_ & [(_ & _ & E)
                            | (tag & logged & dataDir & Hg &
                               [(e & _ & E) | (Hd & E)])])])])];
    rewrite E in Hm; cbn [fst] in Hm;
    try (destruct Hm as [Hm | Hm]; discriminate Hm).
  exists tag, logged, dataDir. eexists. split; [exact Hg|]. cbv zeta.
  rewrite E. cbn [fst snd]. split; [reflexivity|]. split.
  - intros c' Hc'. apply in_or_app. right. apply in_or_app. right.
    apply in_or_app. right. apply in_or_app. left. exact Hc'.
  - intros c' Hc'.
    apply in_app_or in Hc' as [H | H];
      [right; apply prologue_plain in H as [(N & _) _]; exact N|].
    apply in_app_or in H as [H | H];
      [right; apply (gate_logged_plain _ _ _ _ _ Hg) in H as [(N & _) _]; exact N|].
    apply in_app_or in H as [H | H];
      [right; apply createTempDir_plain in H as [(N & _) _]; exact N|].
    apply in_app_or in H as [H | H]; [left; exact H|].
    right. destruct H as [<- | H]; [reflexivity|].
    apply after_send_census in H as (N & _). exact N.
Qed.

Lemma work_call_cases c :
  (is_build c = true -> is_work_call c = true)
  /\ (is_push c = true -> is_work_call c = true)
  /\ (is_convert c = true -> is_work_call c = true)
  /\ (is_legacy_build c = true -> is_work_call c = true)
  /\ (is_database_query c = true -> is_work_call c = true).
Proof. destruct c; simpl; repeat split; intros H; try discriminate H; reflexivity. Qed.

End Lifting2.
Import Lifting2.

Module Housekeeping.

Lemma work_ignores_FreeSpace w space ctx dataDir repo digest ver tag :
  fst (HandleRequest_work (with_FreeSpace w space) ctx dataDir repo digest ver tag)
  = fst (HandleRequest_work w ctx dataDir repo digest ver tag).
Proof.
  unfold_stages.
  change (@sort_Slice (with_FreeSpace w space)) with (@sort_Slice w).
  unfold with_FreeSpace.
  cbn [w_OciNew w_Pull w_NewDB w_NewStore w_NewIndexBuilder w_DefaultSpec w_Convert w_Build
       w_GetIndexDescriptorCollection w_Push w_Now w_RemoveAll].
  case_answers; reflexivity.
Qed.

Lemma createTempDir_result w ctx :
  fst (createTempDir w ctx) = w_MkdirTemp w "/tmp" (ctx_AwsRequestID ctx).
Proof.
  unfold_stages. cbn [bind call ret app fst snd].
  destruct (w_CalculateFreeSpace w "/tmp" <? 6000000000)%Z; reflexivity.
Qed.

(** Only the prologue initialises the registry. *)
Lemma registry_init_calls w ctx ev c :
  In c (snd (HandleRequest w ctx ev)) -> is_registry_init c = true ->
  c = CRegistryInit (buildEcrRegistryUrl ev).
Proof.
  intros Hin Hr.
  assert (Hp : forall c0, In c0 (prologue w ev) -> is_registry_init c0 = true ->
               c0 = CRegistryInit (buildEcrRegistryUrl ev)).
  { unfold prologue. cbn [In]. intros c0 H0 Hr0.
    repeat (destruct H0 as [<- | H0]); try discriminate Hr0; try contradiction; reflexivity. }
  destruct (HandleRequest_shape w ctx ev)
    as [(e & _ & E)
       | (_ & [(e & _ & E)
              | (_ & [(e & _ & E)
                     | (_ & [(_ & _ & E)
                            | (tag & logged & dataDir & Hg &
                               [(e & _ & E) | (Hd & E)])])])])];
    rewrite E in Hin; cbn [snd] in Hin.
  - cbn [In] in Hin. destruct Hin as [<- | []]. discriminate Hr.
  - cbn [In] in Hin.
    repeat (destruct Hin as [<- | Hin]); try discriminate Hr; try contradiction; reflexivity.
  - apply in_app_or in Hin as [H | H]; [apply (Hp c H Hr)|].
    cbn [In] in H. destruct H as [<- | []]. discriminate Hr.
  - apply in_app_or in Hin as [H | H]; [apply (Hp c H Hr)|].
    cbn [In] in H. destruct H as [<- | []]. discriminate Hr.
  - apply in_app_or in Hin as [H | H]; [apply (Hp c H Hr)|].
    apply in_app_or in H as [H | H];
      [apply (gate_logged_plain _ _ _ _ _ Hg) in H as (_ & N & _); congruence|].
    apply in_app_or in H as [H | H];
      [apply createTempDir_plain in H as (_ & N & _); congruence|].
    cbn [In] in H. destruct H as [<- | []]. discriminate Hr.
  - apply in_app_or in Hin as [H | H]; [apply (Hp c H Hr)|].
    apply in_app_or in H as [H | H];
      [apply (gate_logged_plain _ _ _ _ _ Hg) in H as (_ & N & _); congruence|].
    apply in_app_or in H as [H | H];
      [apply createTempDir_plain in H as (_ & N & _); congruence|].
    apply in_app_or in H as [H | H].
    + destruct (work_starts_goroutine w
                  (WithValue (fst (validateEvent ctx ev)) RegistryURLKey (buildEcrRegistryUrl ev))
                  dataDir (RepositoryName (Detail ev)) (ImageDigest (Detail ev))
                  (w_Getenv w SociIndexVersion) tag) as (rest & Er & Hrest).
      rewrite Er in H. destruct H as [<- | H]; [discriminate Hr|].
      destruct (Hrest c H) as (_ & _ & _ & _ & N & _). congruence.
    + destruct H as [<- | H]; [discriminate Hr|].
      apply after_send_census in H as (_ & _ & _ & _ & N & _). congruence.
Qed.

End Housekeeping.
Import Housekeeping.

Module ParsingFacts.
Import RepositoryNameParsing.

Lemma arns_loop_closed prefix repositories acc :
  arns_loop prefix repositories acc =
    if existsb (String.eqb "*") repositories
    then [(prefix ++ "*")%string]
    else acc ++ map (fun r => (prefix ++ r)%string) repositories.
Proof.
  revert acc. induction repositories as [|r rest IH]; intros acc; cbn [arns_loop existsb map].
  - rewrite app_nil_r. reflexivity.
  - rewrite (String.eqb_sym "*" r). destruct (r =? "*"); cbn [orb]; [reflexivity|].
    rewrite IH. destruct (existsb (String.eqb "*") rest); [reflexivity|].
    rewrite <- app_assoc. reflexivity.
Qed.

Lemma wildcard_among filters :
  existsb (String.eqb "*") (map split_colon_head filters)
  = existsb (fun f => split_colon_head f =? "*") filters.
Proof.
  induction filters as [|f l IH]; cbn [map existsb]; [reflexivity|].
  rewrite IH, (String.eqb_sym "*"). reflexivity.
Qed.

Lemma split_colon_head_free s : colon_free (split_colon_head s) = true.
Proof.
  induction s as [|c rest IH]; cbn [split_colon_head]; [reflexivity|].
  destruct (Ascii.eqb c ":") eqn:E; [reflexivity|].
  cbn [colon_free]. rewrite E, IH. reflexivity.
Qed.

Lemma split_colon_head_append repo rest :
  colon_free repo = true ->
  split_colon_head (repo ++ String ":" rest) = repo.
Proof.
  induction repo as [|c repo IH]; cbn [colon_free String.append split_colon_head]; intros H.
  - reflexivity.
  - apply andb_true_iff in H as [Hc Hr]. apply negb_true_iff in Hc.
    rewrite Hc, (IH Hr). reflexivity.
Qed.

Lemma split_colon_head_id repo :
  colon_free repo = true -> split_colon_head repo = repo.
Proof.
  induction repo as [|c repo IH]; cbn [colon_free split_colon_head]; intros H.
  - reflexivity.
  - apply andb_true_iff in H as [Hc Hr]. apply negb_true_iff in Hc.
    rewrite Hc, (IH Hr). reflexivity.
Qed.

End ParsingFacts.
Import ParsingFacts.

Module Ending.

Lemma validateEvent_deadline ctx ev :
  ctx_deadline (fst (validateEvent ctx ev)) = ctx_deadline ctx.
Proof.
  rewrite validateEvent_fst, validateEvent_collect_eq. cbn [fst].
  generalize (Regexp.MatchString Patterns.repository_re (RepositoryName (Detail ev))).
  generalize (Regexp.MatchString Patterns.digest_re (ImageDigest (Detail ev))).
  generalize (Regexp.MatchString Patterns.tag_re (ImageTag (Detail ev))).
  generalize (negb (ImageTag (Detail ev) =? "")).
  intros [] [] [] []; reflexivity.
Qed.

(** Which case the goroutine runs depends on the context through its
    deadline only. *)
Lemma selected_by_deadline w c1 c2 :
  ctx_deadline c1 = ctx_deadline c2 -> selected w c1 = selected w c2.
Proof.
  intros E. unfold selected, invocation_race, deadline_timer, ctx_Deadline.
  rewrite E. reflexivity.
Qed.

Lemma selected_validated w ctx ev url :
  selected w (WithValue (fst (validateEvent ctx ev)) RegistryURLKey url) = selected w ctx.
Proof. apply selected_by_deadline. cbn [ctx_deadline WithValue]. apply validateEvent_deadline. Qed.

Lemma after_send_by_deadline w c1 c2 dir :
  ctx_deadline c1 = ctx_deadline c2 -> after_send w c1 dir = after_send w c2 dir.
Proof.
  intros E. unfold after_send. rewrite (selected_by_deadline w c1 c2 E).
  rewrite !cleanUp_calls. reflexivity.
Qed.

Lemma after_send_validated w ctx ev url dir :
  after_send w (WithValue (fst (validateEvent ctx ev)) RegistryURLKey url) dir
  = after_send w ctx dir.
Proof. apply after_send_by_deadline. cbn [ctx_deadline WithValue]. apply validateEvent_deadline. Qed.

(** Nothing blocks before the deferred send. *)
Lemma work_never_blocks w ctx dataDir repo digest ver tag c :
  In c (snd (HandleRequest_work w ctx dataDir repo digest ver tag)) -> is_blocked c = false.
Proof.
  unfold_stages. case_answers; intros Hin; cbn [In] in Hin;
    repeat (destruct Hin as [<- | Hin]); try contradiction; reflexivity.
Qed.

Lemma approach_never_blocks w ctx1 ev tag logged c :
  gate_passes w ctx1 tag logged ->
  In c (prologue w ev ++ logged ++ snd (createTempDir w ctx1)) -> is_blocked c = false.
Proof.
  intros Hg Hin.
  apply in_app_or in Hin as [Hin | Hin].
  { unfold prologue in Hin. cbn [In] in Hin.
    repeat (destruct Hin as [<- | Hin]); try contradiction; reflexivity. }
  apply in_app_or in Hin as [Hin | Hin].
  { destruct Hg as [(_ & _ & ->) | (_ & t & _ & _ & _ & ->)]; cbn [In] in Hin;
      repeat (destruct Hin as [<- | Hin]); try contradiction; reflexivity. }
  rewrite createTempDir_calls in Hin.
  destruct (w_CalculateFreeSpace w "/tmp" <? 6000000000)%Z; cbn [app In] in Hin;
    repeat (destruct Hin as [<- | Hin]); try contradiction; reflexivity.
Qed.

Lemma cleanUp_never_blocks w ctx dir c :
  In c (snd (cleanUp w ctx dir)) -> is_blocked c = false.
Proof.
  rewrite cleanUp_calls. destruct (w_RemoveAll w dir); cbn [app In]; intros Hin;
    repeat (destruct Hin as [<- | Hin]); try contradiction; reflexivity.
Qed.

(** The whole trace of an invocation that got to its deferred calls. *)
Lemma reached_trace w ctx ev c :
  is_work_call c = true -> In c (snd (HandleRequest w ctx ev)) ->
  exists dataDir before,
    w_MkdirTemp w "/tmp" (ctx_AwsRequestID ctx) = (dataDir, None)
    /\ snd (HandleRequest w ctx ev) = before ++ CQuitSend :: after_send w ctx dataDir
    /\ forall c', In c' before -> is_blocked c' = false.
Proof.
  intros Hw Hin.
  destruct (reached_work w ctx ev c Hw Hin) as (tag & logged & dataDir & Hg & Hd & E & _).
  cbv zeta in *. rewrite after_send_validated in E.
  exists dataDir. eexists. split; [exact Hd|]. split.
  - rewrite E. cbn [snd]. rewrite !app_assoc. reflexivity.
  - intros c' Hc'. rewrite <- !app_assoc in Hc'.
    rewrite (app_assoc (prologue w ev)), (app_assoc (prologue w ev ++ logged)) in Hc'.
    apply in_app_or in Hc' as [Hc' | Hc'].
    + rewrite <- !app_assoc in Hc'. apply (approach_never_blocks _ _ _ _ _ _ Hg Hc').
    + apply (work_never_blocks _ _ _ _ _ _ _ _ Hc').
Qed.

(** An invocation that got to its deferred calls returns what the [return]
    statement set when the goroutine takes its quit case, and never returns
    when the goroutine has taken its timeout case. *)
Lemma reached_ends w ctx ev c :
  is_work_call c = true -> In c (snd (HandleRequest w ctx ev)) ->
  ends_with w ctx (HandleRequest w ctx ev) (fst (HandleRequest w ctx ev)).
Proof.
  intros Hw Hin.
  destruct (reached_trace w ctx ev c Hw Hin) as (dataDir & before & _ & E & Hb).
  unfold ends_with, returns, never_returns. rewrite E. unfold after_send. split.
  - intros ->. split; [reflexivity|]. intros c' Hc'.
    apply in_app_or in Hc' as [Hc' | [<- | Hc']]; [apply (Hb _ Hc') | reflexivity |].
    apply (cleanUp_never_blocks _ _ _ _ Hc').
  - intros ->. apply in_or_app. right. right. left. reflexivity.
Qed.

End Ending.
Import Ending.

Module Blocking.

Lemma prologue_never_blocks w ev c : In c (prologue w ev) -> is_blocked c = false.
Proof.
  unfold prologue. cbn [In]. intros Hin.
  repeat (destruct Hin as [<- | Hin]); try contradiction; reflexivity.
Qed.

(** The main path blocks only at its deferred send, hence only after it has
    started the goroutine. *)
Lemma blocked_reached w ctx ev :
  never_returns (HandleRequest w ctx ev) ->
  exists timer dir, In (CGoDeadline timer dir) (snd (HandleRequest w ctx ev)).
Proof.
  unfold never_returns.
  destruct (HandleRequest_shape w ctx ev)
    as [(e & _ & E)
       | (_ & [(e & _ & E)
              | (_ & [(e & _ & E)
                     | (_ & [(_ & _ & E)
                            | (tag & logged & dataDir & Hg &
                               [(e & _ & E) | (Hd & E)])])])])];
    rewrite E; cbn [snd]; intros Hin.
  - cbn [In] in Hin. destruct Hin as [Hin | []]. discriminate Hin.
  - cbn [In] in Hin. repeat (destruct Hin as [Hin | Hin]); try discriminate Hin. contradiction.
  - apply in_app_or in Hin as [Hin | [Hin | []]]; [|discriminate Hin].
    apply prologue_never_blocks in Hin. discriminate Hin.
  - apply in_app_or in Hin as [Hin | [Hin | []]]; [|discriminate Hin].
    apply prologue_never_blocks in Hin. discriminate Hin.
  - rewrite !app_assoc in Hin. apply in_app_or in Hin as [Hin | [Hin | []]];
      [|discriminate Hin].
    rewrite <- !app_assoc in Hin.
    apply (approach_never_blocks _ _ _ _ _ _ Hg) in Hin. discriminate Hin.
  - destruct (work_starts_goroutine w
                (WithValue (fst (validateEvent ctx ev)) RegistryURLKey (buildEcrRegistryUrl ev))
                dataDir (RepositoryName (Detail ev)) (ImageDigest (Detail ev))
                (w_Getenv w SociIndexVersion) tag) as (rest & Er & _).
    eexists. eexists. apply in_or_app. right. apply in_or_app. right.
    apply in_or_app. right. apply in_or_app. left. rewrite Er. left. reflexivity.
Qed.

(** With a deadline that is at least ten seconds away when the timer is
    armed, the timer is ready ten seconds before the deadline. *)
Lemma timer_ready_before_deadline w ctx deadline quit :
  ctx_deadline ctx = Some deadline ->
  (w_Now w <= deadline - 10 * Second)%Z ->
  (deadline - 10 * Second - w_Now w <= maxDuration)%Z ->
  timer_ready_at (invocation_race w ctx quit) = (deadline - 10 * Second)%Z.
Proof.
  intros Hd Hnow Hmax.
  unfold invocation_race, time_After_ready, deadline_timer, ctx_Deadline, Time_Sub, Time_Add.
  cbn [timer_ready_at]. rewrite Hd.
  assert (minDuration < 0)%Z by reflexivity. lia.
Qed.

(** The case the goroutine runs is one the race allows, and the race
    decides it unless both channels are ready at once. *)
Lemma selected_in_race w ctx :
  let race := invocation_race w ctx (Some (w_QuitAt w)) in
  may_select race (selected w ctx) = true
  /\ ((w_QuitAt w < timer_ready_at race)%Z -> selected w ctx = case_quitChannel)
  /\ ((timer_ready_at race < w_QuitAt w)%Z -> selected w ctx = case_timeoutChannel).
Proof.
  cbv zeta. unfold selected.
  set (race := invocation_race w ctx (Some (w_QuitAt w))).
  assert (Hq : quit_sent_at race = Some (w_QuitAt w)) by reflexivity.
  unfold may_select, ready_at, wake_up. rewrite Hq.
  destruct (timer_ready_at race <=? Z.min (timer_ready_at race) (w_QuitAt w))%Z eqn:Et;
    destruct (w_QuitAt w <=? Z.min (timer_ready_at race) (w_QuitAt w))%Z eqn:Eq.
  - destruct (w_Select w); cbn [quit_sent_at]; rewrite ?Hq, ?Et, ?Eq;
      (split; [reflexivity|]); apply Z.leb_le in Et, Eq; split; intros; lia.
  - cbn [quit_sent_at]. rewrite ?Hq, ?Et. split; [reflexivity|].
    apply Z.leb_le in Et. apply Z.leb_gt in Eq. split; intros; [lia | reflexivity].
  - cbn [quit_sent_at]. rewrite ?Hq, ?Eq. split; [reflexivity|].
    apply Z.leb_gt in Et. apply Z.leb_le in Eq. split; intros; [reflexivity | lia].
  - apply Z.leb_gt in Et, Eq. lia.
Qed.

End Blocking.
Import Blocking.

(* ================================================================== *)
(** * Further properties *)
(* ================================================================== *)

(** X1: [validateEvent] accepts an event exactly when the four fixed fields
    have their values, the account id holds twelve digits in a row, the
    repository name holds a lower-case letter or a digit, the digest pattern
    finds a match, and the tag is empty or holds a letter, a digit or an
    underscore.  The three non-empty checks add nothing to the patterns. *)
Theorem X1_validateEvent_accepts_iff (ctx : Context) (ev : ECRImageActionEvent) :
  snd (validateEvent ctx ev) = None <->
  Source ev = "aws.ecr" /\ DetailType ev = "ECR Image Action"
  /\ ActionType (Detail ev) = "PUSH" /\ Result (Detail ev) = "SUCCESS"
  /\ has_run is_digit 12 (Account ev)
  /\ has_run is_lower_alnum 1 (RepositoryName (Detail ev))
  /\ Regexp.MatchString Patterns.digest_re (ImageDigest (Detail ev)) = true
  /\ (ImageTag (Detail ev) = "" \/ has_run is_tag_start 1 (ImageTag (Detail ev))).
Proof.
  rewrite validateEvent_None_iff.
  rewrite !String.eqb_eq, !String.eqb_neq.
  rewrite account_re_search, repository_re_search, tag_re_search.
  split.
  - intros (Hs & _ & Hd & Ha & Hr & _ & _ & Hacc & Hrepo & Hdig & Htag). auto 10.
  - intros (Hs & Hd & Ha & Hr & Hacc & Hrepo & Hdig & Htag).
    repeat split; auto.
    + apply (has_run_nonempty _ _ _ Hacc).
    + apply (has_run_nonempty _ _ _ Hrepo).
    + intros E. rewrite E in Hdig. vm_compute in Hdig. discriminate.
Qed.

(** X2: after a validation that passed, the context binds the repository
    name and the digest to the event's fields, unchanged, and the tag too
    when the event has one; the other bindings, the deadline and the request
    id are those of the incoming context. *)
Theorem X2_validateEvent_binds_fields_unchanged (ctx : Context) (ev : ECRImageActionEvent) :
  snd (validateEvent ctx ev) = None ->
  let ctx' := fst (validateEvent ctx ev) in
  Value ctx' RepositoryNameKey = Some (RepositoryName (Detail ev))
  /\ Value ctx' ImageDigestKey = Some (ImageDigest (Detail ev))
  /\ (ImageTag (Detail ev) <> "" -> Value ctx' ImageTagKey = Some (ImageTag (Detail ev)))
  /\ (ImageTag (Detail ev) = "" -> Value ctx' ImageTagKey = Value ctx ImageTagKey)
  /\ Value ctx' RegistryURLKey = Value ctx RegistryURLKey
  /\ Value ctx' SOCIIndexDigestKey = Value ctx SOCIIndexDigestKey
  /\ ctx_deadline ctx' = ctx_deadline ctx
  /\ ctx_AwsRequestID ctx' = ctx_AwsRequestID ctx.
Proof.
  intros H. cbv zeta.
  pose proof (validated_tag ctx ev H) as Ht.
  apply validateEvent_None_iff in H
    as (_ & _ & _ & _ & _ & _ & _ & _ & Hrepo & Hdig & Htag).
  remember (fst (validateEvent ctx ev)) as ctx' eqn:E.
  rewrite validateEvent_fst, validateEvent_collect_eq in E. cbn [fst] in E.
  rewrite Hrepo, Hdig in E.
  split; [|split; [|split; [|split]]].
  - subst ctx'.
    destruct (negb (ImageTag (Detail ev) =? "")
              && Regexp.MatchString Patterns.tag_re (ImageTag (Detail ev))); reflexivity.
  - subst ctx'.
    destruct (negb (ImageTag (Detail ev) =? "")
              && Regexp.MatchString Patterns.tag_re (ImageTag (Detail ev))); reflexivity.
  - intros N. apply String.eqb_neq in N. rewrite N in Ht. exact Ht.
  - intros E0. rewrite E0 in Ht. exact Ht.
  - subst ctx'.
    destruct (negb (ImageTag (Detail ev) =? "")
              && Regexp.MatchString Patterns.tag_re (ImageTag (Detail ev)));
      repeat split; reflexivity.
Qed.

(** X2 on the sample event. *)
Lemma X2_validateEvent_binds_fields_unchanged_witness :
  Value (fst (validateEvent Samples.ctx Samples.event)) RepositoryNameKey = Some "myrepo"
  /\ Value (fst (validateEvent Samples.ctx Samples.event)) ImageTagKey = Some "latest".
Proof.
  pose proof (X2_validateEvent_binds_fields_unchanged Samples.ctx Samples.event eq_refl)
    as (Hrepo & _ & Htag & _).
  split; [exact Hrepo | apply Htag; discriminate].
Defined.

(** X3: the tag violation is recorded exactly when the tag is not empty and
    holds no letter, digit or underscore.  The bound of 128 characters in
    the pattern has no effect: a tag of any length with one such character
    is accepted. *)
Theorem X3_tag_rule (ctx : Context) (ev : ECRImageActionEvent) :
  In tag_violation (snd (validateEvent_collect ctx ev)) <->
  ImageTag (Detail ev) <> "" /\ ~ has_run is_tag_start 1 (ImageTag (Detail ev)).
Proof.
  rewrite tag_violation_iff, String.eqb_neq.
  rewrite (MatchString_false_iff _ _ _ (tag_re_search (ImageTag (Detail ev)))).
  tauto.
Qed.

(** X4: the repository violation is recorded exactly when the repository
    name holds no lower-case letter and no digit; the slash-separated
    grammar of the pattern has no further effect. *)
Theorem X4_repository_rule (ctx : Context) (ev : ECRImageActionEvent) :
  In repository_violation (snd (validateEvent_collect ctx ev)) <->
  ~ has_run is_lower_alnum 1 (RepositoryName (Detail ev)).
Proof.
  rewrite repository_violation_iff.
  apply MatchString_false_iff. apply repository_re_search.
Qed.

(** X5: no stage of an invocation is entered twice: at most one registry
    session, one pre-build check, one directory creation, one pull, one
    build and one push; the handler retries nothing. *)
Theorem X5_no_stage_twice (w : World) (ctx : Context) (ev : ECRImageActionEvent) :
  let t := snd (HandleRequest w ctx ev) in
  (count_calls is_registry_init t <= 1)%nat /\ (count_calls is_check t <= 1)%nat
  /\ (count_calls is_mkdir_temp t <= 1)%nat /\ (count_calls is_pull t <= 1)%nat
  /\ (count_calls is_build t <= 1)%nat /\ (count_calls is_push t <= 1)%nat.
Proof.
  cbv zeta.
  assert (Hz : forall p t, (forall c, In c t -> plain c) ->
             (forall c, is_pull_build_push c = false -> p c = false) ->
             count_calls p t = 0%nat).
  { intros p t Ht Hp. apply count_calls_zero. intros c Hc. apply Hp. apply (Ht c Hc). }
  assert (Hpull : forall c, is_pull_build_push c = false -> is_pull c = false)
    by (intros c Hc; apply pbp_false in Hc; tauto).
  assert (Hbuild : forall c, is_pull_build_push c = false -> is_build c = false)
    by (intros c Hc; apply pbp_false in Hc; tauto).
  assert (Hpush : forall c, is_pull_build_push c = false -> is_push c = false)
    by (intros c Hc; apply pbp_false in Hc; tauto).
  destruct (HandleRequest_phases w ctx ev)
    as [(quiet & -> & Hq & Hi & Hc)
       | (tag & logged & dataDir & ctx1 & _ & Hg & [(e & _ & ->) | (_ & ->)])];
    cbn [snd].
  - assert (Hq' : forall c, In c quiet -> plain c) by (intros c Hin; apply (Hq c Hin)).
    rewrite (Hz is_pull), (Hz is_build), (Hz is_push) by assumption.
    rewrite (count_calls_zero is_mkdir_temp) by (intros c Hin; apply (Hq c Hin)).
    repeat split; first [assumption | apply Nat.le_0_l].
  - destruct (census_approach w ctx1 ev tag logged Hg) as (H1 & H2 & H3 & Hp).
    cbv zeta in *. rewrite !(count_calls_app _ (_ ++ _ ++ _)), H1, H2, H3.
    rewrite (Hz is_pull _ Hp), (Hz is_build _ Hp), (Hz is_push _ Hp) by assumption.
    rewrite !(count_calls_zero _ [_]) by (intros c [<- | []]; reflexivity).
    repeat split; lia.
  - destruct (census_approach w ctx1 ev tag logged Hg) as (H1 & H2 & H3 & Hp).
    cbv zeta in *. rewrite !(count_calls_app _ (_ ++ _ ++ _)), H1, H2, H3.
    rewrite (Hz is_pull _ Hp), (Hz is_build _ Hp), (Hz is_push _ Hp) by assumption.
    rewrite !count_calls_app.
    pose proof (after_send_census w ctx1 dataDir) as Hcl.
    rewrite !(count_calls_zero _ (after_send w ctx1 dataDir))
      by (intros c Hin; destruct (Hcl c Hin) as (_ & _ & _ & Hx & Hy & Hz' & Hm & _);
          apply pbp_false in Hx; tauto).
    destruct (work_no_retry w ctx1 dataDir (RepositoryName (Detail ev))
                (ImageDigest (Detail ev)) (w_Getenv w SociIndexVersion) tag) as (W1 & W2 & W3).
    destruct (work_starts_goroutine w ctx1 dataDir (RepositoryName (Detail ev))
                (ImageDigest (Detail ev)) (w_Getenv w SociIndexVersion) tag)
      as (rest & Er & Hrest).
    assert (Z1 : forall p, p (CGoDeadline (deadline_timer w ctx1) dataDir) = false ->
                 (forall c, In c rest -> p c = false) ->
                 count_calls p (snd (HandleRequest_work w ctx1 dataDir
                   (RepositoryName (Detail ev)) (ImageDigest (Detail ev))
                   (w_Getenv w SociIndexVersion) tag)) = 0%nat).
    { intros p Hp0 Hr. apply count_calls_zero. rewrite Er. intros c [<- | Hin]; auto. }
    rewrite (Z1 is_registry_init), (Z1 is_check), (Z1 is_mkdir_temp);
      try reflexivity; try (intros c Hc; apply Hrest in Hc; tauto).
    rewrite !(count_calls_zero _ [CQuitSend]) by (intros c [<- | []]; reflexivity).
    repeat split; lia.
Qed.

(** X6: a registry session that cannot be established ends a valid
    invocation at once: the error comes back under the label "Remote
    registry initialization error", and neither the pre-build check nor
    anything after it is called. *)
Theorem X6_registry_init_failure (w : World) (ctx : Context) (ev : ECRImageActionEvent)
  (e : errval) :
  snd (validateEvent ctx ev) = None ->
  w_RegistryInit w (buildEcrRegistryUrl ev) = Some e ->
  HandleRequest w ctx ev =
    (("Remote registry initialization error", Some e),
     [CGetenv SociIndexVersion;
      CLog LInfo ("Using SOCI index version: " ++ w_Getenv w SociIndexVersion) None;
      CRegistryInit (buildEcrRegistryUrl ev);
      CLog LError "Remote registry initialization error" (Some e)]).
Proof.
  intros H Hi.
  destruct (HandleRequest_shape w ctx ev)
    as [(e' & Hv & _) | (_ & [(e' & Hi' & E) | (Hi' & _)])].
  - rewrite H in Hv. discriminate Hv.
  - rewrite Hi in Hi'. injection Hi' as <-. exact E.
  - rewrite Hi in Hi'. discriminate Hi'.
Qed.

(** X6 on the sample event, with a registry that cannot be reached. *)
Lemma X6_registry_init_failure_witness :
  fst (HandleRequest
         (Scenarios.world "V1" (Some Scenarios.boom) None None None (Ok Samples.image_desc)
            None (Ok Samples.index_old) (Ok Samples.index_new) (Ok Samples.records) None)
         Samples.ctx Samples.event)
  = ("Remote registry initialization error", Some Scenarios.boom).
Proof.
  rewrite (X6_registry_init_failure _ Samples.ctx Samples.event Scenarios.boom);
    reflexivity.
Defined.

(** X7: when the directory cannot be created, an invocation that gets that
    far returns the error under the label "Directory create error"; in no
    case is the goroutine started, the quit signal sent, anything removed,
    or the registry asked to pull or push. *)
Theorem X7_directory_creation_failure (w : World) (ctx : Context)
  (ev : ECRImageActionEvent) (dataDir : string) (e : errval) :
  w_MkdirTemp w "/tmp" (ctx_AwsRequestID ctx) = (dataDir, Some e) ->
  (forall c, In c (snd (HandleRequest w ctx ev)) ->
     is_go_deadline c = false /\ is_quit_send c = false /\ is_remove_all c = false
     /\ is_pull_build_push c = false)
  /\ (count_calls is_mkdir_temp (snd (HandleRequest w ctx ev)) = 1%nat ->
      fst (HandleRequest w ctx ev) = ("Directory create error", Some e)).
Proof.
  intros Hd.
  destruct (HandleRequest_phases w ctx ev)
    as [(quiet & E & Hq & _ & _)
       | (tag & logged & dir & ctx1 & _ & Hg & [(e' & Hd' & E) | (Hd' & _)])].
  - rewrite E. cbn [fst snd]. split.
    + intros c Hin. destruct (Hq c Hin) as [(_ & H1 & H2 & H3 & H4) _]. auto.
    + intros Hm. rewrite (count_calls_zero is_mkdir_temp) in Hm; [discriminate Hm|].
      intros c Hin. apply (Hq c Hin).
  - rewrite Hd in Hd'. injection Hd' as <- <-. rewrite E. cbn [fst snd]. split.
    + destruct (census_approach w ctx1 ev tag logged Hg) as (_ & _ & _ & Hp).
      intros c Hin. apply in_app_or in Hin as [Hin | [<- | []]].
      * destruct (Hp c Hin) as (_ & H1 & H2 & H3 & H4). auto.
      * repeat split; reflexivity.
    + reflexivity.
  - rewrite Hd in Hd'. discriminate Hd'.
Qed.

(** X7 on the sample event, with a full disk. *)
Lemma X7_directory_creation_failure_witness :
  fst (HandleRequest
         (Scenarios.world "V1" None (Some Scenarios.boom) None None (Ok Samples.image_desc)
            None (Ok Samples.index_old) (Ok Samples.index_new) (Ok Samples.records) None)
         Samples.ctx Samples.event)
  = ("Directory create error", Some Scenarios.boom).
Proof.
  apply (X7_directory_creation_failure _ Samples.ctx Samples.event "/tmp/req-10001");
    reflexivity.
Defined.





(** X10: the returned pair is always one of eleven: a nil error goes with
    one of the four quiet messages (the two early exits, the empty-index
    skip, success) and with nothing else; a non-nil error goes with one of
    the seven stage labels and with nothing else. *)
Theorem X10_outcome_classification (w : World) (ctx : Context) (ev : ECRImageActionEvent) :
  let r := fst (HandleRequest w ctx ev) in
  (snd r = None <-> In (fst r) quiet_messages)
  /\ (snd r <> None <-> In (fst r) failure_messages).
Proof.
  cbv zeta.
  destruct (HandleRequest_outcome w ctx ev) as [(Hn & Hm) | (Hn & Hm)]; cbv zeta in *.
  - split; split; intros H; try assumption.
    + contradiction.
    + exfalso. apply (messages_disjoint _ Hm H).
  - split; split; intros H; try assumption.
    + contradiction.
    + exfalso. apply (messages_disjoint _ H Hm).
Qed.

(** X11: cleaning up is best effort: what [HandleRequest] returns does not
    depend on the answer of [os.RemoveAll]. *)
Theorem X11_cleanup_is_best_effort (w : World) (answer : string -> error)
  (ctx : Context) (ev : ECRImageActionEvent) :
  fst (HandleRequest (with_RemoveAll w answer) ctx ev) = fst (HandleRequest w ctx ev).
Proof.
  apply HandleRequest_same_outcome;
    [reflexivity | reflexivity | reflexivity | reflexivity |].
  intros. apply work_ignores_RemoveAll.
Qed.

(** X12: a store that cannot be opened, or a pull that fails, ends the
    work under its own label with the error as it was returned: the
    invocation returns that pair when the goroutine takes its quit case,
    and never returns when the goroutine has timed out.  After a failed
    store nothing is pulled, built or pushed, after a failed pull nothing
    is built or pushed. *)
Theorem X12_store_or_pull_failure (w : World) (ctx : Context) (ev : ECRImageActionEvent)
  (e : errval) :
  (forall p, In (COciNew p) (snd (HandleRequest w ctx ev)) ->
     w_OciNew w p = Some e ->
     ends_with w ctx (HandleRequest w ctx ev) ("OCI storage initialization error", Some e)
     /\ forall c, In c (snd (HandleRequest w ctx ev)) -> is_pull_build_push c = false)
  /\
  (forall r s d, In (CPull r s d) (snd (HandleRequest w ctx ev)) ->
     w_Pull w r s d = Fail e ->
     ends_with w ctx (HandleRequest w ctx ev) ("Image pull error", Some e)
     /\ forall c, In c (snd (HandleRequest w ctx ev)) ->
          is_build c = false /\ is_push c = false).
Proof.
  split.
  - intros p Hin Hf.
    pose proof (reached_ends w ctx ev (COciNew p) eq_refl Hin) as Hends.
    destruct (through_work w ctx ev (COciNew p) eq_refl Hin)
      as (tag & logged & dataDir & ctx1 & _ & _ & E & Hc & _ & Hsplit). cbv zeta in *.
    destruct (proj1 (work_store_or_pull_failed w ctx1 dataDir _ _ _ tag e) p Hc Hf)
      as [Er Hq].
    rewrite E, Er in Hends. split; [exact Hends|].
    apply (none_in_trace is_pull_build_push w ctx ev tag dataDir ctx1);
      [apply work_call_of_pbp | exact Hsplit | exact Hq].
  - intros r s d Hin Hf.
    pose proof (reached_ends w ctx ev (CPull r s d) eq_refl Hin) as Hends.
    destruct (through_work w ctx ev (CPull r s d) eq_refl Hin)
      as (tag & logged & dataDir & ctx1 & _ & _ & E & Hc & _ & Hsplit). cbv zeta in *.
    destruct (proj2 (work_store_or_pull_failed w ctx1 dataDir _ _ _ tag e) r s d Hc Hf)
      as [Er Hq].
    rewrite E, Er in Hends. split; [exact Hends|].
    intros c Hc'. split.
    + apply (none_in_trace is_build w ctx ev tag dataDir ctx1);
        [apply work_call_cases | exact Hsplit | intros c0 H0; apply (Hq c0 H0) | exact Hc'].
    + apply (none_in_trace is_push w ctx ev tag dataDir ctx1);
        [apply work_call_cases | exact Hsplit | intros c0 H0; apply (Hq c0 H0) | exact Hc'].
Qed.

(** X12 on the sample event, with a pull that fails and the goroutine
    still waiting. *)
Lemma X12_store_or_pull_failure_witness :
  returns
    (HandleRequest
       (Scenarios.world "V1" None None None None (Fail Scenarios.boom)
          None (Ok Samples.index_old) (Ok Samples.index_new) (Ok Samples.records) None)
       Samples.ctx Samples.event)
    ("Image pull error", Some Scenarios.boom).
Proof.
  refine (proj1 (proj1 (proj2 (X12_store_or_pull_failure _ Samples.ctx Samples.event
                                 Scenarios.boom)
                          "myrepo" "/tmp/req-10001/store"
                          (ImageDigest (Detail Samples.event)) _ _)) _).
  - vm_compute. repeat (first [left; reflexivity | right]).
  - reflexivity.
  - vm_compute. reflexivity.
Defined.

(** X13: the push decides the outcome: after a push that failed the work
    ends under the push label with the registry's error, after one that
    did not it ends in the success message with a nil error; the invocation
    returns that pair when the goroutine takes its quit case and never
    returns when the goroutine has timed out.  Success is reported only
    after a push that the registry accepted. *)
Theorem X13_push_decides (w : World) (ctx : Context) (ev : ECRImageActionEvent) :
  (forall s d r t, In (CPush s d r t) (snd (HandleRequest w ctx ev)) ->
     ends_with w ctx (HandleRequest w ctx ev)
       match w_Push w s d r t with
       | Some e => (PushFailedMessage, Some e)
       | None => (BuildAndPushSuccessMessage, None)
       end)
  /\ (fst (fst (HandleRequest w ctx ev)) = BuildAndPushSuccessMessage ->
      exists s d r t,
        In (CPush s d r t) (snd (HandleRequest w ctx ev)) /\ w_Push w s d r t = None).
Proof.
  split.
  - intros s d r t Hin.
    pose proof (reached_ends w ctx ev (CPush s d r t) eq_refl Hin) as Hends.
    destruct (through_work w ctx ev (CPush s d r t) eq_refl Hin)
      as (tag & logged & dataDir & ctx1 & _ & _ & E & Hc & _). cbv zeta in *.
    rewrite E, (work_push_answer _ _ _ _ _ _ _ _ _ _ _ Hc) in Hends. exact Hends.
  - intros Hs.
    destruct (reached_by_message w ctx ev (or_intror Hs))
      as (tag & logged & dataDir & ctx1 & _ & E & Hup & _). cbv zeta in *.
    rewrite E in Hs.
    destruct (HandleRequest_work_success _ _ _ _ _ _ _ Hs) as (store & desc & Hin).
    exists store, desc, (RepositoryName (Detail ev)), tag. split; [apply Hup; exact Hin|].
    pose proof (work_push_answer _ _ _ _ _ _ _ _ _ _ _ Hin) as Ha.
    destruct (w_Push w store desc (RepositoryName (Detail ev)) tag); [|reflexivity].
    rewrite Ha in Hs. discriminate Hs.
Qed.

(** X13 on the sample event, with a registry that refuses the push and the
    goroutine still waiting. *)
Lemma X13_push_decides_witness :
  returns
    (HandleRequest
       (Scenarios.world "V1" None None None None (Ok Samples.image_desc)
          None (Ok Samples.index_old) (Ok Samples.index_new) (Ok Samples.records)
          (Some Scenarios.boom))
       Samples.ctx Samples.event)
    (PushFailedMessage, Some Scenarios.boom).
Proof.
  refine (proj1 (proj1 (X13_push_decides _ Samples.ctx Samples.event)
                   "/tmp/req-10001/store" Samples.index_new "myrepo" "" _) _).
  - vm_compute. repeat (first [left; reflexivity | right]).
  - vm_compute. reflexivity.
Defined.

(** X14: a failure of the index builder, of [Build] under the legacy
    strategy or of [Convert] under V2, whatever the error, ends the work
    under the build label with the error wrapped in the step's prefix, and
    nothing is pushed; the invocation returns that pair when the goroutine
    takes its quit case and never returns when the goroutine has timed
    out. *)
Theorem X14_builder_failure_is_wrapped (w : World) (ctx : Context)
  (ev : ECRImageActionEvent) (e : errval) :
  (forall image p, In (CBuild image p) (snd (HandleRequest w ctx ev)) ->
     w_Build w image p = Fail e ->
     ends_with w ctx (HandleRequest w ctx ev)
       (BuildFailedMessage, Some (fmt_Errorf_w "failed to build SOCI index: " e))
     /\ forall c, In c (snd (HandleRequest w ctx ev)) -> is_push c = false)
  /\
  (forall image, In (CConvert image) (snd (HandleRequest w ctx ev)) ->
     w_Convert w image = Fail e ->
     ends_with w ctx (HandleRequest w ctx ev)
       (BuildFailedMessage, Some (fmt_Errorf_w "failed to convert OCI index: " e))
     /\ forall c, In c (snd (HandleRequest w ctx ev)) -> is_push c = false).
Proof.
  split.
  - intros image p Hin Hf.
    pose proof (reached_ends w ctx ev (CBuild image p) eq_refl Hin) as Hends.
    destruct (through_work w ctx ev (CBuild image p) eq_refl Hin)
      as (tag & logged & dataDir & ctx1 & _ & _ & E & Hc & _ & Hsplit). cbv zeta in *.
    destruct (proj1 (work_builder_failed w ctx1 dataDir _ _ _ tag e) image p Hc Hf)
      as [Er Hq].
    rewrite E, Er in Hends. split; [exact Hends|].
    apply (none_in_trace is_push w ctx ev tag dataDir ctx1);
      [apply work_call_cases | exact Hsplit | exact Hq].
  - intros image Hin Hf.
    pose proof (reached_ends w ctx ev (CConvert image) eq_refl Hin) as Hends.
    destruct (through_work w ctx ev (CConvert image) eq_refl Hin)
      as (tag & logged & dataDir & ctx1 & _ & _ & E & Hc & _ & Hsplit). cbv zeta in *.
    destruct (proj2 (work_builder_failed w ctx1 dataDir _ _ _ tag e) image Hc Hf)
      as [Er Hq].
    rewrite E, Er in Hends. split; [exact Hends|].
    apply (none_in_trace is_push w ctx ev tag dataDir ctx1);
      [apply work_call_cases | exact Hsplit | exact Hq].
Qed.

(** X14 on the sample event under V2, with a converter that fails and the
    goroutine still waiting. *)
Lemma X14_builder_failure_is_wrapped_witness :
  returns
    (HandleRequest
       (Scenarios.world "V2" None None None None (Ok Samples.image_desc)
          None (Ok Samples.index_old) (Fail Scenarios.boom) (Ok Samples.records) None)
       Samples.ctx Samples.event)
    (BuildFailedMessage,
     Some (fmt_Errorf_w "failed to convert OCI index: " Scenarios.boom)).
Proof.
  refine (proj1 (proj1 (proj2 (X14_builder_failure_is_wrapped _ Samples.ctx Samples.event
                                 Scenarios.boom)
                   {| Name := "myrepo@sha256:0123456789abcdef0123456789abcdef0123456789abcdef0123456789abcdef";
                      Target := Samples.image_desc |} _ _)) _).
  - vm_compute. repeat (first [left; reflexivity | right]).
  - reflexivity.
  - vm_compute. reflexivity.
Defined.

(** X15: under the legacy strategy a build after which the database holds
    no record of the image is an error: the work ends under the build
    label with "no SOCI indices found in OCI store" and nothing is pushed;
    the invocation returns that pair when the goroutine takes its quit case
    and never returns when the goroutine has timed out. *)
Theorem X15_no_records_is_an_error (w : World) (ctx : Context) (ev : ECRImageActionEvent)
  (image : Image) (p : Platform) :
  In (CGetIndexDescriptorCollection image p) (snd (HandleRequest w ctx ev)) ->
  w_GetIndexDescriptorCollection w image p = Ok [] ->
  ends_with w ctx (HandleRequest w ctx ev)
    (BuildFailedMessage, Some (errors_New "no SOCI indices found in OCI store"))
  /\ forall c, In c (snd (HandleRequest w ctx ev)) -> is_push c = false.
Proof.
  intros Hin Hf.
  pose proof (reached_ends w ctx ev (CGetIndexDescriptorCollection image p) eq_refl Hin)
    as Hends.
  destruct (through_work w ctx ev (CGetIndexDescriptorCollection image p) eq_refl Hin)
    as (tag & logged & dataDir & ctx1 & _ & _ & E & Hc & _ & Hsplit). cbv zeta in *.
  destruct (work_no_records w ctx1 dataDir _ _ _ tag image p Hc Hf) as [Er Hq].
  rewrite E, Er in Hends. split; [exact Hends|].
  apply (none_in_trace is_push w ctx ev tag dataDir ctx1);
    [apply work_call_cases | exact Hsplit | exact Hq].
Qed.

(** X15 on the sample event, with a database that holds no record and the
    goroutine still waiting. *)
Lemma X15_no_records_is_an_error_witness :
  returns
    (HandleRequest
       (Scenarios.world "V1" None None None None (Ok Samples.image_desc)
          None (Ok Samples.index_old) (Ok Samples.index_new) (Ok []) None)
       Samples.ctx Samples.event)
    (BuildFailedMessage, Some (errors_New "no SOCI indices found in OCI store")).
Proof.
  refine (proj1 (proj1 (X15_no_records_is_an_error _ Samples.ctx Samples.event
                   {| Name := "myrepo@sha256:0123456789abcdef0123456789abcdef0123456789abcdef0123456789abcdef";
                      Target := Samples.image_desc |} "linux/amd64" _ _)) _).
  - vm_compute. repeat (first [left; reflexivity | right]).
  - reflexivity.
  - vm_compute. reflexivity.
Defined.

(** X16: under V2 the invocation never calls the legacy builder and never
    queries the artifacts database, and what it pushes is the descriptor
    that [Convert] returned during this invocation. *)
Theorem X16_V2_pushes_what_Convert_returned (w : World) (ctx : Context)
  (ev : ECRImageActionEvent) :
  (w_Getenv w SociIndexVersion =? "V2") = true ->
  (forall c, In c (snd (HandleRequest w ctx ev)) ->
     is_legacy_build c = false /\ is_database_query c = false)
  /\ forall s d r t, In (CPush s d r t) (snd (HandleRequest w ctx ev)) ->
       exists image,
         In (CConvert image) (snd (HandleRequest w ctx ev)) /\ w_Convert w image = Ok d.
Proof.
  intros Hv. split.
  - assert (Hno : forall c, In c (snd (HandleRequest w ctx ev)) ->
                    is_legacy_build c || is_database_query c = false).
    { intros c Hin. destruct (is_legacy_build c || is_database_query c) eqn:Eb; [|reflexivity].
      assert (Hw : is_work_call c = true).
      { apply orb_true_iff in Eb as [Eb | Eb]; apply work_call_cases in Eb; exact Eb. }
      destruct (through_work w ctx ev c Hw Hin)
        as (tag & logged & dataDir & ctx1 & _ & _ & _ & Hc & _). cbv zeta in *.
      destruct (proj1 (proj1 (work_strategy w ctx1 dataDir _ _ _ tag) Hv) c Hc) as [H1 H2].
      rewrite H1, H2 in Eb. discriminate Eb. }
    intros c Hin. apply orb_false_iff. apply Hno. exact Hin.
  - intros s d r t Hin.
    destruct (through_work w ctx ev (CPush s d r t) eq_refl Hin)
      as (tag & logged & dataDir & ctx1 & _ & _ & _ & Hc & Hup & _). cbv zeta in *.
    destruct (proj2 (proj1 (work_strategy w ctx1 dataDir _ _ _ tag) Hv) s d r t Hc)
      as (image & Hi & Ha).
    exists image. split; [apply Hup; exact Hi | exact Ha].
Qed.

(** X16 on the sample event under V2. *)
Lemma X16_V2_pushes_what_Convert_returned_witness :
  exists image,
    In (CConvert image) (snd (HandleRequest (Scenarios.fine "V2") Samples.ctx Samples.event))
    /\ w_Convert (Scenarios.fine "V2") image = Ok Samples.index_new.
Proof.
  refine (proj2 (X16_V2_pushes_what_Convert_returned (Scenarios.fine "V2")
                   Samples.ctx Samples.event eq_refl)
            "/tmp/req-10001/store" Samples.index_new "myrepo" "latest-soci" _).
  vm_compute. repeat (first [left; reflexivity | right]).
Defined.

(** X17: under the legacy strategy, any value of the version variable
    other than "V2", the invocation never calls the converter, pushes to
    the event's repository without a tag, and what it pushes is the
    descriptor of a record that the artifacts database returned during this
    invocation. *)
Theorem X17_legacy_pushes_a_database_record (w : World) (ctx : Context)
  (ev : ECRImageActionEvent) :
  (w_Getenv w SociIndexVersion =? "V2") = false ->
  (forall c, In c (snd (HandleRequest w ctx ev)) -> is_convert c = false)
  /\ forall s d r t, In (CPush s d r t) (snd (HandleRequest w ctx ev)) ->
       r = RepositoryName (Detail ev) /\ t = ""
       /\ exists image p records record,
            In (CGetIndexDescriptorCollection image p) (snd (HandleRequest w ctx ev))
            /\ w_GetIndexDescriptorCollection w image p = Ok records
            /\ In record records /\ d = Descriptor record.
Proof.
  intros Hv. split.
  - intros c Hin. destruct (is_convert c) eqn:Eb; [|reflexivity].
    destruct (through_work w ctx ev c (proj1 (proj2 (proj2 (work_call_cases c))) Eb) Hin)
      as (tag & logged & dataDir & ctx1 & _ & _ & _ & Hc & _). cbv zeta in *.
    rewrite (proj1 (proj2 (work_strategy w ctx1 dataDir _ _ _ tag) Hv) c Hc) in Eb.
    discriminate Eb.
  - intros s d r t Hin.
    destruct (through_work w ctx ev (CPush s d r t) eq_refl Hin)
      as (tag & logged & dataDir & ctx1 & Hg & _ & _ & Hc & Hup & _). cbv zeta in *.
    destruct (HandleRequest_work_pushes _ _ _ _ _ _ _ _ Hc eq_refl) as (s' & d' & Ep).
    injection Ep as -> -> -> ->.
    split; [reflexivity|]. split.
    + destruct Hg as [(_ & Ht & _) | (Hv' & _)]; [exact Ht|].
      rewrite Hv in Hv'. discriminate Hv'.
    + destruct (proj2 (proj2 (work_strategy w ctx1 dataDir _ _ _ tag) Hv) _ _ _ _ Hc)
        as (image & p & records & record & Hi & Ha & Hr & Ed).
      exists image, p, records, record. split; [apply Hup; exact Hi|]. auto.
Qed.

(** X17 on the sample event under the legacy strategy. *)
Lemma X17_legacy_pushes_a_database_record_witness :
  exists image p records record,
    In (CGetIndexDescriptorCollection image p)
       (snd (HandleRequest (Scenarios.fine "V1") Samples.ctx Samples.event))
    /\ w_GetIndexDescriptorCollection (Scenarios.fine "V1") image p = Ok records
    /\ In record records /\ Samples.index_new = Descriptor record.
Proof.
  refine (proj2 (proj2 (proj2 (X17_legacy_pushes_a_database_record (Scenarios.fine "V1")
                                 Samples.ctx Samples.event eq_refl)
                          "/tmp/req-10001/store" Samples.index_new "myrepo" "" _))).
  vm_compute. repeat (first [left; reflexivity | right]).
Defined.

(** X18: the empty-index skip comes with a nil error and without a push;
    it never follows a call of the converter, and every call of the legacy
    builder before it succeeded: the skip is not the answer to a failed
    build. *)
Theorem X18_skip_is_not_from_the_builder (w : World) (ctx : Context)
  (ev : ECRImageActionEvent) :
  fst (fst (HandleRequest w ctx ev)) = SkipPushOnEmptyIndexMessage ->
  snd (fst (HandleRequest w ctx ev)) = None
  /\ (forall c, In c (snd (HandleRequest w ctx ev)) ->
        is_push c = false /\ is_convert c = false)
  /\ (forall image p, In (CBuild image p) (snd (HandleRequest w ctx ev)) ->
        exists d, w_Build w image p = Ok d).
Proof.
  intros Hs.
  destruct (reached_by_message w ctx ev (or_introl Hs))
    as (tag & logged & dataDir & ctx1 & _ & E & Hup & Hsplit). cbv zeta in *.
  rewrite E in Hs.
  destruct (work_skip_provenance _ _ _ _ _ _ _ Hs) as (Hn & Hq & Hb).
  rewrite E. split; [exact Hn|]. split.
  - intros c Hin. split.
    + apply (none_in_trace is_push w ctx ev tag dataDir ctx1);
        [apply work_call_cases | exact Hsplit | intros c0 H0; apply (Hq c0 H0) | exact Hin].
    + apply (none_in_trace is_convert w ctx ev tag dataDir ctx1);
        [apply work_call_cases | exact Hsplit | intros c0 H0; apply (Hq c0 H0) | exact Hin].
  - intros image p Hin.
    destruct (Hsplit _ Hin) as [H | H]; [|discriminate H].
    apply Hb. exact H.
Qed.

(** X18 on the sample event, with a database that cannot be opened and
    says so in the words of the empty-index error. *)
Lemma X18_skip_is_not_from_the_builder_witness :
  snd (fst (HandleRequest
              (Scenarios.world "V1" None None None None (Ok Samples.image_desc)
                 (Some (errors_New (Error ErrEmptyIndex)))
                 (Ok Samples.index_old) (Ok Samples.index_new) (Ok Samples.records) None)
              Samples.ctx Samples.event)) = None.
Proof.
  refine (proj1 (X18_skip_is_not_from_the_builder _ Samples.ctx Samples.event _)).
  vm_compute. reflexivity.
Defined.

(** X19: an artifacts database that cannot be opened ends the build before
    the builder is called: nothing is built or pushed, and the work ends
    under the build label with the error unwrapped, unless its text is that
    of the empty-index error, in which case it ends in the skip message
    with a nil error; the invocation returns that pair when the goroutine
    takes its quit case and never returns when the goroutine has timed
    out. *)
Theorem X19_database_failure (w : World) (ctx : Context) (ev : ECRImageActionEvent)
  (p : string) (e : errval) :
  In (CNewDB p) (snd (HandleRequest w ctx ev)) ->
  w_NewDB w p = Some e ->
  ends_with w ctx (HandleRequest w ctx ev)
    (if Error e =? Error ErrEmptyIndex
     then (SkipPushOnEmptyIndexMessage, None)
     else (BuildFailedMessage, Some e))
  /\ forall c, In c (snd (HandleRequest w ctx ev)) ->
       is_build c = false /\ is_push c = false.
Proof.
  intros Hin Hf.
  pose proof (reached_ends w ctx ev (CNewDB p) eq_refl Hin) as Hends.
  destruct (through_work w ctx ev (CNewDB p) eq_refl Hin)
    as (tag & logged & dataDir & ctx1 & _ & _ & E & Hc & _ & Hsplit). cbv zeta in *.
  destruct (work_database_failed w ctx1 dataDir _ _ _ tag p e Hc Hf) as [Er Hq].
  rewrite E, Er in Hends. split; [exact Hends|].
  intros c Hc'. split.
  - apply (none_in_trace is_build w ctx ev tag dataDir ctx1);
      [apply work_call_cases | exact Hsplit | intros c0 H0; apply (Hq c0 H0) | exact Hc'].
  - apply (none_in_trace is_push w ctx ev tag dataDir ctx1);
      [apply work_call_cases | exact Hsplit | intros c0 H0; apply (Hq c0 H0) | exact Hc'].
Qed.

(** X19 on the sample event, with a database that cannot be opened and the
    goroutine still waiting. *)
Lemma X19_database_failure_witness :
  returns
    (HandleRequest
       (Scenarios.world "V1" None None None None (Ok Samples.image_desc)
          (Some Scenarios.boom)
          (Ok Samples.index_old) (Ok Samples.index_new) (Ok Samples.records) None)
       Samples.ctx Samples.event)
    (BuildFailedMessage, Some Scenarios.boom).
Proof.
  refine (proj1 (proj1 (X19_database_failure _ Samples.ctx Samples.event
                   "/tmp/req-10001/artifacts.db" Scenarios.boom _ _)) _).
  - vm_compute. repeat (first [left; reflexivity | right]).
  - reflexivity.
  - vm_compute. reflexivity.
Defined.

(** X20: low disk space is never an error.  [createTempDir] returns what
    [os.MkdirTemp] returns for "/tmp" and the request id, whatever space is
    free; it logs a warning exactly when less than 6000000000 bytes are
    free; and what [HandleRequest] returns is the same for every amount of
    free space. *)
Theorem X20_low_space_only_warns (w : World) (space : string -> Z) (ctx : Context)
  (ev : ECRImageActionEvent) :
  fst (createTempDir w ctx) = w_MkdirTemp w "/tmp" (ctx_AwsRequestID ctx)
  /\ count_calls is_warning (snd (createTempDir w ctx))
     = (if (w_CalculateFreeSpace w "/tmp" <? 6000000000)%Z then 1 else 0)%nat
  /\ fst (HandleRequest (with_FreeSpace w space) ctx ev) = fst (HandleRequest w ctx ev).
Proof.
  split; [apply createTempDir_result|]. split.
  - rewrite createTempDir_calls.
    destruct (w_CalculateFreeSpace w "/tmp" <? 6000000000)%Z; reflexivity.
  - apply HandleRequest_same_outcome;
      [reflexivity | reflexivity | reflexivity | reflexivity |].
    intros. apply work_ignores_FreeSpace.
Qed.

(** X21: the event's region is not validated: validation gives the same
    verdict and the same context for every region; and whenever the
    registry is initialised, it is with the URL made of the event's account
    and region, under the domain ".amazonaws.com.cn" when the region begins
    with "cn" and ".amazonaws.com" otherwise. *)
Theorem X21_region_is_not_validated (w : World) (ctx : Context)
  (ev : ECRImageActionEvent) (region : string) :
  validateEvent ctx (with_Region ev region) = validateEvent ctx ev
  /\ forall url, In (CRegistryInit url) (snd (HandleRequest w ctx ev)) ->
       url = (Account ev ++ ".dkr.ecr." ++ Region ev
              ++ (if String.prefix "cn" (Region ev)
                  then ".amazonaws.com.cn" else ".amazonaws.com"))%string.
Proof.
  split.
  - reflexivity.
  - intros url Hin.
    pose proof (registry_init_calls w ctx ev _ Hin eq_refl) as E.
    injection E as ->. unfold buildEcrRegistryUrl, strings_HasPrefix.
    destruct (String.prefix "cn" (Region ev)); reflexivity.
Qed.

(** X22: a timer armed at or after its instant fires at once.  When the
    deadline minus ten seconds is not after the present instant, as it is
    for a context without a deadline, the timer is ready as soon as
    [setDeadline] has armed it; unless the quit signal has come by then,
    the goroutine removes the directory and logs the invocation timeout. *)
Theorem X22_late_timer_fires_at_once (w : World) (ctx : Context) (dataDir : string)
  (quit : option Time) (calls : list Call) :
  (ctx_Deadline ctx - 10 * Second <= w_Now w)%Z ->
  let race := invocation_race w ctx quit in
  timer_ready_at race = w_Now w
  /\ ((forall q, quit = Some q -> (w_Now w < q)%Z) ->
      (goroutine_run w ctx dataDir race calls <-> calls = timeout_calls w dataDir)).
Proof.
  intros Hlate race.
  assert (Hready : timer_ready_at race = w_Now w).
  { subst race. unfold invocation_race, time_After_ready, deadline_timer,
      Time_Sub, Time_Add. cbn [timer_ready_at].
    assert (minDuration < 0)%Z by reflexivity.
    assert (0 < maxDuration)%Z by reflexivity. lia. }
  assert (Hquit : quit_sent_at race = quit) by reflexivity.
  split; [exact Hready|].
  intros Hq. rewrite <- (deadline_goroutine_timeout w ctx dataDir). split.
  - intros Hrun. destruct Hrun as [c Hsel].
    destruct c; [reflexivity|].
    unfold may_select, ready_at, wake_up in Hsel. rewrite Hquit, Hready in Hsel.
    destruct quit as [q|]; [|discriminate].
    apply Z.leb_le in Hsel. specialize (Hq q eq_refl). lia.
  - intros ->. apply (run_selected w ctx dataDir race case_timeoutChannel).
    unfold may_select, ready_at, wake_up. rewrite Hquit, Hready.
    destruct quit as [q|]; apply Z.leb_le; [|lia].
    specialize (Hq q eq_refl). lia.
Qed.

(** X22 on a context without a deadline, with the quit signal five seconds
    after the timer was armed. *)
Lemma X22_late_timer_fires_at_once_witness :
  goroutine_run (Scenarios.fine "V1")
    {| ctx_values := []; ctx_deadline := None; ctx_AwsRequestID := "req-1" |}
    "/tmp/req-10001"
    (invocation_race (Scenarios.fine "V1")
       {| ctx_values := []; ctx_deadline := None; ctx_AwsRequestID := "req-1" |}
       (Some (5 * Second)%Z))
    (timeout_calls (Scenarios.fine "V1") "/tmp/req-10001").
Proof.
  assert (Hlate : (ctx_Deadline
                     {| ctx_values := []; ctx_deadline := None; ctx_AwsRequestID := "req-1" |}
                   - 10 * Second <= w_Now (Scenarios.fine "V1"))%Z)
    by (vm_compute; discriminate).
  refine (proj2 (proj2 (X22_late_timer_fires_at_once (Scenarios.fine "V1") _
                          "/tmp/req-10001" (Some (5 * Second)%Z) _ Hlate) _) eq_refl).
  intros q Hq. injection Hq as <-. vm_compute. reflexivity.
Defined.

(** X23: the repository-name parsing function always answers SUCCESS; when
    the repository part of some filter is "*", the answer is the single
    wildcard ARN, whatever the other filters are; otherwise it is one ARN
    per filter, in the order of the filters: the prefix followed by the
    filter's text before its first colon. *)
Theorem X23_wildcard_overrides (partition region account : string)
  (filters : list string) :
  RepositoryNameParsing.handler partition region account filters =
    (RepositoryNameParsing.SUCCESS,
     [("repository_arns",
       if existsb (fun f => RepositoryNameParsing.split_colon_head f =? "*") filters
       then [(RepositoryNameParsing.REPO_PREFIX partition region account ++ "*")%string]
       else map (fun f => (RepositoryNameParsing.REPO_PREFIX partition region account
                           ++ RepositoryNameParsing.split_colon_head f)%string) filters)]).
Proof.
  unfold RepositoryNameParsing.handler. cbv zeta.
  rewrite arns_loop_closed, wildcard_among, map_map. reflexivity.
Qed.

(** X24: the repository part of a filter holds no colon; for a filter
    [repo:tag] with a colon-free [repo] it is [repo], whatever follows the
    colon, and for a filter without a colon it is the whole filter. *)
Theorem X24_filter_repository_part (repo rest : string) :
  colon_free repo = true ->
  RepositoryNameParsing.split_colon_head (repo ++ ":" ++ rest) = repo
  /\ RepositoryNameParsing.split_colon_head repo = repo
  /\ forall s, colon_free (RepositoryNameParsing.split_colon_head s) = true.
Proof.
  intros H. split; [|split].
  - apply split_colon_head_append. exact H.
  - apply split_colon_head_id. exact H.
  - apply split_colon_head_free.
Qed.

(** X24 on the filter [myrepo:latest:old]. *)
Lemma X24_filter_repository_part_witness :
  RepositoryNameParsing.split_colon_head "myrepo:latest:old" = "myrepo".
Proof.
  exact (proj1 (X24_filter_repository_part "myrepo" "latest:old" eq_refl)).
Defined.

(** X25: an invocation hangs exactly when it is still at work once the
    timer of the goroutine is ready.  It never returns iff it has started
    the goroutine and the goroutine takes its timeout case; otherwise it
    returns the pair that its [return] statement set.  The case the
    goroutine runs is one its race allows; with a deadline at least ten
    seconds away when the timer is armed, it is the quit case when the main
    path reaches its deferred send earlier than ten seconds before the
    deadline, and the timeout case when it reaches it later. *)
Theorem X25_hangs_iff_timed_out (w : World) (ctx : Context) (ev : ECRImageActionEvent) :
  (never_returns (HandleRequest w ctx ev) <->
     (exists timer dir, In (CGoDeadline timer dir) (snd (HandleRequest w ctx ev)))
     /\ selected w ctx = case_timeoutChannel)
  /\ (returns (HandleRequest w ctx ev) (fst (HandleRequest w ctx ev)) <->
      ~ never_returns (HandleRequest w ctx ev))
  /\ may_select (invocation_race w ctx (Some (w_QuitAt w))) (selected w ctx) = true
  /\ (forall deadline,
        ctx_deadline ctx = Some deadline ->
        (w_Now w <= deadline - 10 * Second)%Z ->
        (deadline - 10 * Second - w_Now w <= maxDuration)%Z ->
        ((w_QuitAt w < deadline - 10 * Second)%Z -> selected w ctx = case_quitChannel)
        /\ ((deadline - 10 * Second < w_QuitAt w)%Z -> selected w ctx = case_timeoutChannel)).
Proof.
  assert (Hiff : never_returns (HandleRequest w ctx ev) <->
     (exists timer dir, In (CGoDeadline timer dir) (snd (HandleRequest w ctx ev)))
     /\ selected w ctx = case_timeoutChannel).
  { split.
    - intros Hn. pose proof (blocked_reached w ctx ev Hn) as (timer & dir & Hin).
      split; [eauto|].
      destruct (reached_ends w ctx ev (CGoDeadline timer dir) eq_refl Hin) as [Hr _].
      destruct (selected w ctx); [reflexivity|].
      destruct (Hr eq_refl) as [_ Hb]. specialize (Hb _ Hn). discriminate Hb.
    - intros [(timer & dir & Hin) Hs].
      apply (proj2 (reached_ends w ctx ev (CGoDeadline timer dir) eq_refl Hin) Hs). }
  split; [exact Hiff|]. split; [|split].
  - unfold returns, never_returns. split.
    + intros [_ Hb] Hin. specialize (Hb _ Hin). discriminate Hb.
    + intros Hn. split; [reflexivity|]. intros c Hin.
      destruct c; try reflexivity. contradiction.
  - apply selected_in_race.
  - intros deadline Hd Hnow Hmax.
    destruct (selected_in_race w ctx) as (_ & Hq & Ht). cbv zeta in Hq, Ht.
    rewrite (timer_ready_before_deadline w ctx deadline _ Hd Hnow Hmax) in Hq, Ht.
    split; assumption.
Qed.

(** X25 on the sample event, whose deadline is at 900 s: the invocation
    returns when it reaches its deferred send after 5 s, and hangs when it
    reaches it after 895 s. *)
Lemma X25_hangs_iff_timed_out_witness :
  selected (Scenarios.fine "V1") Samples.ctx = case_quitChannel
  /\ ~ never_returns (HandleRequest (Scenarios.fine "V1") Samples.ctx Samples.event)
  /\ never_returns
       (HandleRequest (with_QuitAt (Scenarios.fine "V1") (895 * Second)%Z)
          Samples.ctx Samples.event).
Proof.
  assert (Hnow : (w_Now (Scenarios.fine "V1") <= 900 * Second - 10 * Second)%Z)
    by (vm_compute; discriminate).
  assert (Hmax : (900 * Second - 10 * Second - w_Now (Scenarios.fine "V1") <= maxDuration)%Z)
    by (vm_compute; discriminate).
  assert (Hearly : (w_QuitAt (Scenarios.fine "V1") < 900 * Second - 10 * Second)%Z)
    by (vm_compute; reflexivity).
  assert (Hlate : (900 * Second - 10 * Second
                   < w_QuitAt (with_QuitAt (Scenarios.fine "V1") (895 * Second)%Z))%Z)
    by (vm_compute; reflexivity).
  assert (Hstarted : exists timer dir,
            In (CGoDeadline timer dir)
               (snd (HandleRequest (with_QuitAt (Scenarios.fine "V1") (895 * Second)%Z)
                       Samples.ctx Samples.event))).
  { exists (890 * Second)%Z, "/tmp/req-10001".
    vm_compute. repeat (first [left; reflexivity | right]). }
  pose proof (X25_hangs_iff_timed_out (Scenarios.fine "V1") Samples.ctx Samples.event)
    as (Hiff & _ & _ & Htime).
  pose proof (X25_hangs_iff_timed_out (with_QuitAt (Scenarios.fine "V1") (895 * Second)%Z)
                Samples.ctx Samples.event)
    as (Hiff' & _ & _ & Htime').
  pose proof (proj1 (Htime (900 * Second)%Z eq_refl Hnow Hmax) Hearly) as Hq.
  pose proof (proj2 (Htime' (900 * Second)%Z eq_refl Hnow Hmax) Hlate) as Ht.
  split; [exact Hq|]. split.
  - intros Hn. destruct (proj1 Hiff Hn) as [_ Hs].
    rewrite Hq in Hs. discriminate Hs.
  - exact (proj2 Hiff' (conj Hstarted Ht)).
Defined.
